(** * Voice core of the W.I.T. terminal firmware

    A shallow embedding of [firmware/core/voice/voice_core.c]: the per-frame
    processing task (beamforming, voice activity detection, wake-word
    trigger, recording sink) and the public session API, followed by the
    properties of the session state machine, the noise-floor tracker and the
    recording buffer.

    Conventions of the embedding.
    - [uint32_t] and [size_t] values are integers of [Z] reduced modulo
      [2^32] where the C code can wrap (the target is a 32-bit MCU).
    - [float] is IEEE-754 binary32 with round-to-nearest-even, taken from the
      standard library's [SpecFloat] at precision 24; [double] (only [M_PI])
      is binary64.
    - A pointer argument that may be [NULL] is an [option].
    - Callbacks are opaque: an invocation is recorded in a trace and does not
      re-enter the API.
    - The processing task is modelled one loop iteration at a time, after a
      frame has been received from the queue; API calls are atomic with
      respect to iterations. *)

From Stdlib Require Import ZArith List Bool Lia.
From Stdlib Require String.
From Stdlib Require Import Floats.SpecFloat.
Import ListNotations.
Local Open Scope Z_scope.

(** ** Machine integers and array helpers *)

Definition to_u32 (z : Z) : Z := z mod 2 ^ 32.
Definition to_size (z : Z) : Z := z mod 2 ^ 32.

Fixpoint range_from (start : Z) (n : nat) : list Z :=
  match n with
  | O => []
  | S n' => start :: range_from (start + 1) n'
  end.

(** [range n] is the index sequence of [for (i = 0; i < n; i++)]. *)
Definition range (n : Z) : list Z := range_from 0 (Z.to_nat n).

(** [arr[i]] with a default for an index outside the array. *)
Definition znth {A : Type} (l : list A) (i : Z) (d : A) : A :=
  if i <? 0 then d else nth (Z.to_nat i) l d.

Fixpoint upd_nat {A : Type} (l : list A) (n : nat) (v : A) : list A :=
  match l, n with
  | [], _ => []
  | _ :: t, O => v :: t
  | h :: t, S n' => h :: upd_nat t n' v
  end.

(** [arr[i] = v]; an index outside the array leaves it as it is. *)
Definition zupd {A : Type} (l : list A) (i : Z) (v : A) : list A :=
  if i <? 0 then l else upd_nat l (Z.to_nat i) v.

(** The first [n] cells of a memory area; cells beyond [l] read as 0. *)
Fixpoint take_pad (n : nat) (l : list Z) : list Z :=
  match n with
  | O => []
  | S n' =>
      match l with
      | [] => 0 :: take_pad n' []
      | h :: t => h :: take_pad n' t
      end
  end.

(** [memcpy(dst + off, src, len)] on byte lists. *)
Definition memcpy_at {A : Type} (dst : list A) (off : Z) (src : list A) (len : Z)
  : list A :=
  firstn (Z.to_nat off) dst ++ firstn (Z.to_nat len) src
    ++ skipn (Z.to_nat (off + len)) dst.

(** ** Floating point: binary32 and binary64 *)

Definition float32 : Type := spec_float.

Module F32.
Definition prec : Z := 24.
Definition emax : Z := 128.
Definition of_Z (z : Z) : float32 := binary_normalize prec emax z 0 false.
Definition add : float32 -> float32 -> float32 := SFadd prec emax.
Definition sub : float32 -> float32 -> float32 := SFsub prec emax.
Definition mul : float32 -> float32 -> float32 := SFmul prec emax.
Definition div : float32 -> float32 -> float32 := SFdiv prec emax.
Definition sqrtf : float32 -> float32 := SFsqrt prec emax.
Definition ltb (x y : float32) : bool := SFltb x y.
(** [x > y] *)
Definition gtb (x y : float32) : bool := SFltb y x.
(** [x != y], true when either side is a NaN *)
Definition neb (x y : float32) : bool := negb (SFeqb x y).

Definition fmaxf (x y : float32) : float32 :=
  match x, y with
  | S754_nan, _ => y
  | _, S754_nan => x
  | _, _ => if SFltb x y then y else x
  end.

Definition fminf (x y : float32) : float32 :=
  match x, y with
  | S754_nan, _ => y
  | _, S754_nan => x
  | _, _ => if SFltb y x then y else x
  end.

(** Conversion to an integer type truncates toward zero. *)
Definition trunc (x : float32) : Z :=
  match x with
  | S754_finite s m e =>
      let a := Z.shiftl (Z.pos m) e in if s then - a else a
  | _ => 0
  end.

Definition zero : float32 := S754_zero false.
Definition one : float32 := of_Z 1.
End F32.

Arguments F32.of_Z : simpl never.
Arguments F32.add : simpl never.
Arguments F32.sub : simpl never.
Arguments F32.mul : simpl never.
Arguments F32.div : simpl never.
Arguments F32.sqrtf : simpl never.
Arguments F32.ltb : simpl never.
Arguments F32.gtb : simpl never.
Arguments F32.neb : simpl never.

Module F64.
Definition prec : Z := 53.
Definition emax : Z := 1024.
Definition mul : spec_float -> spec_float -> spec_float := SFmul prec emax.
Definition div : spec_float -> spec_float -> spec_float := SFdiv prec emax.

Definition renorm (p e : Z) (x : spec_float) : spec_float :=
  match x with
  | S754_finite s m ex =>
      binary_normalize p e (if s then Z.neg m else Z.pos m) ex s
  | _ => x
  end.
Definition of_f32 (x : float32) : spec_float := renorm prec emax x.
Definition to_f32 (x : spec_float) : float32 := renorm F32.prec F32.emax x.

(** [M_PI], the binary64 number nearest to pi (0x400921FB54442D18). *)
Definition M_PI : spec_float := S754_finite false 7074237752028440 (-51).
End F64.

(** The functions of the C math library the code calls, apart from [sqrtf],
    [fmaxf] and [fminf], which IEEE-754 determines. The code is verified for
    every implementation of them. *)
Class Libm : Type := {
  log10f : float32 -> float32;
  cosf : float32 -> float32;
  sinf : float32 -> float32
}.

(** ** Declarations of voice_core.h *)

(** Modelled from the spec: the compile-time constants of voice_core.h, which
    voice_core.c uses and the source tree does not define. They are
    parameters of the development. *)
Class VoiceHeader : Type := {
  VOICE_SAMPLE_RATE : Z;
  VOICE_CHANNELS : Z;
  VOICE_FRAME_SIZE : Z;
  VOICE_BUFFER_SIZE : Z;
  MAX_WAKE_WORDS : Z;
  VAD_FRAME_THRESHOLD : Z;
  VAD_ENERGY_THRESHOLD : float32;
  WAKE_WORD_SENSITIVITY : float32
}.

(** The six session states the code switches on. *)
Inductive voice_state_t : Type :=
| VOICE_STATE_IDLE
| VOICE_STATE_LISTENING
| VOICE_STATE_WAKE_DETECTED
| VOICE_STATE_RECORDING
| VOICE_STATE_PROCESSING
| VOICE_STATE_ERROR.

Definition voice_state_eqb (a b : voice_state_t) : bool :=
  match a, b with
  | VOICE_STATE_IDLE, VOICE_STATE_IDLE
  | VOICE_STATE_LISTENING, VOICE_STATE_LISTENING
  | VOICE_STATE_WAKE_DETECTED, VOICE_STATE_WAKE_DETECTED
  | VOICE_STATE_RECORDING, VOICE_STATE_RECORDING
  | VOICE_STATE_PROCESSING, VOICE_STATE_PROCESSING
  | VOICE_STATE_ERROR, VOICE_STATE_ERROR => true
  | _, _ => false
  end.

(** Modelled from the spec: the enumeration [voice_error_t] of voice_core.h.
    The code names [VOICE_OK], [VOICE_ERR_INVALID_PARAM] and
    [VOICE_ERR_BUFFER_OVERFLOW]; the other kinds are those of the spec's
    error taxonomy. *)
Inductive voice_error_t : Type :=
| VOICE_OK
| VOICE_ERR_INVALID_PARAM
| VOICE_ERR_INVALID_STATE
| VOICE_ERR_BUFFER_OVERFLOW
| VOICE_ERR_OUT_OF_MEMORY.

(** Modelled from the spec: a registry entry, of which the code reads the
    [callback] function pointer only ([None] is a null pointer, [Some k] the
    k-th callback function of the application). *)
Record wake_word_model_t : Type := mk_wake_word_model {
  ww_name : String.string;
  ww_threshold : float32;
  ww_callback : option nat
}.

(** Modelled from the spec: the beamforming part of the configuration;
    [mic_positions[ch]] holds the coordinates of microphone [ch]. *)
Record beamform_config_t : Type := mk_beamform_config {
  adaptive_mode : bool;
  mic_positions : list (list float32)
}.

(** Modelled from the spec: the fields of [voice_config_t] the code uses. *)
Record voice_config_t : Type := mk_voice_config {
  beamform : beamform_config_t;
  wake_words : list wake_word_model_t;
  num_wake_words : Z
}.

(** Modelled from the spec: an audio frame. *)
Record voice_frame_t : Type := mk_voice_frame {
  samples : list Z;
  timestamp_ms : Z;
  energy_db : list float32;
  frame_vad_active : bool
}.

(** Modelled from the spec: the statistics block; the counters are
    [uint32_t] like the counters of the context. *)
Record voice_stats_t : Type := mk_voice_stats {
  frames_processed : Z;
  buffer_overruns : Z;
  vad_activations : Z;
  wake_detections : Z;
  avg_energy_db : float32;
  noise_floor_db : float32;
  cpu_usage_percent : float32
}.

Definition set_frames_processed (v : Z) (s : voice_stats_t) : voice_stats_t :=
  mk_voice_stats v (buffer_overruns s) (vad_activations s) (wake_detections s)
    (avg_energy_db s) (noise_floor_db s) (cpu_usage_percent s).

Definition set_buffer_overruns (v : Z) (s : voice_stats_t) : voice_stats_t :=
  mk_voice_stats (frames_processed s) v (vad_activations s)
    (wake_detections s) (avg_energy_db s) (noise_floor_db s)
    (cpu_usage_percent s).

Definition set_vad_activations (v : Z) (s : voice_stats_t) : voice_stats_t :=
  mk_voice_stats (frames_processed s) (buffer_overruns s) v
    (wake_detections s) (avg_energy_db s) (noise_floor_db s)
    (cpu_usage_percent s).

Definition set_wake_detections (v : Z) (s : voice_stats_t) : voice_stats_t :=
  mk_voice_stats (frames_processed s) (buffer_overruns s) (vad_activations s)
    v (avg_energy_db s) (noise_floor_db s) (cpu_usage_percent s).

Definition set_avg_energy_db (v : float32) (s : voice_stats_t) : voice_stats_t :=
  mk_voice_stats (frames_processed s) (buffer_overruns s) (vad_activations s)
    (wake_detections s) v (noise_floor_db s) (cpu_usage_percent s).

Definition set_noise_floor_db (v : float32) (s : voice_stats_t) : voice_stats_t :=
  mk_voice_stats (frames_processed s) (buffer_overruns s) (vad_activations s)
    (wake_detections s) (avg_energy_db s) v (cpu_usage_percent s).

Definition set_cpu_usage_percent (v : float32) (s : voice_stats_t) : voice_stats_t :=
  mk_voice_stats (frames_processed s) (buffer_overruns s) (vad_activations s)
    (wake_detections s) (avg_energy_db s) (noise_floor_db s) v.


(** [struct voice_context], without the RTOS handles (mutex, queue, task,
    timer), the wake-word engine pointer and the DSP scratch buffers, none of
    which the modelled code reads or writes after [voice_init]. *)
Record voice_context : Type := mk_voice_context {
  config : voice_config_t;
  state : voice_state_t;
  circular_buffer : list Z;
  buffer_write_idx : Z;
  buffer_read_idx : Z;
  recording_buffer : list Z;
  recording_size : Z;
  recording_capacity : Z;
  is_recording : bool;
  recording_start_time : Z;
  max_recording_duration : Z;
  beamform_weights : list float32;
  beamform_delays : list float32;
  current_steering_angle : float32;
  last_wake_time : Z;
  wake_sensitivity : float32;
  noise_floor : float32;
  vad_frame_count : Z;
  vad_active : bool;
  stats : voice_stats_t;
  start_time : Z;
  audio_callback : option nat;
  audio_callback_data : Z
}.

Definition set_config (v : voice_config_t) (c : voice_context) : voice_context :=
  mk_voice_context v (state c) (circular_buffer c) (buffer_write_idx c)
    (buffer_read_idx c) (recording_buffer c) (recording_size c)
    (recording_capacity c) (is_recording c) (recording_start_time c)
    (max_recording_duration c) (beamform_weights c) (beamform_delays c)
    (current_steering_angle c) (last_wake_time c) (wake_sensitivity c)
    (noise_floor c) (vad_frame_count c) (vad_active c) (stats c)
    (start_time c) (audio_callback c) (audio_callback_data c).

Definition set_state (v : voice_state_t) (c : voice_context) : voice_context :=
  mk_voice_context (config c) v (circular_buffer c) (buffer_write_idx c)
    (buffer_read_idx c) (recording_buffer c) (recording_size c)
    (recording_capacity c) (is_recording c) (recording_start_time c)
    (max_recording_duration c) (beamform_weights c) (beamform_delays c)
    (current_steering_angle c) (last_wake_time c) (wake_sensitivity c)
    (noise_floor c) (vad_frame_count c) (vad_active c) (stats c)
    (start_time c) (audio_callback c) (audio_callback_data c).

Definition set_buffer_write_idx (v : Z) (c : voice_context) : voice_context :=
  mk_voice_context (config c) (state c) (circular_buffer c) v
    (buffer_read_idx c) (recording_buffer c) (recording_size c)
    (recording_capacity c) (is_recording c) (recording_start_time c)
    (max_recording_duration c) (beamform_weights c) (beamform_delays c)
    (current_steering_angle c) (last_wake_time c) (wake_sensitivity c)
    (noise_floor c) (vad_frame_count c) (vad_active c) (stats c)
    (start_time c) (audio_callback c) (audio_callback_data c).

Definition set_circular_buffer (v : list Z) (c : voice_context) : voice_context :=
  mk_voice_context (config c) (state c) v (buffer_write_idx c)
    (buffer_read_idx c) (recording_buffer c) (recording_size c)
    (recording_capacity c) (is_recording c) (recording_start_time c)
    (max_recording_duration c) (beamform_weights c) (beamform_delays c)
    (current_steering_angle c) (last_wake_time c) (wake_sensitivity c)
    (noise_floor c) (vad_frame_count c) (vad_active c) (stats c)
    (start_time c) (audio_callback c) (audio_callback_data c).

Definition set_recording_buffer (v : list Z) (c : voice_context) : voice_context :=
  mk_voice_context (config c) (state c) (circular_buffer c)
    (buffer_write_idx c) (buffer_read_idx c) v (recording_size c)
    (recording_capacity c) (is_recording c) (recording_start_time c)
    (max_recording_duration c) (beamform_weights c) (beamform_delays c)
    (current_steering_angle c) (last_wake_time c) (wake_sensitivity c)
    (noise_floor c) (vad_frame_count c) (vad_active c) (stats c)
    (start_time c) (audio_callback c) (audio_callback_data c).

Definition set_recording_size (v : Z) (c : voice_context) : voice_context :=
  mk_voice_context (config c) (state c) (circular_buffer c)
    (buffer_write_idx c) (buffer_read_idx c) (recording_buffer c) v
    (recording_capacity c) (is_recording c) (recording_start_time c)
    (max_recording_duration c) (beamform_weights c) (beamform_delays c)
    (current_steering_angle c) (last_wake_time c) (wake_sensitivity c)
    (noise_floor c) (vad_frame_count c) (vad_active c) (stats c)
    (start_time c) (audio_callback c) (audio_callback_data c).

Definition set_is_recording (v : bool) (c : voice_context) : voice_context :=
  mk_voice_context (config c) (state c) (circular_buffer c)
    (buffer_write_idx c) (buffer_read_idx c) (recording_buffer c)
    (recording_size c) (recording_capacity c) v (recording_start_time c)
    (max_recording_duration c) (beamform_weights c) (beamform_delays c)
    (current_steering_angle c) (last_wake_time c) (wake_sensitivity c)
    (noise_floor c) (vad_frame_count c) (vad_active c) (stats c)
    (start_time c) (audio_callback c) (audio_callback_data c).

Definition set_recording_start_time (v : Z) (c : voice_context) : voice_context :=
  mk_voice_context (config c) (state c) (circular_buffer c)
    (buffer_write_idx c) (buffer_read_idx c) (recording_buffer c)
    (recording_size c) (recording_capacity c) (is_recording c) v
    (max_recording_duration c) (beamform_weights c) (beamform_delays c)
    (current_steering_angle c) (last_wake_time c) (wake_sensitivity c)
    (noise_floor c) (vad_frame_count c) (vad_active c) (stats c)
    (start_time c) (audio_callback c) (audio_callback_data c).

Definition set_max_recording_duration (v : Z) (c : voice_context) : voice_context :=
  mk_voice_context (config c) (state c) (circular_buffer c)
    (buffer_write_idx c) (buffer_read_idx c) (recording_buffer c)
    (recording_size c) (recording_capacity c) (is_recording c)
    (recording_start_time c) v (beamform_weights c) (beamform_delays c)
    (current_steering_angle c) (last_wake_time c) (wake_sensitivity c)
    (noise_floor c) (vad_frame_count c) (vad_active c) (stats c)
    (start_time c) (audio_callback c) (audio_callback_data c).

Definition set_beamform_weights (v : list float32) (c : voice_context) : voice_context :=
  mk_voice_context (config c) (state c) (circular_buffer c)
    (buffer_write_idx c) (buffer_read_idx c) (recording_buffer c)
    (recording_size c) (recording_capacity c) (is_recording c)
    (recording_start_time c) (max_recording_duration c) v (beamform_delays c)
    (current_steering_angle c) (last_wake_time c) (wake_sensitivity c)
    (noise_floor c) (vad_frame_count c) (vad_active c) (stats c)
    (start_time c) (audio_callback c) (audio_callback_data c).

Definition set_beamform_delays (v : list float32) (c : voice_context) : voice_context :=
  mk_voice_context (config c) (state c) (circular_buffer c)
    (buffer_write_idx c) (buffer_read_idx c) (recording_buffer c)
    (recording_size c) (recording_capacity c) (is_recording c)
    (recording_start_time c) (max_recording_duration c) (beamform_weights c) v
    (current_steering_angle c) (last_wake_time c) (wake_sensitivity c)
    (noise_floor c) (vad_frame_count c) (vad_active c) (stats c)
    (start_time c) (audio_callback c) (audio_callback_data c).

Definition set_current_steering_angle (v : float32) (c : voice_context) : voice_context :=
  mk_voice_context (config c) (state c) (circular_buffer c)
    (buffer_write_idx c) (buffer_read_idx c) (recording_buffer c)
    (recording_size c) (recording_capacity c) (is_recording c)
    (recording_start_time c) (max_recording_duration c) (beamform_weights c)
    (beamform_delays c) v (last_wake_time c) (wake_sensitivity c)
    (noise_floor c) (vad_frame_count c) (vad_active c) (stats c)
    (start_time c) (audio_callback c) (audio_callback_data c).

Definition set_last_wake_time (v : Z) (c : voice_context) : voice_context :=
  mk_voice_context (config c) (state c) (circular_buffer c)
    (buffer_write_idx c) (buffer_read_idx c) (recording_buffer c)
    (recording_size c) (recording_capacity c) (is_recording c)
    (recording_start_time c) (max_recording_duration c) (beamform_weights c)
    (beamform_delays c) (current_steering_angle c) v (wake_sensitivity c)
    (noise_floor c) (vad_frame_count c) (vad_active c) (stats c)
    (start_time c) (audio_callback c) (audio_callback_data c).

Definition set_wake_sensitivity (v : float32) (c : voice_context) : voice_context :=
  mk_voice_context (config c) (state c) (circular_buffer c)
    (buffer_write_idx c) (buffer_read_idx c) (recording_buffer c)
    (recording_size c) (recording_capacity c) (is_recording c)
    (recording_start_time c) (max_recording_duration c) (beamform_weights c)
    (beamform_delays c) (current_steering_angle c) (last_wake_time c) v
    (noise_floor c) (vad_frame_count c) (vad_active c) (stats c)
    (start_time c) (audio_callback c) (audio_callback_data c).

Definition set_noise_floor (v : float32) (c : voice_context) : voice_context :=
  mk_voice_context (config c) (state c) (circular_buffer c)
    (buffer_write_idx c) (buffer_read_idx c) (recording_buffer c)
    (recording_size c) (recording_capacity c) (is_recording c)
    (recording_start_time c) (max_recording_duration c) (beamform_weights c)
    (beamform_delays c) (current_steering_angle c) (last_wake_time c)
    (wake_sensitivity c) v (vad_frame_count c) (vad_active c) (stats c)
    (start_time c) (audio_callback c) (audio_callback_data c).

Definition set_vad_frame_count (v : Z) (c : voice_context) : voice_context :=
  mk_voice_context (config c) (state c) (circular_buffer c)
    (buffer_write_idx c) (buffer_read_idx c) (recording_buffer c)
    (recording_size c) (recording_capacity c) (is_recording c)
    (recording_start_time c) (max_recording_duration c) (beamform_weights c)
    (beamform_delays c) (current_steering_angle c) (last_wake_time c)
    (wake_sensitivity c) (noise_floor c) v (vad_active c) (stats c)
    (start_time c) (audio_callback c) (audio_callback_data c).

Definition set_vad_active (v : bool) (c : voice_context) : voice_context :=
  mk_voice_context (config c) (state c) (circular_buffer c)
    (buffer_write_idx c) (buffer_read_idx c) (recording_buffer c)
    (recording_size c) (recording_capacity c) (is_recording c)
    (recording_start_time c) (max_recording_duration c) (beamform_weights c)
    (beamform_delays c) (current_steering_angle c) (last_wake_time c)
    (wake_sensitivity c) (noise_floor c) (vad_frame_count c) v (stats c)
    (start_time c) (audio_callback c) (audio_callback_data c).

Definition set_stats (v : voice_stats_t) (c : voice_context) : voice_context :=
  mk_voice_context (config c) (state c) (circular_buffer c)
    (buffer_write_idx c) (buffer_read_idx c) (recording_buffer c)
    (recording_size c) (recording_capacity c) (is_recording c)
    (recording_start_time c) (max_recording_duration c) (beamform_weights c)
    (beamform_delays c) (current_steering_angle c) (last_wake_time c)
    (wake_sensitivity c) (noise_floor c) (vad_frame_count c) (vad_active c) v
    (start_time c) (audio_callback c) (audio_callback_data c).

Definition set_audio_callback (v : option nat) (c : voice_context) : voice_context :=
  mk_voice_context (config c) (state c) (circular_buffer c)
    (buffer_write_idx c) (buffer_read_idx c) (recording_buffer c)
    (recording_size c) (recording_capacity c) (is_recording c)
    (recording_start_time c) (max_recording_duration c) (beamform_weights c)
    (beamform_delays c) (current_steering_angle c) (last_wake_time c)
    (wake_sensitivity c) (noise_floor c) (vad_frame_count c) (vad_active c)
    (stats c) (start_time c) v (audio_callback_data c).

Definition set_audio_callback_data (v : Z) (c : voice_context) : voice_context :=
  mk_voice_context (config c) (state c) (circular_buffer c)
    (buffer_write_idx c) (buffer_read_idx c) (recording_buffer c)
    (recording_size c) (recording_capacity c) (is_recording c)
    (recording_start_time c) (max_recording_duration c) (beamform_weights c)
    (beamform_delays c) (current_steering_angle c) (last_wake_time c)
    (wake_sensitivity c) (noise_floor c) (vad_frame_count c) (vad_active c)
    (stats c) (start_time c) (audio_callback c) v.


Definition set_energy_db (v : list float32) (f : voice_frame_t) : voice_frame_t :=
  mk_voice_frame (samples f) (timestamp_ms f) v (frame_vad_active f).

Definition set_frame_vad_active (v : bool) (f : voice_frame_t) : voice_frame_t :=
  mk_voice_frame (samples f) (timestamp_ms f) (energy_db f) v.

Definition set_adaptive_mode (v : bool) (g : voice_config_t) : voice_config_t :=
  mk_voice_config (mk_beamform_config v (mic_positions (beamform g)))
    (wake_words g) (num_wake_words g).

Definition no_wake_word : wake_word_model_t :=
  mk_wake_word_model String.EmptyString F32.zero None.

(** ** The world around the context *)

(** What the code does to its environment: calls of application callbacks
    and the re-arming of the wake timeout timer. *)
Inductive event : Type :=
| EvWakeCallback (k : nat)
| EvAudioCallback (k : nat) (user_data : Z)
| EvTimerReset.

(** The context together with the function-local [static int
    simulation_counter] of [process_wake_word_detection] and the trace of
    events so far, oldest first. The counter is an unbounded integer: the
    signed overflow after [2^31 - 1] processed frames is undefined in C and
    outside the model. *)
Record world : Type := mk_world {
  ctx : voice_context;
  simulation_counter : Z;
  trace : list event
}.

Definition set_ctx (c : voice_context) (w : world) : world :=
  mk_world c (simulation_counter w) (trace w).

Definition emit (e : event) (w : world) : world :=
  mk_world (ctx w) (simulation_counter w) (trace w ++ [e]).

Definition is_wake_callback (e : event) : bool :=
  match e with EvWakeCallback _ => true | _ => false end.

Definition is_timer_reset (e : event) : bool :=
  match e with EvTimerReset => true | _ => false end.

(** Number of wake-word callback invocations in a trace. *)
Definition wake_callback_count (t : list event) : Z :=
  Z.of_nat (length (filter is_wake_callback t)).

(** Two bytes of an [int16_t] in memory, low byte first (the target is
    little-endian). *)
Definition int16_bytes (z : Z) : list Z :=
  [z mod 256; (z mod 65536) / 256].

Definition bytes_of_int16s (l : list Z) : list Z := flat_map int16_bytes l.

(** ** The code *)

Section VoiceCore.
Context {libm : Libm} {hdr : VoiceHeader}.

(** Float literals of the source. *)
Definition f_0_95 : float32 := F32.div (F32.of_Z 95) (F32.of_Z 100).
Definition f_1e_6 : float32 := F32.div (F32.of_Z 1) (F32.of_Z 1000000).

(** [calculate_energy_db] *)
Definition calculate_energy_db (samples : option (list Z)) (num_samples : Z)
  : float32 :=
  match samples with
  | None => F32.of_Z (-100)
  | Some s =>
      if num_samples =? 0 then F32.of_Z (-100)
      else
        let sum :=
          fold_left
            (fun sum i =>
               let normalized :=
                 F32.div (F32.of_Z (znth s i 0)) (F32.of_Z 32768) in
               F32.add sum (F32.mul normalized normalized))
            (range num_samples) F32.zero in
        let rms := F32.sqrtf (F32.div sum (F32.of_Z num_samples)) in
        F32.mul (F32.of_Z 20) (log10f (F32.fmaxf rms f_1e_6))
  end.

(** [update_noise_floor] *)
Definition update_noise_floor (c : voice_context) (current_energy : float32)
  : voice_context :=
  let alpha := f_0_95 in
  let c :=
    set_noise_floor
      (F32.add (F32.mul alpha (noise_floor c))
         (F32.mul (F32.sub F32.one alpha) current_energy)) c in
  set_stats (set_noise_floor_db (noise_floor c) (stats c)) c.

(** The samples of channel [ch], as the inner loop of
    [detect_voice_activity] extracts them. *)
Definition channel_samples (frame : voice_frame_t) (ch : Z) : list Z :=
  map (fun i => znth (samples frame) (i * VOICE_CHANNELS + ch) 0)
    (range VOICE_FRAME_SIZE).

(** Body of the channel loop of [detect_voice_activity]; the accumulator is
    [(total_energy, active_channels, frame)]. *)
Definition vad_channel (c : voice_context)
  (acc : float32 * Z * voice_frame_t) (ch : Z) : float32 * Z * voice_frame_t :=
  let '(total_energy, active_channels, frame) := acc in
  let energy :=
    calculate_energy_db (Some (channel_samples frame ch))
      (to_size VOICE_FRAME_SIZE) in
  let frame := set_energy_db (zupd (energy_db frame) ch energy) frame in
  let active_channels :=
    if F32.gtb energy (F32.add (noise_floor c) (F32.of_Z 6))
    then active_channels + 1 else active_channels in
  (F32.add total_energy energy, active_channels, frame).

(** [detect_voice_activity]: the decision, the context and the frame with
    its [energy_db] filled in. *)
Definition detect_voice_activity (c : voice_context) (frame : voice_frame_t)
  : bool * voice_context * voice_frame_t :=
  let '(total_energy, active_channels, frame) :=
    fold_left (vad_channel c) (range VOICE_CHANNELS) (F32.zero, 0, frame) in
  let avg_energy := F32.div total_energy (F32.of_Z VOICE_CHANNELS) in
  let c := set_stats (set_avg_energy_db avg_energy (stats c)) c in
  let c := if negb (vad_active c) then update_noise_floor c avg_energy else c in
  let energy_vad :=
    F32.gtb avg_energy (F32.add (noise_floor c) (F32.of_Z 10)) in
  let channel_vad := Z.quot VOICE_CHANNELS 2 <=? active_channels in
  let c :=
    if energy_vad && channel_vad
    then set_vad_frame_count (to_u32 (vad_frame_count c + 1)) c
    else set_vad_frame_count 0 c in
  let c :=
    set_vad_active (to_u32 VAD_FRAME_THRESHOLD <=? vad_frame_count c) c in
  (vad_active c, c, frame).

(** Body of the channel loop of [apply_beamforming]. *)
Definition beamform_channel (steering_rad : float32) (c : voice_context)
  (ch : Z) : voice_context :=
  let speed_of_sound := F32.of_Z 343 in
  let pos := znth (mic_positions (beamform (config c))) ch [] in
  let dx := znth pos 0 F32.zero in
  let dy := znth pos 1 F32.zero in
  let delay :=
    F32.div
      (F32.mul
         (F32.add (F32.mul dx (cosf steering_rad))
            (F32.mul dy (sinf steering_rad)))
         (F32.of_Z VOICE_SAMPLE_RATE))
      speed_of_sound in
  let c := set_beamform_delays (zupd (beamform_delays c) ch delay) c in
  set_beamform_weights
    (zupd (beamform_weights c) ch (F32.div F32.one (F32.of_Z VOICE_CHANNELS)))
    c.

(** [apply_beamforming]; the product with [M_PI] is computed in [double]. *)
Definition apply_beamforming (c : voice_context) : voice_context :=
  let steering_rad :=
    F64.to_f32
      (F64.div (F64.mul (F64.of_f32 (current_steering_angle c)) F64.M_PI)
         (F64.of_f32 (F32.of_Z 180))) in
  fold_left (beamform_channel steering_rad) (range VOICE_CHANNELS) c.

(** The loop of [process_wake_word_detection] over the registry: the
    callback of the first entry that has one. *)
Fixpoint first_callback (ws : list wake_word_model_t) (idx : list Z)
  : option nat :=
  match idx with
  | [] => None
  | i :: rest =>
      match ww_callback (znth ws i no_wake_word) with
      | Some k => Some k
      | None => first_callback ws rest
      end
  end.

(** [process_wake_word_detection] *)
Definition process_wake_word_detection (w : world) (frame : voice_frame_t)
  : world :=
  let n := simulation_counter w + 1 in
  let w := mk_world (ctx w) n (trace w) in
  if frame_vad_active frame && (Z.rem n 500 =? 0) then
    let c := ctx w in
    let c := set_state VOICE_STATE_WAKE_DETECTED c in
    let c := set_last_wake_time (timestamp_ms frame) c in
    let c :=
      set_stats
        (set_wake_detections (to_u32 (wake_detections (stats c) + 1))
           (stats c)) c in
    let w := emit EvTimerReset (set_ctx c w) in
    match
      first_callback (wake_words (config c))
        (range (num_wake_words (config c)))
    with
    | Some k => emit (EvWakeCallback k) w
    | None => w
    end
  else w.

(** [voice_timeout_callback] *)
Definition voice_timeout_callback (c : voice_context) : voice_context :=
  if voice_state_eqb (state c) VOICE_STATE_WAKE_DETECTED
  then set_state VOICE_STATE_IDLE c else c.

(** [voice_get_state] *)
Definition voice_get_state (p : option voice_context) : voice_state_t :=
  match p with
  | Some c => state c
  | None => VOICE_STATE_ERROR
  end.

(** [voice_start_recording]; [now] is
    [xTaskGetTickCount() * portTICK_PERIOD_MS]. *)
Definition voice_start_recording (p : option voice_context)
  (max_duration_ms now : Z) : voice_error_t * option voice_context :=
  match p with
  | None => (VOICE_ERR_INVALID_PARAM, None)
  | Some c =>
      if negb (voice_state_eqb (state c) VOICE_STATE_WAKE_DETECTED)
         && negb (voice_state_eqb (state c) VOICE_STATE_IDLE)
      then (VOICE_ERR_INVALID_PARAM, Some c)
      else
        let c := set_recording_size 0 c in
        let c := set_is_recording true c in
        let c := set_max_recording_duration max_duration_ms c in
        let c := set_recording_start_time (to_u32 now) c in
        let c := set_state VOICE_STATE_RECORDING c in
        (VOICE_OK, Some c)
  end.

(** [voice_stop_recording] *)
Definition voice_stop_recording (p : option voice_context)
  : voice_error_t * option voice_context :=
  match p with
  | None => (VOICE_ERR_INVALID_PARAM, None)
  | Some c =>
      let c := set_is_recording false c in
      let c := set_state VOICE_STATE_PROCESSING c in
      (VOICE_OK, Some c)
  end.

(** Result of [voice_get_recording]: the return value, the context, the
    caller's buffer and the caller's [*bytes_written] after the call. *)
Record get_recording_result : Type := mk_get_recording_result {
  gr_error : voice_error_t;
  gr_ctx : option voice_context;
  gr_buffer : option (list Z);
  gr_bytes_written : option Z
}.

(** [voice_get_recording]; [buffer] and [bytes_written] hold what the
    caller's pointers point to, or [None] for a null pointer. *)
Definition voice_get_recording (p : option voice_context)
  (buffer : option (list Z)) (buffer_size : Z) (bytes_written : option Z)
  : get_recording_result :=
  match p, buffer, bytes_written with
  | Some c, Some buf, Some _ =>
      if recording_size c =? 0 then
        mk_get_recording_result VOICE_OK (Some c) (Some buf) (Some 0)
      else
        let copy_size :=
          if recording_size c <? buffer_size
          then recording_size c else buffer_size in
        let buf := memcpy_at buf 0 (recording_buffer c) copy_size in
        let c := set_recording_size 0 c in
        let c := set_state VOICE_STATE_IDLE c in
        mk_get_recording_result VOICE_OK (Some c) (Some buf) (Some copy_size)
  | _, _, _ =>
      mk_get_recording_result VOICE_ERR_INVALID_PARAM p buffer bytes_written
  end.

(** [voice_set_beam_direction] *)
Definition voice_set_beam_direction (p : option voice_context)
  (angle_degrees : float32) : voice_error_t * option voice_context :=
  match p with
  | None => (VOICE_ERR_INVALID_PARAM, None)
  | Some c =>
      if F32.ltb angle_degrees F32.zero
         || F32.gtb angle_degrees (F32.of_Z 360)
      then (VOICE_ERR_INVALID_PARAM, Some c)
      else (VOICE_OK, Some (set_current_steering_angle angle_degrees c))
  end.

(** [voice_set_adaptive_beam] *)
Definition voice_set_adaptive_beam (p : option voice_context) (enable : bool)
  : voice_error_t * option voice_context :=
  match p with
  | None => (VOICE_ERR_INVALID_PARAM, None)
  | Some c =>
      (VOICE_OK, Some (set_config (set_adaptive_mode enable (config c)) c))
  end.

(** [voice_register_wake_word] *)
Definition voice_register_wake_word (p : option voice_context)
  (model : option wake_word_model_t) : voice_error_t * option voice_context :=
  match p, model with
  | Some c, Some m =>
      if MAX_WAKE_WORDS <=? num_wake_words (config c)
      then (VOICE_ERR_INVALID_PARAM, Some c)
      else
        let g := config c in
        let g :=
          mk_voice_config (beamform g)
            (zupd (wake_words g) (num_wake_words g) m)
            (num_wake_words g + 1) in
        (VOICE_OK, Some (set_config g c))
  | _, _ => (VOICE_ERR_INVALID_PARAM, p)
  end.

(** [voice_set_sensitivity] *)
Definition voice_set_sensitivity (p : option voice_context)
  (sensitivity : float32) : voice_error_t * option voice_context :=
  match p with
  | None => (VOICE_ERR_INVALID_PARAM, None)
  | Some c =>
      if F32.ltb sensitivity F32.zero || F32.gtb sensitivity F32.one
      then (VOICE_ERR_INVALID_PARAM, Some c)
      else (VOICE_OK, Some (set_wake_sensitivity sensitivity c))
  end.

(** [voice_get_stats]; the second component is the caller's [*stats]. *)
Definition voice_get_stats (p : option voice_context)
  (out : option voice_stats_t) : voice_error_t * option voice_stats_t :=
  match p, out with
  | Some c, Some _ =>
      (VOICE_OK, Some (set_cpu_usage_percent (F32.of_Z 15) (stats c)))
  | _, _ => (VOICE_ERR_INVALID_PARAM, out)
  end.

(** The statistics block after [memset(&ctx->stats, 0, ...)]. *)
Definition zero_stats : voice_stats_t :=
  mk_voice_stats 0 0 0 0 F32.zero F32.zero F32.zero.

(** [voice_reset] *)
Definition voice_reset (p : option voice_context)
  : voice_error_t * option voice_context :=
  match p with
  | None => (VOICE_ERR_INVALID_PARAM, None)
  | Some c =>
      let c := set_state VOICE_STATE_IDLE c in
      let c := set_recording_size 0 c in
      let c := set_is_recording false c in
      let c := set_vad_frame_count 0 c in
      let c := set_vad_active false c in
      let c := set_stats zero_stats c in
      let c := set_stats (set_noise_floor_db (noise_floor c) (stats c)) c in
      (VOICE_OK, Some c)
  end.

(** [voice_set_noise_suppression] *)
Definition voice_set_noise_suppression (p : option voice_context)
  (level : float32) : voice_error_t * option voice_context :=
  match p with
  | None => (VOICE_ERR_INVALID_PARAM, None)
  | Some c =>
      if F32.ltb level F32.zero || F32.gtb level F32.one
      then (VOICE_ERR_INVALID_PARAM, Some c)
      else (VOICE_OK, Some c)
  end.

(** [voice_calibrate_noise] *)
Definition voice_calibrate_noise (p : option voice_context) (duration_ms : Z)
  : voice_error_t * option voice_context :=
  match p with
  | None => (VOICE_ERR_INVALID_PARAM, None)
  | Some c =>
      if duration_ms <? 100 then (VOICE_ERR_INVALID_PARAM, Some c)
      else (VOICE_OK, Some (set_noise_floor VAD_ENERGY_THRESHOLD c))
  end.

(** [voice_register_audio_callback] *)
Definition voice_register_audio_callback (p : option voice_context)
  (callback : option nat) (user_data : Z)
  : voice_error_t * option voice_context :=
  match p with
  | None => (VOICE_ERR_INVALID_PARAM, None)
  | Some c =>
      let c := set_audio_callback callback c in
      let c := set_audio_callback_data user_data c in
      (VOICE_OK, Some c)
  end.

(** The context a call leaves behind when the caller's pointer is [c]. *)
Definition after_call (c : voice_context)
  (r : voice_error_t * option voice_context) : voice_context :=
  match snd r with
  | Some c' => c'
  | None => c
  end.

(** Sample [i] of the mono mix-down in the recording branch of the
    processing task. *)
Definition mono_sample (c : voice_context) (frame : voice_frame_t) (i : Z)
  : Z :=
  let sum :=
    fold_left
      (fun sum ch =>
         F32.add sum
           (F32.mul (F32.of_Z (znth (samples frame) (i * VOICE_CHANNELS + ch) 0))
              (znth (beamform_weights c) ch F32.zero)))
      (range VOICE_CHANNELS) F32.zero in
  F32.trunc
    (F32.fminf (F32.fmaxf sum (F32.of_Z (-32768))) (F32.of_Z 32767)).

Definition mono_frame (c : voice_context) (frame : voice_frame_t) : list Z :=
  map (mono_sample c frame) (range VOICE_FRAME_SIZE).

(** [case VOICE_STATE_RECORDING] of the processing task. *)
Definition record_frame (c : voice_context) (frame : voice_frame_t)
  : voice_context :=
  let c :=
    if frame_vad_active frame && is_recording c then
      let frame_bytes := to_size (VOICE_FRAME_SIZE * 2) in
      if to_size (recording_size c + frame_bytes) <=? recording_capacity c
      then
        let c :=
          set_recording_buffer
            (memcpy_at (recording_buffer c) (recording_size c)
               (bytes_of_int16s (mono_frame c frame)) frame_bytes) c in
        set_recording_size (to_size (recording_size c + frame_bytes)) c
      else c
    else c in
  if max_recording_duration c
       <? to_u32 (timestamp_ms frame - recording_start_time c)
  then after_call c (voice_stop_recording (Some c))
  else c.

(** The [switch (ctx->state)] of the processing task. *)
Definition state_machine (w : world) (frame : voice_frame_t) : world :=
  match state (ctx w) with
  | VOICE_STATE_IDLE
  | VOICE_STATE_LISTENING => process_wake_word_detection w frame
  | VOICE_STATE_WAKE_DETECTED =>
      let c := ctx w in
      let c := set_state VOICE_STATE_RECORDING c in
      let c := set_recording_start_time (timestamp_ms frame) c in
      let c := set_recording_size 0 c in
      let c := set_is_recording true c in
      set_ctx (record_frame c frame) w
  | VOICE_STATE_RECORDING => set_ctx (record_frame (ctx w) frame) w
  | VOICE_STATE_PROCESSING => w
  | VOICE_STATE_ERROR => w
  end.

(** The copy of the frame into the circular buffer, when the mutex was
    obtained within its 10 ms. *)
Definition update_circular_buffer (c : voice_context) (frame : voice_frame_t)
  : voice_context :=
  let write_size := to_size (VOICE_FRAME_SIZE * VOICE_CHANNELS) in
  let c :=
    set_circular_buffer
      (memcpy_at (circular_buffer c) (buffer_write_idx c) (samples frame)
         write_size) c in
  set_buffer_write_idx
    (Z.rem (to_size (buffer_write_idx c + write_size))
       (to_size (VOICE_BUFFER_SIZE * VOICE_CHANNELS))) c.

(** One iteration of the loop of [voice_processing_task], for the frame
    received from the queue. [mutex_taken] tells whether [xSemaphoreTake]
    succeeded. The result holds the frame as annotated by the iteration. *)
Definition voice_processing_step (w : world) (frame : voice_frame_t)
  (mutex_taken : bool) : world * voice_frame_t :=
  let c := ctx w in
  let c :=
    set_stats
      (set_frames_processed (to_u32 (frames_processed (stats c) + 1))
         (stats c)) c in
  let c :=
    if adaptive_mode (beamform (config c))
       || F32.neb (current_steering_angle c) F32.zero
    then apply_beamforming c else c in
  let '(vad_result, c, frame) := detect_voice_activity c frame in
  let frame := set_frame_vad_active vad_result frame in
  let c :=
    if vad_result
    then
      set_stats
        (set_vad_activations (to_u32 (vad_activations (stats c) + 1))
           (stats c)) c
    else c in
  let w := state_machine (set_ctx c w) frame in
  let w :=
    match audio_callback (ctx w) with
    | Some k => emit (EvAudioCallback k (audio_callback_data (ctx w))) w
    | None => w
    end in
  let w :=
    if mutex_taken
    then set_ctx (update_circular_buffer (ctx w) frame) w
    else w in
  (w, frame).

(** The task over a sequence of frames, each paired with the outcome of its
    mutex acquisition. *)
Fixpoint voice_processing_run (w : world) (frames : list (voice_frame_t * bool))
  : world :=
  match frames with
  | [] => w
  | (f, m) :: rest => voice_processing_run (fst (voice_processing_step w f m)) rest
  end.

(** The successful path of [voice_init]: every allocation and RTOS object
    creation succeeds. [heap] and [now] are the contents of the memory
    obtained for the recording buffer and the tick time. *)
Definition voice_init (config : option voice_config_t) (alloc_ok : bool)
  (heap : list Z) (now : Z) : option voice_context :=
  match config with
  | None => None
  | Some g =>
      if alloc_ok then
        let capacity := to_size (VOICE_SAMPLE_RATE * 10 * 2) in
        Some
          {| config := g;
             state := VOICE_STATE_IDLE;
             circular_buffer :=
               repeat 0 (Z.to_nat (VOICE_BUFFER_SIZE * VOICE_CHANNELS));
             buffer_write_idx := 0;
             buffer_read_idx := 0;
             recording_buffer := take_pad (Z.to_nat capacity) heap;
             recording_size := 0;
             recording_capacity := capacity;
             is_recording := false;
             recording_start_time := 0;
             max_recording_duration := 0;
             beamform_weights :=
               map (fun _ => F32.div F32.one (F32.of_Z VOICE_CHANNELS))
                 (range VOICE_CHANNELS);
             beamform_delays := map (fun _ => F32.zero) (range VOICE_CHANNELS);
             current_steering_angle := F32.zero;
             last_wake_time := 0;
             wake_sensitivity := WAKE_WORD_SENSITIVITY;
             noise_floor := VAD_ENERGY_THRESHOLD;
             vad_frame_count := 0;
             vad_active := false;
             stats := zero_stats;
             start_time := to_u32 now;
             audio_callback := None;
             audio_callback_data := 0 |}
      else None
  end.

End VoiceCore.

(** ** A reference math library

    The theorems below hold for every [Libm]. To run the code on concrete
    frames a [Libm] is needed: this one computes in fixed point with far
    more bits than binary32 holds and rounds once at the end, so that its
    results are those of an accurate C library up to the last bit. *)

Module RefLibm.

(** [floor (log10 2 * 2^64)] *)
Definition LOG10_2_Q64 : Z := 5553023288523357132.

(** [floor (2 * pi * 2^256)] *)
Definition TWO_PI_Q256 : Z :=
  727543153783532648560469885555459725306786754656784859917544302235877788932370.

(** Binary digits of [log2 y] after the point, by repeated squaring; [y] is
    in [1, 2) with 100 fractional bits. *)
Fixpoint log2_frac (n : nat) (y acc : Z) : Z :=
  match n with
  | O => acc
  | S n' =>
      let y2 := Z.shiftr (y * y) 100 in
      if 2 ^ 101 <=? y2
      then log2_frac n' (Z.shiftr y2 1) (2 * acc + 1)
      else log2_frac n' y2 (2 * acc)
  end.

Definition log10f (x : float32) : float32 :=
  match x with
  | S754_nan => S754_nan
  | S754_zero _ => S754_infinity true
  | S754_infinity s => if s then S754_nan else x
  | S754_finite true _ _ => S754_nan
  | S754_finite false m e =>
      let d := Z.pos (digits2_pos m) in
      let k := e + d - 1 in
      let y := Z.shiftl (Z.pos m) (100 - (d - 1)) in
      let frac := log2_frac 48 y 0 in
      binary_normalize F32.prec F32.emax
        ((k * 2 ^ 48 + frac) * LOG10_2_Q64) (-112) false
  end.

(** Sum of a sine or cosine series with 96 fractional bits: each term is the
    previous one times [- x^2 / ((k+1)(k+2))]. *)
Fixpoint series (n : nat) (k term acc x2 : Z) : Z :=
  match n with
  | O => acc
  | S n' =>
      let term' := - (Z.shiftr (term * x2) 96 / ((k + 1) * (k + 2))) in
      series n' (k + 2) term' (acc + term') x2
  end.

(** The argument reduced to [-pi, pi], with 96 fractional bits. *)
Definition reduce (m : positive) (e : Z) : Z :=
  let r := Z.shiftl (Z.pos m) (e + 256) mod TWO_PI_Q256 in
  let r := if TWO_PI_Q256 <? 2 * r then r - TWO_PI_Q256 else r in
  Z.shiftr r 160.

Definition tiny (m : positive) (e : Z) : bool :=
  e + Z.pos (digits2_pos m) <=? -12.

Definition sinf (x : float32) : float32 :=
  match x with
  | S754_nan | S754_infinity _ => S754_nan
  | S754_zero _ => x
  | S754_finite s m e =>
      if tiny m e then x
      else
        let r := reduce m e in
        let v := series 40 1 r r (Z.shiftr (r * r) 96) in
        binary_normalize F32.prec F32.emax (if s then - v else v) (-96) s
  end.

Definition cosf (x : float32) : float32 :=
  match x with
  | S754_nan | S754_infinity _ => S754_nan
  | S754_zero _ => F32.one
  | S754_finite _ m e =>
      if tiny m e then F32.one
      else
        let r := reduce m e in
        let v := series 40 0 (2 ^ 96) (2 ^ 96) (Z.shiftr (r * r) 96) in
        binary_normalize F32.prec F32.emax v (-96) false
  end.

End RefLibm.

Definition ref_libm : Libm :=
  {| log10f := RefLibm.log10f; cosf := RefLibm.cosf; sinf := RefLibm.sinf |}.

(** ** Quantities the properties are stated with *)

Section Quantities.
Context {libm : Libm} {hdr : VoiceHeader}.

(** Energy in dBFS of channel [ch] of a frame. *)
Definition channel_energy (frame : voice_frame_t) (ch : Z) : float32 :=
  calculate_energy_db (Some (channel_samples frame ch))
    (to_size VOICE_FRAME_SIZE).

(** Number of channels whose energy exceeds the noise floor [nf] by more
    than 6 dB. *)
Definition active_channel_count (nf : float32) (frame : voice_frame_t) : Z :=
  Z.of_nat
    (length
       (filter
          (fun ch => F32.gtb (channel_energy frame ch) (F32.add nf (F32.of_Z 6)))
          (range VOICE_CHANNELS))).

(** Mean of the channel energies, summed in channel order. *)
Definition frame_avg_energy (frame : voice_frame_t) : float32 :=
  F32.div
    (fold_left F32.add (map (channel_energy frame) (range VOICE_CHANNELS))
       F32.zero)
    (F32.of_Z VOICE_CHANNELS).

(** The exponential moving average of the noise-floor tracker. *)
Definition noise_floor_ema (nf avg_energy : float32) : float32 :=
  F32.add (F32.mul f_0_95 nf) (F32.mul (F32.sub F32.one f_0_95) avg_energy).

(** The hysteresis count in the specification's words, with one noise floor
    [nf] for both tests: the active channels are those more than 6 dB above
    [nf], and the count goes up when the average energy is more than 10 dB
    above [nf] and at least [CHANNELS/2] channels are active. To be compared
    with what [detect_voice_activity] computes. *)
Definition spec_vad_frame_count (nf : float32) (c : voice_context)
  (frame : voice_frame_t) : Z :=
  if F32.gtb (frame_avg_energy frame) (F32.add nf (F32.of_Z 10))
     && (Z.quot VOICE_CHANNELS 2 <=? active_channel_count nf frame)
  then to_u32 (vad_frame_count c + 1) else 0.

(** A wake-word detection: the condition under which
    [process_wake_word_detection] fires, for the state machine in IDLE or
    LISTENING. *)
Definition detection_fires (w : world) (frame : voice_frame_t) : bool :=
  frame_vad_active frame && (Z.rem (simulation_counter w + 1) 500 =? 0).

(** The recording sink is open: the state machine is about to record
    ([WAKE_DETECTED] moves to [RECORDING] and sets [is_recording]). *)
Definition recording_open (c : voice_context) : bool :=
  match state c with
  | VOICE_STATE_WAKE_DETECTED => true
  | VOICE_STATE_RECORDING => is_recording c
  | _ => false
  end.

(** The mono frames of a session: for each processed frame that finds the
    sink open and is flagged [vad_active], its mix-down. *)
Fixpoint session_frames (w : world) (frames : list (voice_frame_t * bool))
  : list (list Z) :=
  match frames with
  | [] => []
  | (f, m) :: rest =>
      let r := voice_processing_step w f m in
      (if recording_open (ctx w) && frame_vad_active (snd r)
       then [mono_frame (ctx (fst r)) (snd r)] else [])
        ++ session_frames (fst r) rest
  end.

(** The mix-down in the specification's words,
    [mono[i] = saturate_i16 (sum over ch of weights[ch] * samples[i * CHANNELS + ch])],
    to be compared with [mono_frame]. The sum is taken in binary32, channel
    by channel from 0. *)
Fixpoint spec_weighted_sum (acc : float32) (xs : list Z) (ws : list float32)
  : float32 :=
  match xs, ws with
  | x :: xs', w :: ws' =>
      spec_weighted_sum (F32.add acc (F32.mul (F32.of_Z x) w)) xs' ws'
  | _, _ => acc
  end.

(** Saturation to the range of [int16_t]: a sum below -32768 gives -32768,
    one above 32767 gives 32767, and one in between is truncated toward
    zero. A sum that is not a number gives the lower bound. *)
Definition spec_saturate_i16 (x : float32) : Z :=
  match x with
  | S754_nan => -32768
  | _ =>
      if F32.ltb x (F32.of_Z (-32768)) then -32768
      else if F32.gtb x (F32.of_Z 32767) then 32767
      else F32.trunc x
  end.

Definition spec_mixdown (weights : list float32) (samples : list Z) : list Z :=
  map
    (fun i =>
       spec_saturate_i16
         (spec_weighted_sum F32.zero
            (map (fun ch => znth samples (i * VOICE_CHANNELS + ch) 0)
               (range VOICE_CHANNELS))
            (map (fun ch => znth weights ch F32.zero) (range VOICE_CHANNELS))))
    (range VOICE_FRAME_SIZE).

(** The mono PCM a session is to deliver: for each processed frame that
    finds the sink open and is flagged [vad_active], the specification's
    mix-down of its samples with the weights in force. *)
Fixpoint session_mixdowns (w : world) (frames : list (voice_frame_t * bool))
  : list (list Z) :=
  match frames with
  | [] => []
  | (f, m) :: rest =>
      let r := voice_processing_step w f m in
      (if recording_open (ctx w) && frame_vad_active (snd r)
       then [spec_mixdown (beamform_weights (ctx (fst r))) (samples f)]
       else [])
        ++ session_mixdowns (fst r) rest
  end.

(** Number of re-armings of the wake timer in a trace: one per detection. *)
Definition detection_count (t : list event) : Z :=
  Z.of_nat (length (filter is_timer_reset t)).

(** The context as the task hands it to [detect_voice_activity]: the frame
    counted and the beamformer applied when it is enabled. *)
Definition vad_input (c : voice_context) : voice_context :=
  let c :=
    set_stats
      (set_frames_processed (to_u32 (frames_processed (stats c) + 1))
         (stats c)) c in
  if adaptive_mode (beamform (config c))
     || F32.neb (current_steering_angle c) F32.zero
  then apply_beamforming c else c.

(** What the rest of the iteration keeps of the context it gets from the
    VAD stage. *)
Definition vad_fields_kept (c c' : voice_context) : Prop :=
  noise_floor c' = noise_floor c
  /\ vad_frame_count c' = vad_frame_count c
  /\ vad_active c' = vad_active c
  /\ vad_activations (stats c') = vad_activations (stats c)
  /\ frames_processed (stats c') = frames_processed (stats c)
  /\ config c' = config c
  /\ beamform_weights c' = beamform_weights c
  /\ recording_capacity c' = recording_capacity c
  /\ audio_callback c' = audio_callback c
  /\ audio_callback_data c' = audio_callback_data c.

(** The fields of the session proper, which the VAD stage leaves alone. *)
Definition session_fields_kept (c c' : voice_context) : Prop :=
  state c' = state c
  /\ recording_buffer c' = recording_buffer c
  /\ recording_size c' = recording_size c
  /\ recording_capacity c' = recording_capacity c
  /\ is_recording c' = is_recording c
  /\ recording_start_time c' = recording_start_time c
  /\ max_recording_duration c' = max_recording_duration c
  /\ config c' = config c
  /\ audio_callback c' = audio_callback c
  /\ audio_callback_data c' = audio_callback_data c
  /\ wake_detections (stats c') = wake_detections (stats c).

(** The VAD decision for frame [f], from the context [c] before the frame
    to the context [c'] after it. *)
Definition vad_decided (c : voice_context) (f : voice_frame_t)
  (c' : voice_context) : Prop :=
  let avg := frame_avg_energy f in
  let active := active_channel_count (noise_floor c) f in
  noise_floor c'
  = (if vad_active c then noise_floor c
     else noise_floor_ema (noise_floor c) avg)
  /\ vad_frame_count c'
     = (if F32.gtb avg (F32.add (noise_floor c') (F32.of_Z 10))
           && (Z.quot VOICE_CHANNELS 2 <=? active)
        then to_u32 (vad_frame_count c + 1) else 0)
  /\ vad_active c' = (to_u32 VAD_FRAME_THRESHOLD <=? vad_frame_count c').

(** The end of an iteration: audio callback and circular buffer. *)
Definition finish_step (w : world) (f : voice_frame_t) (m : bool) : world :=
  let w :=
    match audio_callback (ctx w) with
    | Some k => emit (EvAudioCallback k (audio_callback_data (ctx w))) w
    | None => w
    end in
  if m then set_ctx (update_circular_buffer (ctx w) f) w else w.

(** The state machine is looking for a wake word. *)
Definition listening (c : voice_context) : bool :=
  match state c with
  | VOICE_STATE_IDLE | VOICE_STATE_LISTENING => true
  | _ => false
  end.

(** The recording holds the mono frames [done] and nothing else, in a
    buffer of [recording_capacity] bytes. *)
Definition recording_holds (c : voice_context) (done : list (list Z)) : Prop :=
  let bytes := bytes_of_int16s (concat done) in
  (state c = VOICE_STATE_WAKE_DETECTED /\ done = []
   \/ state c = VOICE_STATE_RECORDING
   \/ state c = VOICE_STATE_PROCESSING)
  /\ recording_size c = Z.of_nat (length bytes)
  /\ firstn (length bytes) (recording_buffer c) = bytes
  /\ length (recording_buffer c) = Z.to_nat (recording_capacity c).

(** The events of one call of [process_wake_word_detection] that fires. *)
Definition detection_events (c : voice_context) : list event :=
  EvTimerReset
    :: match
         first_callback (wake_words (config c))
           (range (num_wake_words (config c)))
       with
       | Some k => [EvWakeCallback k]
       | None => []
       end.

End Quantities.

(** ** Concrete data *)

(** Modelled from the spec: the values the spec gives as typical (16 kHz,
    4 channels, 480-sample frames, 3-frame hysteresis, -40 dBFS initial
    floor, one second of circular buffer). *)
Definition typical_header : VoiceHeader :=
  {| VOICE_SAMPLE_RATE := 16000;
     VOICE_CHANNELS := 4;
     VOICE_FRAME_SIZE := 480;
     VOICE_BUFFER_SIZE := 16000;
     MAX_WAKE_WORDS := 4;
     VAD_FRAME_THRESHOLD := 3;
     VAD_ENERGY_THRESHOLD := F32.of_Z (-40);
     WAKE_WORD_SENSITIVITY := F32.div (F32.of_Z 1) (F32.of_Z 2) |}.

(** The same values with a circular buffer of 32 whole frames. *)
Definition aligned_header : VoiceHeader :=
  {| VOICE_SAMPLE_RATE := 16000;
     VOICE_CHANNELS := 4;
     VOICE_FRAME_SIZE := 480;
     VOICE_BUFFER_SIZE := 15360;
     MAX_WAKE_WORDS := 4;
     VAD_FRAME_THRESHOLD := 3;
     VAD_ENERGY_THRESHOLD := F32.of_Z (-40);
     WAKE_WORD_SENSITIVITY := F32.div (F32.of_Z 1) (F32.of_Z 2) |}.

Module Example.

(** Four microphones on the x axis, no wake word registered. *)
Definition cfg : voice_config_t :=
  {| beamform :=
       {| adaptive_mode := false;
          mic_positions :=
            map (fun k => [F32.div (F32.of_Z k) (F32.of_Z 100); F32.zero; F32.zero])
              [0; 3; 6; 9] |};
     wake_words := repeat no_wake_word 4;
     num_wake_words := 0 |}.

(** The context [voice_init] returns for [cfg]. *)
Definition ctx0 : voice_context :=
  match voice_init (hdr := typical_header) (Some cfg) true [] 0 with
  | Some c => c
  | None =>
      mk_voice_context cfg VOICE_STATE_ERROR [] 0 0 [] 0 0 false 0 0 [] []
        F32.zero 0 F32.zero F32.zero 0 false zero_stats 0 None 0
  end.

Definition world0 : world := mk_world ctx0 0 [].

(** A frame with every sample at half scale (about -6 dBFS) and a frame of
    silence, captured at [ts] ms. *)
Definition loud (ts : Z) : voice_frame_t :=
  mk_voice_frame (repeat 16384 1920) ts (repeat F32.zero 4) false.

Definition silent (ts : Z) : voice_frame_t :=
  mk_voice_frame (repeat 0 1920) ts (repeat F32.zero 4) false.

(** A frame about 10.3 dB above the initial noise floor on every channel,
    and a frame with one channel at full scale and the others about 6.1 dB
    above the initial noise floor. *)
Definition faint (ts : Z) : voice_frame_t :=
  mk_voice_frame (repeat 1073 1920) ts (repeat F32.zero 4) false.

Definition lopsided (ts : Z) : voice_frame_t :=
  mk_voice_frame (concat (repeat [-32768; 662; 662; 662] 480)) ts
    (repeat F32.zero 4) false.

Definition step (w : world) (f : voice_frame_t) : world * voice_frame_t :=
  voice_processing_step (libm := ref_libm) (hdr := typical_header) w f true.

Definition run (w : world) (fs : list voice_frame_t) : world :=
  voice_processing_run (libm := ref_libm) (hdr := typical_header) w
    (map (fun f => (f, true)) fs).


(** [ctx0] after [start_recording(5000)] at time 0. *)
Definition ctx_recording : voice_context :=
  after_call ctx0 (voice_start_recording (Some ctx0) 5000 0).

(** ... and after [stop_recording()], nothing having been recorded. *)
Definition ctx_stopped : voice_context :=
  after_call ctx_recording (voice_stop_recording (Some ctx_recording)).

(** [ctx0] after three loud frames: the VAD is active. *)
Definition ctx_active : voice_context :=
  ctx (run world0 [loud 0; loud 30; loud 60]).

(** The task about to process its 500th frame, the one on which the demo
    trigger of [process_wake_word_detection] fires. *)
Definition world_499 : world := mk_world ctx_active 499 [].

(** A registry entry with the given callback. *)
Definition wake_word (cb : option nat) : wake_word_model_t :=
  mk_wake_word_model String.EmptyString (F32.div (F32.of_Z 1) (F32.of_Z 2)) cb.

(** [ctx_active] with two wake words registered, the second one with
    callback 7. *)
Definition ctx_wake : voice_context :=
  let c :=
    after_call ctx_active
      (voice_register_wake_word (hdr := typical_header) (Some ctx_active)
         (Some (wake_word None))) in
  after_call c
    (voice_register_wake_word (hdr := typical_header) (Some c)
       (Some (wake_word (Some 7%nat)))).

Definition world_wake : world := mk_world ctx_wake 499 [].

(** A session: [start_recording(5000)] on [ctx0], then four loud frames. *)
Definition session_world : world := mk_world ctx_recording 0 [].

Definition session_input : list (voice_frame_t * bool) :=
  map (fun f => (f, true)) [loud 0; loud 30; loud 60; loud 90].

(** The world after [voice_init] under [aligned_header]. *)
Definition world0_aligned : world :=
  match voice_init (hdr := aligned_header) (Some cfg) true [] 0 with
  | Some c => mk_world c 0 []
  | None => world0
  end.

(** The session after three loud frames: the VAD has turned active on the
    third one, which is recorded. *)
Definition world_recorded : world :=
  run session_world [loud 0; loud 30; loud 60].

(** The same session with room for less than one more frame in its
    buffer. *)
Definition world_full : world :=
  set_ctx (set_recording_size 319500 (ctx world_recorded)) world_recorded.

(** [ctx0] with one wake word registered, with callback 3; and with a full
    registry. *)
Definition register (c : voice_context) (m : wake_word_model_t)
  : voice_context :=
  after_call c (voice_register_wake_word (hdr := typical_header) (Some c) (Some m)).

Definition ctx_one_word : voice_context :=
  register ctx0 (wake_word (Some 3%nat)).

Definition ctx_full_registry : voice_context :=
  register (register (register ctx_one_word (wake_word None)) (wake_word None))
    (wake_word (Some 5%nat)).

End Example.

(** ** The frame queue and the system as a whole *)

(** Length of the frame queue [voice_init] creates with
    [xQueueCreate(10, sizeof(voice_frame_t))]. *)
Definition FRAME_QUEUE_LENGTH : Z := 10.

(** [voice_process_frame]; [queue] is the content of [ctx->frame_queue],
    oldest frame first. [xQueueSend] with a zero wait copies the frame to the
    back of the queue, or fails when the queue is full. *)
Definition voice_process_frame (p : option voice_context)
  (frame : option voice_frame_t) (queue : list voice_frame_t)
  : voice_error_t * option voice_context * list voice_frame_t :=
  match p, frame with
  | Some c, Some f =>
      if Z.of_nat (length queue) <? FRAME_QUEUE_LENGTH
      then (VOICE_OK, Some c, queue ++ [f])
      else
        (VOICE_ERR_BUFFER_OVERFLOW,
         Some
           (set_stats
              (set_buffer_overruns (to_u32 (buffer_overruns (stats c) + 1))
                 (stats c)) c),
         queue)
  | _, _ => (VOICE_ERR_INVALID_PARAM, p, queue)
  end.

(** The context, the task's world and the frame queue. *)
Record system : Type := mk_system {
  sys_world : world;
  sys_queue : list voice_frame_t
}.

(** What can happen to an initialised system: a call of the public API
    with a valid context, an iteration of the processing task, or the expiry
    of the wake timeout timer. *)
Inductive call : Type :=
| CallProcessFrame (frame : voice_frame_t)
| CallStartRecording (max_duration_ms now : Z)
| CallStopRecording
| CallGetRecording (buffer : list Z) (buffer_size : Z)
| CallSetBeamDirection (angle_degrees : float32)
| CallSetAdaptiveBeam (enable : bool)
| CallRegisterWakeWord (model : wake_word_model_t)
| CallSetSensitivity (sensitivity : float32)
| CallReset
| CallSetNoiseSuppression (level : float32)
| CallCalibrateNoise (duration_ms : Z)
| CallRegisterAudioCallback (callback : option nat) (user_data : Z)
| TaskIteration (mutex_taken : bool)
| TimerExpiry.

Definition with_ctx (c : voice_context) (s : system) : system :=
  mk_system (set_ctx c (sys_world s)) (sys_queue s).

(** The context with the overrun counter put aside: two contexts that agree
    on it differ in nothing but the number of dropped frames. *)
Definition forget_overruns (c : voice_context) : voice_context :=
  set_stats (set_buffer_overruns 0 (stats c)) c.

Section System.
Context {libm : Libm} {hdr : VoiceHeader}.

(** One iteration of the task on the system: it blocks on an empty queue,
    and otherwise processes the oldest frame. *)
Definition task_iteration (s : system) (mutex_taken : bool) : system :=
  match sys_queue s with
  | [] => s
  | f :: q =>
      mk_system (fst (voice_processing_step (sys_world s) f mutex_taken)) q
  end.

Definition exec (s : system) (k : call) : system :=
  let c := ctx (sys_world s) in
  match k with
  | CallProcessFrame f =>
      let '(_, p, q) := voice_process_frame (Some c) (Some f) (sys_queue s) in
      mk_system
        (set_ctx (match p with Some c' => c' | None => c end) (sys_world s)) q
  | CallStartRecording d now =>
      with_ctx (after_call c (voice_start_recording (Some c) d now)) s
  | CallStopRecording =>
      with_ctx (after_call c (voice_stop_recording (Some c))) s
  | CallGetRecording buf n =>
      match gr_ctx (voice_get_recording (Some c) (Some buf) n (Some 0)) with
      | Some c' => with_ctx c' s
      | None => s
      end
  | CallSetBeamDirection a =>
      with_ctx (after_call c (voice_set_beam_direction (Some c) a)) s
  | CallSetAdaptiveBeam b =>
      with_ctx (after_call c (voice_set_adaptive_beam (Some c) b)) s
  | CallRegisterWakeWord m =>
      with_ctx (after_call c (voice_register_wake_word (Some c) (Some m))) s
  | CallSetSensitivity x =>
      with_ctx (after_call c (voice_set_sensitivity (Some c) x)) s
  | CallReset => with_ctx (after_call c (voice_reset (Some c))) s
  | CallSetNoiseSuppression x =>
      with_ctx (after_call c (voice_set_noise_suppression (Some c) x)) s
  | CallCalibrateNoise d =>
      with_ctx (after_call c (voice_calibrate_noise (Some c) d)) s
  | CallRegisterAudioCallback cb data =>
      with_ctx (after_call c (voice_register_audio_callback (Some c) cb data)) s
  | TaskIteration m => task_iteration s m
  | TimerExpiry => with_ctx (voice_timeout_callback c) s
  end.

Definition exec_all (s : system) (ks : list call) : system :=
  fold_left exec ks s.

(** The system right after a successful [voice_init]. *)
Definition init_system (g : voice_config_t) (heap : list Z) (now : Z)
  : option system :=
  match voice_init (Some g) true heap now with
  | Some c => Some (mk_system (mk_world c 0 []) [])
  | None => None
  end.

(** The per-channel weight both [voice_init] and [apply_beamforming]
    assign. *)
Definition uniform_weight : float32 :=
  F32.div F32.one (F32.of_Z VOICE_CHANNELS).

(** The beamformer weights are uniform over the channels. *)
Definition uniform_weights (c : voice_context) : Prop :=
  beamform_weights c = map (fun _ => uniform_weight) (range VOICE_CHANNELS).

(** The uniform mix-down of sample [i] of a frame. *)
Definition uniform_mix (frame : voice_frame_t) (i : Z) : Z :=
  let sum :=
    fold_left
      (fun sum ch =>
         F32.add sum
           (F32.mul (F32.of_Z (znth (samples frame) (i * VOICE_CHANNELS + ch) 0))
              uniform_weight))
      (range VOICE_CHANNELS) F32.zero in
  F32.trunc
    (F32.fminf (F32.fmaxf sum (F32.of_Z (-32768))) (F32.of_Z 32767)).

(** The two halves of the recording branch: the append of a voiced frame
    that fits, and the timeout check. *)
Definition record_append (c : voice_context) (frame : voice_frame_t)
  : voice_context :=
  if frame_vad_active frame && is_recording c then
    let frame_bytes := to_size (VOICE_FRAME_SIZE * 2) in
    if to_size (recording_size c + frame_bytes) <=? recording_capacity c
    then
      let c :=
        set_recording_buffer
          (memcpy_at (recording_buffer c) (recording_size c)
             (bytes_of_int16s (mono_frame c frame)) frame_bytes) c in
      set_recording_size (to_size (recording_size c + frame_bytes)) c
    else c
  else c.

Definition record_timeout (c : voice_context) (frame : voice_frame_t)
  : voice_context :=
  if max_recording_duration c
       <? to_u32 (timestamp_ms frame - recording_start_time c)
  then after_call c (voice_stop_recording (Some c))
  else c.

(** The recording lies within its buffer, which has the capacity the
    context records. *)
Definition recording_well_formed (c : voice_context) : Prop :=
  0 <= recording_size c <= recording_capacity c
  /\ Z.of_nat (length (recording_buffer c)) = recording_capacity c.

End System.

(** * Properties *)

(** ** Arrays and machine integers *)

Lemma range_from_length (n : nat) (s : Z) : length (range_from s n) = n.
Proof. revert s; induction n as [|n IH]; intros s; simpl; [reflexivity|]. now rewrite IH. Qed.

Lemma range_length (n : Z) : length (range n) = Z.to_nat n.
Proof. apply range_from_length. Qed.

Lemma range_from_In (n : nat) (s i : Z) :
  In i (range_from s n) <-> s <= i < s + Z.of_nat n.
Proof.
  revert s; induction n as [|n IH]; intros s; simpl.
  - lia.
  - rewrite IH. lia.
Qed.

Lemma range_In (n i : Z) : In i (range n) <-> 0 <= i < n.
Proof. unfold range. rewrite range_from_In. lia. Qed.

Lemma to_size_small (z : Z) : 0 <= z < 2 ^ 32 -> to_size z = z.
Proof. intros H. unfold to_size. now apply Z.mod_small. Qed.

Lemma to_u32_small (z : Z) : 0 <= z < 2 ^ 32 -> to_u32 z = z.
Proof. intros H. unfold to_u32. now apply Z.mod_small. Qed.

Lemma to_u32_range (z : Z) : 0 <= to_u32 z < 2 ^ 32.
Proof. unfold to_u32. apply Z.mod_pos_bound. lia. Qed.

Lemma int16_bytes_length (z : Z) : length (int16_bytes z) = 2%nat.
Proof. reflexivity. Qed.

Lemma bytes_of_int16s_length (l : list Z) :
  length (bytes_of_int16s l) = (2 * length l)%nat.
Proof.
  unfold bytes_of_int16s. induction l as [|z l IH]; simpl; [reflexivity|].
  rewrite IH. lia.
Qed.

Lemma bytes_of_int16s_app (l1 l2 : list Z) :
  bytes_of_int16s (l1 ++ l2) = bytes_of_int16s l1 ++ bytes_of_int16s l2.
Proof. unfold bytes_of_int16s. apply flat_map_app. Qed.

(** ** The session API *)

(** C10. [voice_get_state] is total: with a null context it answers
    [VOICE_STATE_ERROR], with a valid one the current state. It takes the
    context by pointer to const and, as a function of the context alone,
    has no context to give back: nothing is modified. *)
Theorem voice_get_state_total :
  voice_get_state None = VOICE_STATE_ERROR
  /\ forall c : voice_context, voice_get_state (Some c) = state c.
Proof. split; [reflexivity | intros c; reflexivity]. Qed.

(** C9. [voice_reset], in any state, leaves IDLE, an empty recording, no
    recording in progress, the VAD hysteresis cleared and every statistic
    zero except [noise_floor_db], which holds the current noise floor; the
    noise floor itself is kept, and a second reset changes nothing more. *)
Theorem voice_reset_spec (c : voice_context) :
  exists c' : voice_context,
    voice_reset (Some c) = (VOICE_OK, Some c')
    /\ state c' = VOICE_STATE_IDLE
    /\ recording_size c' = 0
    /\ is_recording c' = false
    /\ vad_frame_count c' = 0
    /\ vad_active c' = false
    /\ stats c' = mk_voice_stats 0 0 0 0 F32.zero (noise_floor c) F32.zero
    /\ noise_floor c' = noise_floor c
    /\ voice_reset (Some c') = voice_reset (Some c).
Proof.
  destruct c. eexists. split; [reflexivity|].
  cbv. repeat split; reflexivity.
Qed.

(** C4, as the claim states it, fails: in a state other than IDLE and
    WAKE_DETECTED the error is [VOICE_ERR_INVALID_PARAM], here for a
    context that is RECORDING. *)
Lemma voice_start_recording_not_invalid_state :
  state Example.ctx_recording = VOICE_STATE_RECORDING
  /\ fst (voice_start_recording (Some Example.ctx_recording) 5000 100)
     <> VOICE_ERR_INVALID_STATE.
Proof. vm_compute. split; [reflexivity | discriminate]. Qed.

(** C4, amended. [voice_start_recording] succeeds exactly in IDLE and
    WAKE_DETECTED, and then leaves RECORDING with an empty recording,
    [is_recording] set and the given maximum duration; in every other state
    it returns [VOICE_ERR_INVALID_PARAM] and the context is unchanged. *)
Theorem voice_start_recording_spec (c : voice_context) (max_duration_ms now : Z) :
  match state c with
  | VOICE_STATE_IDLE | VOICE_STATE_WAKE_DETECTED =>
      exists c' : voice_context,
        voice_start_recording (Some c) max_duration_ms now = (VOICE_OK, Some c')
        /\ state c' = VOICE_STATE_RECORDING
        /\ recording_size c' = 0
        /\ is_recording c' = true
        /\ max_recording_duration c' = max_duration_ms
  | _ =>
      voice_start_recording (Some c) max_duration_ms now
      = (VOICE_ERR_INVALID_PARAM, Some c)
  end.
Proof.
  unfold voice_start_recording.
  destruct (state c) eqn:E; simpl; try reflexivity;
    (eexists; split; [reflexivity|]; repeat split; reflexivity).
Qed.

(** C3. With an empty recording [voice_get_recording] returns before the
    transition to IDLE: a context stopped with nothing recorded stays in
    PROCESSING, while the claim has every valid call end in IDLE. *)
Theorem voice_get_recording_empty_keeps_state :
  state Example.ctx_stopped = VOICE_STATE_PROCESSING
  /\ recording_size Example.ctx_stopped = 0
  /\ (let r :=
        voice_get_recording (Some Example.ctx_stopped) (Some (repeat 0 16%nat))
          16 (Some 7) in
      gr_error r = VOICE_OK
      /\ gr_bytes_written r = Some 0
      /\ option_map state (gr_ctx r) = Some VOICE_STATE_PROCESSING).
Proof. vm_compute. repeat split; reflexivity. Qed.


(** ** Voice activity detection *)

Section VadProofs.
Context {libm : Libm} {hdr : VoiceHeader}.

Lemma channel_energy_set_energy_db (e : list float32) (f : voice_frame_t) (ch : Z) :
  channel_energy (set_energy_db e f) ch = channel_energy f ch.
Proof. reflexivity. Qed.

(** The channel loop computes the sum of the channel energies and the
    number of active channels, and touches [energy_db] only. *)
Lemma vad_loop_spec (c : voice_context) (f : voice_frame_t) (l : list Z) :
  forall (t : float32) (a : Z) (e : list float32),
  exists e' : list float32,
    fold_left (vad_channel c) l (t, a, set_energy_db e f)
    = (fold_left F32.add (map (channel_energy f) l) t,
       a + Z.of_nat
             (length
                (filter
                   (fun ch =>
                      F32.gtb (channel_energy f ch)
                        (F32.add (noise_floor c) (F32.of_Z 6))) l)),
       set_energy_db e' f).
Proof.
  induction l as [|ch l IH]; intros t a e.
  - exists e. simpl. now rewrite Z.add_0_r.
  - cbn [fold_left map filter].
    unfold vad_channel at 2.
    change (calculate_energy_db (Some (channel_samples (set_energy_db e f) ch))
              (to_size VOICE_FRAME_SIZE)) with (channel_energy f ch).
    change (set_energy_db
              (zupd (energy_db (set_energy_db e f)) ch (channel_energy f ch))
              (set_energy_db e f))
      with (set_energy_db (zupd e ch (channel_energy f ch)) f).
    destruct (IH (F32.add t (channel_energy f ch))
                (if F32.gtb (channel_energy f ch)
                      (F32.add (noise_floor c) (F32.of_Z 6))
                 then a + 1 else a)
                (zupd e ch (channel_energy f ch))) as [e' He'].
    exists e'. rewrite He'.
    destruct (F32.gtb (channel_energy f ch)
                (F32.add (noise_floor c) (F32.of_Z 6))); cbn [length];
      [|reflexivity].
    rewrite Nat2Z.inj_succ. do 2 f_equal. lia.
Qed.

Lemma set_energy_db_eta (f : voice_frame_t) : set_energy_db (energy_db f) f = f.
Proof. now destruct f. Qed.

(** [detect_voice_activity] in closed form. *)
Lemma detect_voice_activity_spec (c : voice_context) (f : voice_frame_t) :
  let avg := frame_avg_energy f in
  let active := active_channel_count (noise_floor c) f in
  let c1 := set_stats (set_avg_energy_db avg (stats c)) c in
  let c2 := if negb (vad_active c) then update_noise_floor c1 avg else c1 in
  let n :=
    if F32.gtb avg (F32.add (noise_floor c2) (F32.of_Z 10))
       && (Z.quot VOICE_CHANNELS 2 <=? active)
    then to_u32 (vad_frame_count c + 1) else 0 in
  let b := to_u32 VAD_FRAME_THRESHOLD <=? n in
  exists e' : list float32,
    detect_voice_activity c f
    = (b, set_vad_active b (set_vad_frame_count n c2), set_energy_db e' f).
Proof.
  intros avg active c1 c2 n b.
  unfold detect_voice_activity.
  destruct (vad_loop_spec c f (range VOICE_CHANNELS) F32.zero 0 (energy_db f))
    as [e' He'].
  rewrite set_energy_db_eta in He'. rewrite He'.
  exists e'. cbn zeta.
  fold (frame_avg_energy f). fold avg.
  rewrite Z.add_0_l. fold (active_channel_count (noise_floor c) f). fold active.
  fold c1.
  change (vad_active c1) with (vad_active c). fold c2.
  assert (Hcnt : vad_frame_count c2 = vad_frame_count c).
  { unfold c2. destruct (negb (vad_active c)); reflexivity. }
  rewrite Hcnt. fold n.
  destruct (F32.gtb avg (F32.add (noise_floor c2) (F32.of_Z 10))
            && (Z.quot VOICE_CHANNELS 2 <=? active)); reflexivity.
Qed.

End VadProofs.

(** ** One iteration of the processing task *)

Section StepProofs.
Context {libm : Libm} {hdr : VoiceHeader}.

Ltac split_matches :=
  repeat match goal with
         | |- context [if ?b then _ else _] => destruct b eqn:?
         | |- context [match ?x with _ => _ end] => destruct x eqn:?
         end.

Lemma voice_context_eta (c : voice_context) :
  set_beamform_weights (beamform_weights c)
    (set_beamform_delays (beamform_delays c) c) = c.
Proof. now destruct c. Qed.

(** The beamformer writes the weights and the delays and nothing else. *)
Lemma beamform_loop_shape (sr : float32) (l : list Z) :
  forall c W D,
  exists W' D',
    fold_left (beamform_channel sr) l
      (set_beamform_weights W (set_beamform_delays D c))
    = set_beamform_weights W' (set_beamform_delays D' c).
Proof.
  induction l as [|ch l IH]; intros c W D.
  - now exists W, D.
  - cbn [fold_left]. unfold beamform_channel at 2.
    match goal with
    | |- context [fold_left _ l ?x] =>
        match x with
        | set_beamform_weights ?W1 (set_beamform_delays ?D1 _) =>
            change x with
              (set_beamform_weights W1 (set_beamform_delays
                 (zupd D ch
                    (F32.div
                       (F32.mul
                          (F32.add
                             (F32.mul
                                (znth (znth (mic_positions (beamform (config c))) ch []) 0 F32.zero)
                                (cosf sr))
                             (F32.mul
                                (znth (znth (mic_positions (beamform (config c))) ch []) 1 F32.zero)
                                (sinf sr)))
                          (F32.of_Z VOICE_SAMPLE_RATE))
                       (F32.of_Z 343))) c))
        end
    end.
    apply IH.
Qed.

Lemma apply_beamforming_shape (c : voice_context) :
  exists W D,
    apply_beamforming c = set_beamform_weights W (set_beamform_delays D c).
Proof.
  unfold apply_beamforming.
  match goal with
  | |- context [fold_left (beamform_channel ?sr) ?l c] =>
      destruct (beamform_loop_shape sr l c (beamform_weights c)
                  (beamform_delays c)) as [W [D H]]
  end.
  rewrite voice_context_eta in H. now exists W, D.
Qed.

Lemma vad_input_shape (c : voice_context) :
  exists W D,
    vad_input c
    = set_beamform_weights W
        (set_beamform_delays D
           (set_stats
              (set_frames_processed (to_u32 (frames_processed (stats c) + 1))
                 (stats c)) c)).
Proof.
  unfold vad_input. cbv zeta.
  match goal with |- context [if ?b then _ else _] => destruct b end.
  - apply apply_beamforming_shape.
  - eexists; eexists. symmetry. apply voice_context_eta.
Qed.

Lemma state_machine_keeps (w : world) (f : voice_frame_t) :
  vad_fields_kept (ctx w) (ctx (state_machine w f)).
Proof.
  unfold vad_fields_kept, state_machine, process_wake_word_detection,
    record_frame, after_call, voice_stop_recording.
  cbn [snd fst]. destruct w as [c n tr]. destruct c. cbn.
  split_matches; cbn; repeat split; reflexivity.
Qed.

Lemma finish_step_keeps (w : world) (f : voice_frame_t) (m : bool) :
  vad_fields_kept (ctx w) (ctx (finish_step w f m))
  /\ session_fields_kept (ctx w) (ctx (finish_step w f m)).
Proof.
  unfold finish_step, vad_fields_kept, session_fields_kept.
  destruct m; destruct (audio_callback (ctx w)) eqn:E; cbn; rewrite ?E;
    repeat split; reflexivity.
Qed.

Lemma detect_voice_activity_facts (c : voice_context) (f : voice_frame_t) :
  let r := detect_voice_activity c f in
  let c' := snd (fst r) in
  vad_decided c f c'
  /\ fst (fst r) = vad_active c'
  /\ session_fields_kept c c'
  /\ beamform_weights c' = beamform_weights c
  /\ vad_activations (stats c') = vad_activations (stats c)
  /\ frames_processed (stats c') = frames_processed (stats c)
  /\ samples (snd r) = samples f
  /\ timestamp_ms (snd r) = timestamp_ms f.
Proof.
  destruct (detect_voice_activity_spec c f) as [e' H].
  cbv zeta in H. cbv zeta. rewrite H. clear H. cbn [fst snd].
  unfold vad_decided, session_fields_kept, noise_floor_ema, update_noise_floor.
  destruct (vad_active c); cbn; repeat split; reflexivity.
Qed.

(** An iteration in three stages: the VAD stage produces the context [cA]
    and the annotated frame [fA]; the state machine and the end of the
    iteration follow. *)
Lemma voice_processing_step_stages (w : world) (f : voice_frame_t) (m : bool) :
  exists (cA : voice_context) (fA : voice_frame_t),
    voice_processing_step w f m
    = (finish_step (state_machine (set_ctx cA w) fA) fA m, fA)
    /\ vad_decided (ctx w) f cA
    /\ frame_vad_active fA = vad_active cA
    /\ session_fields_kept (ctx w) cA
    /\ beamform_weights cA = beamform_weights (vad_input (ctx w))
    /\ vad_activations (stats cA)
       = (if vad_active cA
          then to_u32 (vad_activations (stats (ctx w)) + 1)
          else vad_activations (stats (ctx w)))
    /\ frames_processed (stats cA)
       = to_u32 (frames_processed (stats (ctx w)) + 1)
    /\ samples fA = samples f
    /\ timestamp_ms fA = timestamp_ms f.
Proof.
  unfold voice_processing_step. fold (vad_input (ctx w)).
  pose proof (detect_voice_activity_facts (vad_input (ctx w)) f) as H.
  cbv zeta in H.
  destruct (detect_voice_activity (vad_input (ctx w)) f) as [[b cD] fD].
  cbn [fst snd] in H.
  destruct H as (Hvad & Hb & Hses & Hw & Hact & Hfp & Hsam & Hts).
  destruct (vad_input_shape (ctx w)) as [W [D Hin]].
  unfold vad_decided, session_fields_kept in *.
  rewrite Hin in Hvad, Hses, Hact, Hfp. cbn in Hvad, Hses, Hact, Hfp.
  eexists. exists (set_frame_vad_active b fD).
  split; [reflexivity|].
  subst b. destruct (vad_active cD) eqn:Eb; cbn; rewrite ?Eb;
    repeat split; try tauto; try assumption; congruence.
Qed.

Lemma vad_fields_kept_trans (a b c : voice_context) :
  vad_fields_kept a b -> vad_fields_kept b c -> vad_fields_kept a c.
Proof.
  unfold vad_fields_kept.
  intros (H1 & H2 & H3 & H4 & H5 & H6 & H7 & H8 & H9 & H10)
         (K1 & K2 & K3 & K4 & K5 & K6 & K7 & K8 & K9 & K10).
  repeat split; congruence.
Qed.

(** The VAD stage of an iteration decides the VAD fields of its result. *)
Lemma voice_processing_step_vad (w : world) (f : voice_frame_t) (m : bool) :
  let r := voice_processing_step w f m in
  vad_decided (ctx w) f (ctx (fst r))
  /\ frame_vad_active (snd r) = vad_active (ctx (fst r))
  /\ vad_activations (stats (ctx (fst r)))
     = (if vad_active (ctx (fst r))
        then to_u32 (vad_activations (stats (ctx w)) + 1)
        else vad_activations (stats (ctx w)))
  /\ frames_processed (stats (ctx (fst r)))
     = to_u32 (frames_processed (stats (ctx w)) + 1).
Proof.
  destruct (voice_processing_step_stages w f m)
    as (cA & fA & Hstep & Hvad & Hflag & _ & _ & Hact & Hfp & _).
  cbv zeta. rewrite Hstep. cbn [fst snd].
  assert (K : vad_fields_kept cA
                (ctx (finish_step (state_machine (set_ctx cA w) fA) fA m))).
  { eapply vad_fields_kept_trans;
      [exact (state_machine_keeps (set_ctx cA w) fA)
      | apply finish_step_keeps]. }
  destruct K as (K1 & K2 & K3 & K4 & K5 & _).
  unfold vad_decided in *. rewrite K1, K2, K3, K4, K5.
  repeat split; tauto.
Qed.

(** C1, amended. For every frame the processing task handles, the decision
    reads the noise floor at two moments. The active channels are those
    whose energy exceeds the noise floor as it is when the frame arrives by
    more than 6 dB; [vad_frame_count] goes up by one (modulo 2^32) when the
    average energy exceeds the noise floor as it is after this frame's
    update by more than 10 dB and at least [CHANNELS/2] channels are
    active, and is reset to 0 otherwise; and the frame's [vad_active] flag,
    like the context's, is true exactly when the resulting count has
    reached [VAD_FRAME_THRESHOLD]. *)
Theorem vad_decision_per_frame (w : world) (f : voice_frame_t) (m : bool) :
  let c := ctx w in
  let r := voice_processing_step w f m in
  let c' := ctx (fst r) in
  let avg_energy := frame_avg_energy f in
  let active_channels := active_channel_count (noise_floor c) f in
  vad_frame_count c'
  = (if F32.gtb avg_energy (F32.add (noise_floor c') (F32.of_Z 10))
        && (Z.quot VOICE_CHANNELS 2 <=? active_channels)
     then to_u32 (vad_frame_count c + 1) else 0)
  /\ vad_active c' = (to_u32 VAD_FRAME_THRESHOLD <=? vad_frame_count c')
  /\ frame_vad_active (snd r) = vad_active c'.
Proof.
  destruct (voice_processing_step_vad w f m) as ((_ & H1 & H2) & H3 & _).
  cbv zeta. auto.
Qed.

Lemma exec_noise_floor_kept (s : system) (k : call) :
  match k with
  | TaskIteration _ | CallCalibrateNoise _ => True
  | _ =>
      noise_floor (ctx (sys_world (exec s k)))
      = noise_floor (ctx (sys_world s))
  end.
Proof.
  destruct s as [w q].
  destruct k; cbn [exec sys_world sys_queue with_ctx set_ctx ctx];
    try exact I.
  - unfold voice_process_frame.
    destruct (_ <? _); cbn [sys_world ctx set_ctx]; [reflexivity|].
    now destruct (ctx w).
  - unfold after_call, voice_start_recording.
    destruct (ctx w); cbn.
    repeat match goal with
           | |- context [if ?b then _ else _] => destruct b
           end; reflexivity.
  - unfold after_call, voice_stop_recording. now destruct (ctx w).
  - unfold voice_get_recording.
    destruct (recording_size (ctx w) =? 0);
      cbn [gr_ctx with_ctx sys_world set_ctx ctx]; [reflexivity|].
    now destruct (ctx w).
  - unfold after_call, voice_set_beam_direction.
    destruct (ctx w); cbn.
    repeat match goal with
           | |- context [if ?b then _ else _] => destruct b
           end; reflexivity.
  - unfold after_call, voice_set_adaptive_beam. now destruct (ctx w).
  - unfold after_call, voice_register_wake_word.
    destruct (ctx w); cbn.
    repeat match goal with
           | |- context [if ?b then _ else _] => destruct b
           end; reflexivity.
  - unfold after_call, voice_set_sensitivity.
    destruct (ctx w); cbn.
    repeat match goal with
           | |- context [if ?b then _ else _] => destruct b
           end; reflexivity.
  - unfold after_call, voice_reset. now destruct (ctx w).
  - unfold after_call, voice_set_noise_suppression.
    destruct (ctx w); cbn.
    repeat match goal with
           | |- context [if ?b then _ else _] => destruct b
           end; reflexivity.
  - unfold after_call, voice_register_audio_callback. now destruct (ctx w).
  - unfold voice_timeout_callback.
    destruct (voice_state_eqb _ _); [now destruct (ctx w) | reflexivity].
Qed.

(** C2, amended. A processed frame updates the noise floor exactly when
    [vad_active] is false as the frame arrives, that is, as the previous
    frame left it, and the update is the moving average
    [0.95 * floor + (1 - 0.95) * avg_energy]; a frame that arrives with
    [vad_active] true leaves the noise floor as it is. Besides the task,
    [voice_calibrate_noise] writes the noise floor, whatever [vad_active]
    is: it puts it back to [VAD_ENERGY_THRESHOLD] when the duration is at
    least 100 ms. No other call, nor the wake timer, changes it. *)
Theorem noise_floor_updated_when_inactive (w : world) (f : voice_frame_t)
  (m : bool) (duration_ms : Z) (s : system) (k : call) :
  noise_floor (ctx (fst (voice_processing_step w f m)))
  = (if vad_active (ctx w) then noise_floor (ctx w)
     else
       F32.add (F32.mul f_0_95 (noise_floor (ctx w)))
         (F32.mul (F32.sub F32.one f_0_95) (frame_avg_energy f)))
  /\ noise_floor
       (after_call (ctx w) (voice_calibrate_noise (Some (ctx w)) duration_ms))
     = (if duration_ms <? 100 then noise_floor (ctx w)
        else VAD_ENERGY_THRESHOLD)
  /\ match k with
     | TaskIteration _ | CallCalibrateNoise _ => True
     | _ =>
         noise_floor (ctx (sys_world (exec s k)))
         = noise_floor (ctx (sys_world s))
     end.
Proof.
  destruct (voice_processing_step_vad w f m) as ((H & _) & _).
  split; [exact H|]. split; [|exact (exec_noise_floor_kept s k)].
  unfold after_call, voice_calibrate_noise.
  destruct (duration_ms <? 100); [reflexivity | now destruct (ctx w)].
Qed.

(** C7, amended. [stats.vad_activations] goes up by one (modulo 2^32) on
    every processed frame whose VAD decision is active, whether or not the
    previous frame was active, and is unchanged by every other frame. *)
Theorem vad_activations_count_active_frames (w : world) (f : voice_frame_t)
  (m : bool) :
  let c' := ctx (fst (voice_processing_step w f m)) in
  vad_activations (stats c')
  = (if vad_active c' then to_u32 (vad_activations (stats (ctx w)) + 1)
     else vad_activations (stats (ctx w))).
Proof.
  destruct (voice_processing_step_vad w f m) as (_ & _ & H & _).
  exact H.
Qed.

End StepProofs.

(** C1, as the claim states it, fails, whichever noise floor it means.
    With the floor as it is when the frame arrives in both tests, a frame
    10.3 dB above the initial floor would be counted: the code does not
    count it, its 10 dB test reading the floor this frame has just raised.
    With the floor as it is after the frame's update in both tests, a frame
    with one loud channel and three channels 6.1 dB above the initial floor
    would have one active channel and not be counted: the code counts four
    and counts the frame, its 6 dB test reading the floor before the
    update. *)
Lemma vad_decision_not_one_floor :
  let c := Example.ctx0 in
  let c1 := ctx (fst (Example.step Example.world0 (Example.faint 0))) in
  let c2 := ctx (fst (Example.step Example.world0 (Example.lopsided 0))) in
  (vad_frame_count c1 = 0
   /\ spec_vad_frame_count (libm := ref_libm) (hdr := typical_header)
        (noise_floor c) c (Example.faint 0) = 1)
  /\ (vad_frame_count c2 = 1
      /\ spec_vad_frame_count (libm := ref_libm) (hdr := typical_header)
           (noise_floor c2) c (Example.lopsided 0) = 0).
Proof. vm_compute. repeat split; reflexivity. Qed.

(** C2, as the claim states it, fails. The third loud frame in a row is
    flagged [vad_active], and the noise floor has moved on it: the update
    looks at the flag the previous frame left. And with [vad_active] true,
    [voice_calibrate_noise] changes the noise floor. *)
Lemma noise_floor_changes_while_active :
  let w2 := Example.run Example.world0 [Example.loud 0; Example.loud 30] in
  let r := Example.step w2 (Example.loud 60) in
  let c := Example.ctx_active in
  let c' :=
    after_call c
      (voice_calibrate_noise (hdr := typical_header) (Some c) 1000) in
  (frame_vad_active (snd r) = true
   /\ vad_active (ctx (fst r)) = true
   /\ noise_floor (ctx (fst r)) <> noise_floor (ctx w2))
  /\ (vad_active c = true
      /\ vad_active c' = true
      /\ noise_floor c' <> noise_floor c).
Proof. vm_compute. repeat split; discriminate. Qed.

(** C7, as the claim states it, fails: after three loud frames the VAD is
    active and has been counted once; a fourth loud frame keeps it active,
    which is no rising edge, and is counted again. *)
Lemma vad_activations_not_rising_edges :
  let w3 := Example.run Example.world0
              [Example.loud 0; Example.loud 30; Example.loud 60] in
  let w4 := fst (Example.step w3 (Example.loud 90)) in
  vad_active (ctx w3) = true
  /\ vad_activations (stats (ctx w3)) = 1
  /\ vad_active (ctx w4) = true
  /\ vad_activations (stats (ctx w4)) = 2.
Proof. vm_compute. repeat split; reflexivity. Qed.

(** ** Wake-word detections and callbacks *)

Section WakeProofs.
Context {libm : Libm} {hdr : VoiceHeader}.

Lemma wake_callback_count_app (t1 t2 : list event) :
  wake_callback_count (t1 ++ t2)
  = wake_callback_count t1 + wake_callback_count t2.
Proof.
  unfold wake_callback_count. rewrite filter_app, length_app. lia.
Qed.

Lemma detection_count_app (t1 t2 : list event) :
  detection_count (t1 ++ t2) = detection_count t1 + detection_count t2.
Proof.
  unfold detection_count. rewrite filter_app, length_app. lia.
Qed.

(** The registry loop finds the callback of the first entry, in index
    order, that has one. *)
Lemma first_callback_range_from (ws : list wake_word_model_t) (n : nat) :
  forall s : Z,
  match first_callback ws (range_from s n) with
  | Some k =>
      exists i,
        s <= i < s + Z.of_nat n
        /\ ww_callback (znth ws i no_wake_word) = Some k
        /\ forall j, s <= j < i -> ww_callback (znth ws j no_wake_word) = None
  | None =>
      forall j, s <= j < s + Z.of_nat n ->
                ww_callback (znth ws j no_wake_word) = None
  end.
Proof.
  induction n as [|n IH]; intros s; cbn [range_from first_callback].
  - intros j Hj. lia.
  - destruct (ww_callback (znth ws s no_wake_word)) as [k|] eqn:E.
    + exists s. repeat split; [lia | lia | exact E | intros j Hj; lia].
    + specialize (IH (s + 1)).
      destruct (first_callback ws (range_from (s + 1) n)) as [k|].
      * destruct IH as (i & Hi & Hk & Hn).
        exists i. repeat split; [lia | lia | exact Hk |].
        intros j Hj. destruct (Z.eq_dec j s) as [-> | Hne];
          [exact E | apply Hn; lia].
      * intros j Hj. destruct (Z.eq_dec j s) as [-> | Hne];
          [exact E | apply IH; lia].
Qed.

Lemma process_wake_word_detection_spec (w : world) (f : voice_frame_t) :
  let w' := process_wake_word_detection w f in
  simulation_counter w' = simulation_counter w + 1
  /\ if detection_fires w f
     then
       trace w' = trace w ++ detection_events (ctx w)
       /\ state (ctx w') = VOICE_STATE_WAKE_DETECTED
       /\ last_wake_time (ctx w') = timestamp_ms f
       /\ wake_detections (stats (ctx w'))
          = to_u32 (wake_detections (stats (ctx w)) + 1)
     else ctx w' = ctx w /\ trace w' = trace w.
Proof.
  unfold process_wake_word_detection, detection_fires, detection_events.
  cbv zeta. cbn [ctx simulation_counter trace].
  destruct (frame_vad_active f && (Z.rem (simulation_counter w + 1) 500 =? 0)).
  - destruct w as [c n tr]. destruct c. cbn.
    match goal with |- context [first_callback ?a ?b] =>
      destruct (first_callback a b) end; cbn;
      rewrite <- ?app_assoc; repeat split; reflexivity.
  - repeat split; reflexivity.
Qed.

(** What the state machine emits and counts: a detection when it is
    listening and the trigger fires, nothing otherwise. *)
Lemma state_machine_events (w : world) (f : voice_frame_t) :
  let w' := state_machine w f in
  let fires := listening (ctx w) && detection_fires w f in
  trace w' = trace w ++ (if fires then detection_events (ctx w) else [])
  /\ wake_detections (stats (ctx w'))
     = (if fires then to_u32 (wake_detections (stats (ctx w)) + 1)
        else wake_detections (stats (ctx w))).
Proof.
  cbv zeta. unfold state_machine, listening.
  pose proof (process_wake_word_detection_spec w f) as H. cbv zeta in H.
  destruct (state (ctx w)) eqn:Es; cbn [andb].
  1,2: destruct H as [_ H]; destruct (detection_fires w f);
       [ destruct H as (H1 & _ & _ & H2); now rewrite H1, H2
       | destruct H as (H1 & H2); now rewrite H1, H2, app_nil_r ].
  all: rewrite app_nil_r; try (split; reflexivity).
  all: unfold record_frame, after_call, voice_stop_recording; cbn [snd fst];
       destruct w as [c n tr]; destruct c; cbn;
       repeat match goal with
              | |- context [if ?b then _ else _] => destruct b
              end; split; reflexivity.
Qed.

Lemma finish_step_trace (w : world) (f : voice_frame_t) (m : bool) :
  trace (finish_step w f m)
  = trace w
      ++ match audio_callback (ctx w) with
         | Some k => [EvAudioCallback k (audio_callback_data (ctx w))]
         | None => []
         end.
Proof.
  unfold finish_step.
  destruct m, (audio_callback (ctx w)); cbn; now rewrite ?app_nil_r.
Qed.

(** Events and detection count of one iteration. *)
Lemma voice_processing_step_events (w : world) (f : voice_frame_t) (m : bool) :
  let r := voice_processing_step w f m in
  let fires :=
    listening (ctx w) && detection_fires w (snd r) in
  exists audio : list event,
    trace (fst r)
    = trace w ++ (if fires then detection_events (ctx w) else []) ++ audio
    /\ wake_callback_count audio = 0
    /\ detection_count audio = 0
    /\ wake_detections (stats (ctx (fst r)))
       = (if fires then to_u32 (wake_detections (stats (ctx w)) + 1)
          else wake_detections (stats (ctx w)))
    /\ config (ctx (fst r)) = config (ctx w).
Proof.
  destruct (voice_processing_step_stages w f m)
    as (cA & fA & Hstep & _ & _ & Hses & _).
  cbv zeta. rewrite Hstep. cbn [fst snd].
  destruct Hses as (Hst & _ & _ & _ & _ & _ & _ & Hcfg & _ & _ & Hwd).
  pose proof (state_machine_events (set_ctx cA w) fA) as [Htr Hcnt].
  pose proof (finish_step_keeps (state_machine (set_ctx cA w) fA) fA m)
    as [_ Hk].
  destruct Hk as (_ & _ & _ & _ & _ & _ & _ & Kcfg & _ & _ & Kwd).
  pose proof (state_machine_keeps (set_ctx cA w) fA)
    as (_ & _ & _ & _ & _ & Scfg & _).
  cbn [ctx set_ctx trace] in Htr, Hcnt, Scfg.
  replace (listening cA) with (listening (ctx w)) in Htr, Hcnt
    by (unfold listening; now rewrite Hst).
  replace (detection_fires (set_ctx cA w) fA) with (detection_fires w fA)
    in Htr, Hcnt by reflexivity.
  replace (detection_events cA) with (detection_events (ctx w)) in Htr
    by (unfold detection_events; now rewrite Hcfg).
  rewrite Hwd in Hcnt.
  eexists. rewrite finish_step_trace, Htr, <- app_assoc.
  split; [reflexivity|].
  split; [now destruct (audio_callback _)|].
  split; [now destruct (audio_callback _)|].
  split; [congruence | congruence].
Qed.

Lemma detection_events_counts (c : voice_context) :
  detection_count (detection_events c) = 1
  /\ wake_callback_count (detection_events c)
     = match
         first_callback (wake_words (config c))
           (range (num_wake_words (config c)))
       with
       | Some _ => 1
       | None => 0
       end.
Proof.
  unfold detection_events.
  destruct (first_callback _ _); split; reflexivity.
Qed.

(** Over a run of the task: the new events, the detections counted and the
    callbacks called. *)
Lemma voice_processing_run_events (frames : list (voice_frame_t * bool)) :
  forall w : world,
  let cb :=
    first_callback (wake_words (config (ctx w)))
      (range (num_wake_words (config (ctx w)))) in
  let w' := voice_processing_run w frames in
  exists new : list event,
    trace w' = trace w ++ new
    /\ to_u32 (wake_detections (stats (ctx w')))
       = to_u32 (wake_detections (stats (ctx w)) + detection_count new)
    /\ wake_callback_count new
       = match cb with Some _ => detection_count new | None => 0 end
    /\ (forall e, In e new -> is_wake_callback e = true ->
                  Some e = option_map EvWakeCallback cb)
    /\ config (ctx w') = config (ctx w).
Proof.
  induction frames as [|[f m] frames IH]; intros w cb w'.
  - exists []. unfold w'. cbn [voice_processing_run].
    rewrite app_nil_r. unfold detection_count, wake_callback_count. cbn.
    rewrite Z.add_0_r. repeat split; auto.
    + now destruct cb.
    + intros e [].
  - unfold w'. cbn [voice_processing_run].
    destruct (voice_processing_step_events w f m)
      as (audio & Htr & Ha1 & Ha2 & Hwd & Hcfg).
    cbv zeta in Htr, Hwd.
    set (w1 := fst (voice_processing_step w f m)) in *.
    set (fires := listening (ctx w)
                  && detection_fires w (snd (voice_processing_step w f m))) in *.
    destruct (IH w1) as (new & Itr & Iwd & Icb & Iev & Icfg).
    rewrite Hcfg in Icb, Iev. fold cb in Icb, Iev.
    destruct (detection_events_counts (ctx w)) as [Hd1 Hd2]. fold cb in Hd2.
    exists ((if fires then detection_events (ctx w) else []) ++ audio ++ new).
    split; [rewrite Itr, Htr; now rewrite <- !app_assoc|].
    rewrite !detection_count_app, !wake_callback_count_app, Ha1, Ha2.
    split; [|split; [|split]].
    + rewrite Iwd, Hwd. destruct fires.
      * rewrite Hd1. unfold to_u32.
        rewrite Zplus_mod_idemp_l. f_equal; lia.
      * change (detection_count []) with 0. f_equal; lia.
    + rewrite Icb. destruct fires.
      * rewrite Hd1, Hd2. destruct cb; lia.
      * change (wake_callback_count []) with 0.
        change (detection_count []) with 0. destruct cb; lia.
    + intros e He Hw. rewrite !in_app_iff in He.
      destruct He as [He | [He | He]].
      * destruct fires; [|destruct He].
        unfold detection_events in He. fold cb in He.
        destruct He as [<- | He]; [discriminate|].
        destruct cb; [|destruct He].
        destruct He as [<- | []]. reflexivity.
      * exfalso. unfold wake_callback_count in Ha1.
        assert (In e (filter is_wake_callback audio))
          by (apply filter_In; auto).
        destruct (filter is_wake_callback audio); [contradiction|].
        cbn in Ha1. lia.
      * now apply Iev.
    + congruence.
Qed.

(** The counter stays a [uint32_t]. *)
Lemma voice_processing_run_wake_detections_range
  (frames : list (voice_frame_t * bool)) :
  forall w : world,
    0 <= wake_detections (stats (ctx w)) < 2 ^ 32 ->
    0 <= wake_detections (stats (ctx (voice_processing_run w frames))) < 2 ^ 32.
Proof.
  induction frames as [|[f m] frames IH]; intros w H; [exact H|].
  cbn [voice_processing_run]. apply IH.
  destruct (voice_processing_step_events w f m) as (_ & _ & _ & _ & Hwd & _).
  cbv zeta in Hwd. rewrite Hwd.
  destruct (listening (ctx w) && _); [apply to_u32_range | exact H].
Qed.

(** C6, amended. Over any run of the processing task, [wake_detections]
    goes up (modulo 2^32) by the number of detections. When some registry
    entry has a callback, every detection invokes exactly one wake-word
    callback, that of the first entry in registration order that has one;
    when no entry has a callback, detections are counted and no callback is
    invoked. *)
Theorem wake_callbacks_follow_detections (w : world)
  (frames : list (voice_frame_t * bool))
  (Hwd : 0 <= wake_detections (stats (ctx w)) < 2 ^ 32) :
  let cfg := config (ctx w) in
  let w' := voice_processing_run w frames in
  let detections := detection_count (trace w') - detection_count (trace w) in
  let callbacks :=
    wake_callback_count (trace w') - wake_callback_count (trace w) in
  wake_detections (stats (ctx w'))
  = to_u32 (wake_detections (stats (ctx w)) + detections)
  /\ match first_callback (wake_words cfg) (range (num_wake_words cfg)) with
     | Some cb =>
         callbacks = detections
         /\ (exists i,
               0 <= i < num_wake_words cfg
               /\ ww_callback (znth (wake_words cfg) i no_wake_word) = Some cb
               /\ forall j, 0 <= j < i ->
                    ww_callback (znth (wake_words cfg) j no_wake_word) = None)
         /\ (exists new,
               trace w' = trace w ++ new
               /\ forall e, In e new -> is_wake_callback e = true ->
                            e = EvWakeCallback cb)
     | None => callbacks = 0
     end.
Proof.
  intros cfg w' detections callbacks.
  destruct (voice_processing_run_events frames w)
    as (new & Htr & Hwd' & Hcb & Hev & _).
  cbv zeta in Htr, Hwd', Hcb, Hev. fold w' cfg in Htr, Hwd', Hcb, Hev.
  assert (Hd : detections = detection_count new).
  { unfold detections. rewrite Htr, detection_count_app. lia. }
  assert (Hk : callbacks = wake_callback_count new).
  { unfold callbacks. rewrite Htr, wake_callback_count_app. lia. }
  split.
  - rewrite Hd, <- Hwd'. symmetry. apply to_u32_small.
    now apply voice_processing_run_wake_detections_range.
  - pose proof (first_callback_range_from (wake_words cfg)
                  (Z.to_nat (num_wake_words cfg)) 0) as Hfirst.
    fold (range (num_wake_words cfg)) in Hfirst.
    destruct (first_callback (wake_words cfg) (range (num_wake_words cfg)))
      as [cb|].
    + split; [congruence|]. split.
      * destruct Hfirst as (i & Hi & Hk' & Hn).
        exists i. repeat split; [lia | lia | exact Hk' | exact Hn].
      * exists new. split; [exact Htr|].
        intros e He Hw. specialize (Hev e He Hw). cbn in Hev. congruence.
    + congruence.
Qed.

End WakeProofs.

(** C6, as the claim states it, fails: with no wake word registered, the
    500th frame, VAD active, is a detection that is counted and for which
    no callback is invoked. *)
Lemma wake_detection_without_callback :
  let w' := fst (Example.step Example.world_499 (Example.loud 90)) in
  state (ctx w') = VOICE_STATE_WAKE_DETECTED
  /\ wake_detections (stats (ctx w')) = 1
  /\ detection_count (trace w') = 1
  /\ wake_callback_count (trace w') = 0.
Proof. vm_compute. repeat split; reflexivity. Qed.

Lemma wake_callbacks_follow_detections_witness :
  let w := Example.world_wake in
  let w' :=
    voice_processing_run (libm := ref_libm) (hdr := typical_header) w
      [(Example.loud 90, true); (Example.loud 120, true)] in
  wake_detections (stats (ctx w'))
  = to_u32
      (wake_detections (stats (ctx w))
       + (detection_count (trace w') - detection_count (trace w))).
Proof.
  assert (H : 0 <= wake_detections (stats (ctx Example.world_wake)) < 2 ^ 32)
    by (vm_compute; split; [discriminate | reflexivity]).
  pose proof
    (wake_callbacks_follow_detections (libm := ref_libm)
       (hdr := typical_header) Example.world_wake
       [(Example.loud 90, true); (Example.loud 120, true)] H) as K.
  cbv zeta in K. destruct K as [K _]. exact K.
Defined.

(** ** The recording sink *)

Section RecordingProofs.
Context {libm : Libm} {hdr : VoiceHeader}.

Lemma memcpy_at_length {A : Type} (dst src : list A) (off len : Z) :
  0 <= off -> 0 <= len -> length src = Z.to_nat len ->
  (Z.to_nat off + length src <= length dst)%nat ->
  length (memcpy_at dst off src len) = length dst.
Proof.
  intros Hoff Hlen Hsrc Hfit. unfold memcpy_at.
  rewrite !length_app, !length_firstn, length_skipn. lia.
Qed.

Lemma memcpy_at_firstn {A : Type} (dst src : list A) (off len : Z) :
  0 <= off -> 0 <= len -> length src = Z.to_nat len ->
  (Z.to_nat off + length src <= length dst)%nat ->
  firstn (Z.to_nat off + length src) (memcpy_at dst off src len)
  = firstn (Z.to_nat off) dst ++ src.
Proof.
  intros Hoff Hlen Hsrc Hfit. unfold memcpy_at.
  rewrite <- Hsrc, firstn_all, app_assoc.
  rewrite firstn_app.
  replace (Z.to_nat off + length src
           - length (firstn (Z.to_nat off) dst ++ src))%nat with 0%nat
    by (rewrite length_app, length_firstn; lia).
  rewrite firstn_O, app_nil_r. apply firstn_all2.
  rewrite length_app, length_firstn. lia.
Qed.

Lemma mono_frame_length (c : voice_context) (f : voice_frame_t) :
  length (mono_frame c f) = Z.to_nat VOICE_FRAME_SIZE.
Proof. unfold mono_frame. now rewrite length_map, range_length. Qed.

Lemma mono_frame_ext (c1 c2 : voice_context) (f1 f2 : voice_frame_t) :
  beamform_weights c1 = beamform_weights c2 -> samples f1 = samples f2 ->
  mono_frame c1 f1 = mono_frame c2 f2.
Proof.
  intros Hw Hs. unfold mono_frame, mono_sample. now rewrite Hw, Hs.
Qed.

Lemma bytes_snoc (done : list (list Z)) (mf : list Z) :
  bytes_of_int16s (concat (done ++ [mf]))
  = bytes_of_int16s (concat done) ++ bytes_of_int16s mf.
Proof.
  rewrite concat_app, bytes_of_int16s_app. cbn [concat]. now rewrite app_nil_r.
Qed.

(** The recording branch appends the mix-down of a voiced frame that fits,
    and keeps what was recorded before. *)
Lemma record_frame_holds (c : voice_context) (f : voice_frame_t)
  (done : list (list Z)) :
  0 <= VOICE_FRAME_SIZE -> VOICE_FRAME_SIZE * 2 < 2 ^ 32 ->
  recording_capacity c < 2 ^ 32 ->
  state c = VOICE_STATE_RECORDING ->
  recording_size c = Z.of_nat (length (bytes_of_int16s (concat done))) ->
  firstn (length (bytes_of_int16s (concat done))) (recording_buffer c)
  = bytes_of_int16s (concat done) ->
  length (recording_buffer c) = Z.to_nat (recording_capacity c) ->
  let new :=
    if frame_vad_active f && is_recording c then [mono_frame c f] else [] in
  Z.of_nat (length (bytes_of_int16s (concat (done ++ new))))
  <= recording_capacity c ->
  let c' := record_frame c f in
  recording_holds c' (done ++ new)
  /\ recording_capacity c' = recording_capacity c
  /\ beamform_weights c' = beamform_weights c.
Proof.
  intros Hfs0 Hfs Hcap Hst Hsize Hfirst Hlen new Hfit c'.
  unfold recording_holds. cbv zeta.
  unfold c', record_frame, after_call, voice_stop_recording. cbn [fst snd].
  unfold new in *. clear new c'.
  set (mf := mono_frame c f) in *.
  pose proof (bytes_of_int16s_length mf) as Hmf.
  unfold mf in Hmf at 2. rewrite mono_frame_length in Hmf.
  set (bd := bytes_of_int16s (concat done)) in *.
  destruct (frame_vad_active f && is_recording c).
  - rewrite bytes_snoc in *. fold bd in Hfit |- *. rewrite length_app in *.
    assert (Hfb : to_size (VOICE_FRAME_SIZE * 2) = VOICE_FRAME_SIZE * 2)
      by (apply to_size_small; lia).
    rewrite Hfb.
    set (buf' := memcpy_at (recording_buffer c) (recording_size c)
                   (bytes_of_int16s mf) (VOICE_FRAME_SIZE * 2)).
    assert (Hsum : to_size (recording_size c + VOICE_FRAME_SIZE * 2)
                   = recording_size c + VOICE_FRAME_SIZE * 2)
      by (apply to_size_small; lia).
    assert (Hle : (recording_size c + VOICE_FRAME_SIZE * 2
                   <=? recording_capacity c) = true)
      by (apply Z.leb_le; lia).
    rewrite Hsum, Hle.
    assert (Hoff : Z.to_nat (recording_size c) = length bd) by lia.
    assert (Hb1 : length buf' = Z.to_nat (recording_capacity c)).
    { unfold buf'. rewrite memcpy_at_length; [exact Hlen | lia | lia | lia | lia]. }
    assert (Hb2 : firstn (length bd + length (bytes_of_int16s mf)) buf'
                  = bd ++ bytes_of_int16s mf).
    { unfold buf'. rewrite <- Hoff.
      rewrite memcpy_at_firstn; [|lia|lia|lia|lia].
      now rewrite Hoff, Hfirst. }
    destruct c. cbn in *.
    match goal with |- context [if ?b then _ else _] => destruct b end;
      cbn; (repeat split; [tauto | lia | assumption | assumption]).
  - rewrite app_nil_r in *. fold bd in Hfit |- *.
    destruct c. cbn in *.
    match goal with |- context [if ?b then _ else _] => destruct b end;
      cbn; (repeat split; [tauto | lia | assumption | assumption]).
Qed.

Lemma recording_holds_kept (c c' : voice_context) (done : list (list Z)) :
  session_fields_kept c c' -> recording_holds c done -> recording_holds c' done.
Proof.
  unfold session_fields_kept, recording_holds.
  intros (H1 & H2 & H3 & H4 & _). now rewrite H1, H2, H3, H4.
Qed.

Lemma state_machine_holds (w : world) (f : voice_frame_t)
  (done : list (list Z)) :
  0 <= VOICE_FRAME_SIZE -> VOICE_FRAME_SIZE * 2 < 2 ^ 32 ->
  recording_capacity (ctx w) < 2 ^ 32 ->
  recording_holds (ctx w) done ->
  let new :=
    if recording_open (ctx w) && frame_vad_active f
    then [mono_frame (ctx w) f] else [] in
  Z.of_nat (length (bytes_of_int16s (concat (done ++ new))))
  <= recording_capacity (ctx w) ->
  recording_holds (ctx (state_machine w f)) (done ++ new)
  /\ recording_capacity (ctx (state_machine w f)) = recording_capacity (ctx w).
Proof.
  intros Hfs0 Hfs Hcap Hold new Hfit. subst new.
  unfold recording_open in *. unfold state_machine.
  destruct Hold as (Hst & Hsize & Hfirst & Hlen).
  destruct Hst as [[Hst ->] | [Hst | Hst]]; rewrite Hst in *.
  - (* WAKE_DETECTED *)
    cbn [ctx set_ctx andb] in *.
    set (c1 := set_is_recording true
                 (set_recording_size 0
                    (set_recording_start_time (timestamp_ms f)
                       (set_state VOICE_STATE_RECORDING (ctx w))))).
    assert (Hmf : mono_frame c1 f = mono_frame (ctx w) f)
      by (apply mono_frame_ext; reflexivity).
    destruct (record_frame_holds c1 f []) as (H1 & H2 & _);
      try assumption; try reflexivity.
    + change (is_recording c1) with true. rewrite andb_true_r, Hmf.
      exact Hfit.
    + change (is_recording c1) with true in H1.
      rewrite andb_true_r, Hmf in H1. split; [exact H1 | exact H2].
  - (* RECORDING *)
    cbn [ctx set_ctx].
    destruct (record_frame_holds (ctx w) f done) as (H1 & H2 & _);
      try assumption.
    + now rewrite andb_comm.
    + rewrite andb_comm in H1. split; [exact H1 | exact H2].
  - (* PROCESSING *)
    cbn [andb]. rewrite app_nil_r.
    split; [|reflexivity]. unfold recording_holds. rewrite Hst. tauto.
Qed.

(** One iteration extends the recording by the frame's mix-down exactly
    when the sink is open and the frame is voiced. *)
Lemma voice_processing_step_holds (w : world) (f : voice_frame_t) (m : bool)
  (done : list (list Z)) :
  0 <= VOICE_FRAME_SIZE -> VOICE_FRAME_SIZE * 2 < 2 ^ 32 ->
  recording_capacity (ctx w) < 2 ^ 32 ->
  recording_holds (ctx w) done ->
  Z.of_nat
    (length (bytes_of_int16s (concat (done ++ session_frames w [(f, m)]))))
  <= recording_capacity (ctx w) ->
  let w' := fst (voice_processing_step w f m) in
  recording_holds (ctx w') (done ++ session_frames w [(f, m)])
  /\ recording_capacity (ctx w') = recording_capacity (ctx w).
Proof.
  intros Hfs0 Hfs Hcap Hold Hfit. cbn [session_frames] in *.
  rewrite app_nil_r in *.
  destruct (voice_processing_step_stages w f m)
    as (cA & fA & Hstep & _ & _ & Hses & _).
  rewrite Hstep in *. cbn [fst snd] in *.
  set (w1 := state_machine (set_ctx cA w) fA) in *.
  pose proof (state_machine_keeps (set_ctx cA w) fA) as K1. fold w1 in K1.
  pose proof (finish_step_keeps w1 fA m) as [K2 K3].
  pose proof (vad_fields_kept_trans _ _ _ K1 K2) as K.
  destruct K as (_ & _ & _ & _ & _ & _ & Kw & _). cbn [ctx set_ctx] in Kw.
  assert (Hmf : mono_frame (ctx (finish_step w1 fA m)) fA = mono_frame cA fA)
    by (apply mono_frame_ext; [exact Kw | reflexivity]).
  rewrite Hmf in *.
  assert (Hopen : recording_open (ctx w) = recording_open cA).
  { unfold recording_open.
    destruct Hses as (-> & _ & _ & _ & -> & _). reflexivity. }
  rewrite Hopen in *.
  assert (HcapA : recording_capacity cA = recording_capacity (ctx w))
    by (now destruct Hses as (_ & _ & _ & -> & _)).
  destruct (state_machine_holds (set_ctx cA w) fA done) as [H1 H2];
    try assumption.
  - cbn [ctx set_ctx]. lia.
  - cbn [ctx set_ctx]. eapply recording_holds_kept; eassumption.
  - cbn [ctx set_ctx]. rewrite HcapA. exact Hfit.
  - cbn [ctx set_ctx] in H1, H2. fold w1 in H1, H2. split.
    + eapply recording_holds_kept; [exact K3 | exact H1].
    + destruct K3 as (_ & _ & _ & -> & _). congruence.
Qed.

Lemma session_frames_cons (w : world) (f : voice_frame_t) (m : bool)
  (rest : list (voice_frame_t * bool)) :
  session_frames w ((f, m) :: rest)
  = session_frames w [(f, m)]
      ++ session_frames (fst (voice_processing_step w f m)) rest.
Proof. cbn [session_frames]. now rewrite app_nil_r. Qed.

Lemma session_frames_lengths (frames : list (voice_frame_t * bool)) :
  forall w : world,
    Forall (fun mf => length mf = Z.to_nat VOICE_FRAME_SIZE)
      (session_frames w frames).
Proof.
  induction frames as [|[f m] rest IH]; intros w; cbn [session_frames].
  - constructor.
  - apply Forall_app. split; [|apply IH].
    destruct (_ && _); constructor; [apply mono_frame_length | constructor].
Qed.

Lemma bytes_of_frames_length (l : list (list Z)) (n : nat) :
  Forall (fun mf => length mf = n) l ->
  length (bytes_of_int16s (concat l)) = (length l * n * 2)%nat.
Proof.
  intros H. rewrite bytes_of_int16s_length.
  induction H as [|mf l Hmf _ IH]; cbn [concat length]; [reflexivity|].
  rewrite length_app. lia.
Qed.

(** A run of the task extends the recording by the session's frames, as
    long as they fit. *)
Lemma voice_processing_run_holds (frames : list (voice_frame_t * bool)) :
  forall (w : world) (done : list (list Z)),
    0 <= VOICE_FRAME_SIZE -> VOICE_FRAME_SIZE * 2 < 2 ^ 32 ->
    recording_capacity (ctx w) < 2 ^ 32 ->
    recording_holds (ctx w) done ->
    Z.of_nat
      (length (bytes_of_int16s (concat (done ++ session_frames w frames))))
    <= recording_capacity (ctx w) ->
    recording_holds (ctx (voice_processing_run w frames))
      (done ++ session_frames w frames).
Proof.
  induction frames as [|[f m] rest IH]; intros w done Hfs0 Hfs Hcap Hold Hfit.
  - cbn [session_frames voice_processing_run]. now rewrite app_nil_r.
  - rewrite session_frames_cons in *. cbn [voice_processing_run].
    rewrite app_assoc in *.
    destruct (voice_processing_step_holds w f m done) as [H1 H2];
      try assumption.
    + rewrite concat_app, bytes_of_int16s_app, length_app in Hfit. lia.
    + apply IH; try assumption; rewrite H2; assumption.
Qed.

Lemma int16_min_f32 : F32.of_Z (-32768) = S754_finite true 8388608 (-8).
Proof. vm_compute. reflexivity. Qed.

Lemma int16_max_f32 : F32.of_Z 32767 = S754_finite false 16776704 (-9).
Proof. vm_compute. reflexivity. Qed.

(** The clamp of the code, [fminf (fmaxf sum lo) hi] converted to an
    integer, is the saturation of the specification. *)
Lemma clamp_saturates (x : float32) :
  F32.trunc (F32.fminf (F32.fmaxf x (F32.of_Z (-32768))) (F32.of_Z 32767))
  = spec_saturate_i16 x.
Proof.
  unfold spec_saturate_i16, F32.ltb, F32.gtb.
  rewrite int16_min_f32, int16_max_f32.
  destruct x as [s | s | | s m e].
  - destruct s; vm_compute; reflexivity.
  - destruct s; vm_compute; reflexivity.
  - vm_compute. reflexivity.
  - unfold F32.fmaxf.
    destruct (SFltb (S754_finite s m e) (S754_finite true 8388608 (-8)))
      eqn:E1.
    + vm_compute. reflexivity.
    + unfold F32.fminf.
      destruct (SFltb (S754_finite false 16776704 (-9)) (S754_finite s m e));
        reflexivity.
Qed.

(** The channel loop of the mix-down accumulates the weighted sum. *)
Lemma weighted_sum_loop (g : Z -> Z) (h : Z -> float32) (l : list Z) :
  forall acc : float32,
    fold_left (fun sum ch => F32.add sum (F32.mul (F32.of_Z (g ch)) (h ch)))
      l acc
    = spec_weighted_sum acc (map g l) (map h l).
Proof.
  induction l as [|ch l IH]; intros acc; [reflexivity|].
  cbn [fold_left map spec_weighted_sum]. apply IH.
Qed.

(** The mono frame the task records is the weighted, saturating mix-down of
    the frame's samples. *)
Lemma mono_frame_spec (c : voice_context) (f : voice_frame_t) :
  mono_frame c f = spec_mixdown (beamform_weights c) (samples f).
Proof.
  unfold mono_frame, spec_mixdown. apply map_ext. intros i.
  unfold mono_sample. cbv zeta. rewrite clamp_saturates. f_equal.
  apply (weighted_sum_loop
           (fun ch => znth (samples f) (i * VOICE_CHANNELS + ch) 0)
           (fun ch => znth (beamform_weights c) ch F32.zero)).
Qed.

Lemma session_frames_spec (frames : list (voice_frame_t * bool)) :
  forall w : world, session_frames w frames = session_mixdowns w frames.
Proof.
  induction frames as [|[f m] frames IH]; intros w; [reflexivity|].
  cbn [session_frames session_mixdowns]. cbv zeta. rewrite IH. f_equal.
  destruct (recording_open (ctx w) && _); [|reflexivity].
  rewrite mono_frame_spec. do 2 f_equal.
  destruct (voice_processing_step_stages w f m)
    as (cA & fA & Hstep & _ & _ & _ & _ & _ & _ & Hs & _).
  now rewrite Hstep.
Qed.

(** C5. A session starts with an empty recording, in RECORDING or in
    WAKE_DETECTED. If the [N] frames that find the sink open and are
    flagged [vad_active] all fit the capacity, [voice_get_recording] with a
    buffer of at least [N * FRAME_LEN * 2] bytes reports exactly that many
    bytes, and they are, in order and [FRAME_LEN] samples per frame, the
    little-endian 16-bit samples of the weighted, saturating mix-down of
    each of these frames:
    [saturate_i16 (sum over ch of samples[i * CHANNELS + ch] * weights[ch])]. *)
Theorem recording_round_trip (w : world) (frames : list (voice_frame_t * bool))
  (buf : list Z) (buffer_size bw : Z)
  (Hframe : 0 <= VOICE_FRAME_SIZE /\ VOICE_FRAME_SIZE * 2 < 2 ^ 32)
  (Hstart :
     (state (ctx w) = VOICE_STATE_RECORDING
      \/ state (ctx w) = VOICE_STATE_WAKE_DETECTED)
     /\ recording_size (ctx w) = 0)
  (Hbuf :
     Z.of_nat (length (recording_buffer (ctx w))) = recording_capacity (ctx w))
  (Hcap : recording_capacity (ctx w) < 2 ^ 32)
  (Hfit :
     Z.of_nat (length (session_mixdowns w frames)) * VOICE_FRAME_SIZE * 2
     <= recording_capacity (ctx w))
  (Hroom :
     Z.of_nat (length (session_mixdowns w frames)) * VOICE_FRAME_SIZE * 2
     <= buffer_size) :
  let n := Z.of_nat (length (session_mixdowns w frames)) in
  let r :=
    voice_get_recording (Some (ctx (voice_processing_run w frames)))
      (Some buf) buffer_size (Some bw) in
  gr_error r = VOICE_OK
  /\ gr_bytes_written r = Some (n * VOICE_FRAME_SIZE * 2)
  /\ (exists buf',
        gr_buffer r = Some buf'
        /\ firstn (Z.to_nat (n * VOICE_FRAME_SIZE * 2)) buf'
           = bytes_of_int16s (concat (session_mixdowns w frames)))
  /\ Forall (fun mf => length mf = Z.to_nat VOICE_FRAME_SIZE)
       (session_mixdowns w frames).
Proof.
  rewrite <- (session_frames_spec frames w) in *.
  intros n r. destruct Hframe as [Hfs0 Hfs]. destruct Hstart as [Hst Hsz].
  pose proof (session_frames_lengths frames w) as Hall.
  pose proof (bytes_of_frames_length _ _ Hall) as Hbytes.
  set (sf := session_frames w frames) in *.
  assert (Hn : Z.of_nat (length (bytes_of_int16s (concat sf)))
               = n * VOICE_FRAME_SIZE * 2).
  { rewrite Hbytes. unfold n. rewrite !Nat2Z.inj_mul, Z2Nat.id by lia.
    reflexivity. }
  assert (Hold : recording_holds (ctx w) []).
  { unfold recording_holds. cbn. rewrite Hsz.
    repeat split; [tauto | lia]. }
  pose proof (voice_processing_run_holds frames w [] Hfs0 Hfs Hcap Hold) as Hrun.
  cbn [app] in Hrun. fold sf in Hrun. rewrite Hn in Hrun.
  specialize (Hrun Hfit). destruct Hrun as (_ & Hsize & Hfirst & _).
  cbv zeta in Hsize, Hfirst. rewrite Hn in Hsize.
  set (c' := ctx (voice_processing_run w frames)) in *.
  split; [|split; [|split; [|exact Hall]]].
  - unfold r, voice_get_recording. now destruct (recording_size c' =? 0).
  - unfold r, voice_get_recording.
    destruct (recording_size c' =? 0) eqn:E; cbn [gr_bytes_written].
    + apply Z.eqb_eq in E. congruence.
    + destruct (recording_size c' <? buffer_size) eqn:E2; [congruence|].
      apply Z.ltb_ge in E2. f_equal. lia.
  - unfold r, voice_get_recording.
    destruct (recording_size c' =? 0) eqn:E; cbn [gr_buffer].
    + apply Z.eqb_eq in E. exists buf. split; [reflexivity|].
      assert (Hz : length (bytes_of_int16s (concat sf)) = 0%nat) by lia.
      rewrite <- Hsize, E. cbn [Z.to_nat firstn].
      now destruct (bytes_of_int16s (concat sf)).
    + eexists. split; [reflexivity|].
      assert (Hcopy : (if recording_size c' <? buffer_size
                       then recording_size c' else buffer_size)
                      = recording_size c').
      { destruct (recording_size c' <? buffer_size) eqn:E2; [reflexivity|].
        apply Z.ltb_ge in E2. lia. }
      rewrite Hcopy. unfold memcpy_at. cbn [Z.to_nat firstn app].
      rewrite <- Hsize.
      replace (Z.to_nat (recording_size c'))
        with (length (bytes_of_int16s (concat sf))) by lia.
      rewrite Hfirst. rewrite firstn_app, firstn_all, Nat.sub_diag.
      cbn [firstn]. now rewrite app_nil_r.
Qed.

End RecordingProofs.

Lemma recording_round_trip_witness :
  let sf :=
    session_mixdowns (libm := ref_libm) (hdr := typical_header)
      Example.session_world Example.session_input in
  gr_bytes_written
    (voice_get_recording
       (Some
          (ctx
             (voice_processing_run (libm := ref_libm) (hdr := typical_header)
                Example.session_world Example.session_input)))
       (Some (repeat 0 4096%nat)) 4096 (Some 0))
  = Some (Z.of_nat (length sf) * VOICE_FRAME_SIZE (VoiceHeader := typical_header) * 2).
Proof.
  assert (H1 : 0 <= VOICE_FRAME_SIZE (VoiceHeader := typical_header)
               /\ VOICE_FRAME_SIZE (VoiceHeader := typical_header) * 2 < 2 ^ 32)
    by (vm_compute; split; [discriminate | reflexivity]).
  assert (H2 : (state (ctx Example.session_world) = VOICE_STATE_RECORDING
                \/ state (ctx Example.session_world) = VOICE_STATE_WAKE_DETECTED)
               /\ recording_size (ctx Example.session_world) = 0)
    by (vm_compute; split; [left|]; reflexivity).
  assert (H3 : Z.of_nat (length (recording_buffer (ctx Example.session_world)))
               = recording_capacity (ctx Example.session_world))
    by (vm_compute; reflexivity).
  assert (H4 : recording_capacity (ctx Example.session_world) < 2 ^ 32)
    by (vm_compute; reflexivity).
  assert (H5 : Z.of_nat
                 (length
                    (session_mixdowns (libm := ref_libm) (hdr := typical_header)
                       Example.session_world Example.session_input))
               * VOICE_FRAME_SIZE (VoiceHeader := typical_header) * 2
               <= recording_capacity (ctx Example.session_world))
    by (vm_compute; discriminate).
  assert (H6 : Z.of_nat
                 (length
                    (session_mixdowns (libm := ref_libm) (hdr := typical_header)
                       Example.session_world Example.session_input))
               * VOICE_FRAME_SIZE (VoiceHeader := typical_header) * 2
               <= 4096)
    by (vm_compute; discriminate).
  pose proof
    (recording_round_trip (libm := ref_libm) (hdr := typical_header)
       Example.session_world Example.session_input (repeat 0 4096%nat) 4096 0
       H1 H2 H3 H4 H5 H6) as K.
  cbv zeta in K. destruct K as (_ & K & _). exact K.
Defined.

(** The session of the witness: two of the four frames are recorded, 1920
    bytes of the sample 16384. *)
Example session_example_bytes :
  let r :=
    voice_get_recording
      (Some
         (ctx
            (voice_processing_run (libm := ref_libm) (hdr := typical_header)
               Example.session_world Example.session_input)))
      (Some (repeat 0 4096%nat)) 4096 (Some 0) in
  gr_bytes_written r = Some 1920
  /\ option_map (firstn 4) (gr_buffer r) = Some [0; 64; 0; 64].
Proof. vm_compute. split; reflexivity. Qed.

(** * Further properties of the code *)

(** ** The state machine of the processing task *)

Section TransitionProofs.
Context {libm : Libm} {hdr : VoiceHeader}.

Lemma session_fields_kept_refl (c : voice_context) : session_fields_kept c c.
Proof. unfold session_fields_kept. repeat split; reflexivity. Qed.

Lemma session_fields_kept_trans (a b c : voice_context) :
  session_fields_kept a b -> session_fields_kept b c -> session_fields_kept a c.
Proof.
  unfold session_fields_kept.
  intros (H1 & H2 & H3 & H4 & H5 & H6 & H7 & H8 & H9 & H10 & H11)
         (K1 & K2 & K3 & K4 & K5 & K6 & K7 & K8 & K9 & K10 & K11).
  repeat split; congruence.
Qed.

Lemma record_frame_halves (c : voice_context) (f : voice_frame_t) :
  record_frame c f = record_timeout (record_append c f) f.
Proof. reflexivity. Qed.

Lemma voice_context_eta_recording (c : voice_context) :
  set_recording_size (recording_size c)
    (set_recording_buffer (recording_buffer c) c) = c.
Proof. now destruct c. Qed.

(** The append writes the recording buffer and its size, nothing else. *)
Lemma record_append_shape (c : voice_context) (f : voice_frame_t) :
  exists (b : list Z) (s : Z),
    record_append c f = set_recording_size s (set_recording_buffer b c).
Proof.
  unfold record_append. cbv zeta.
  destruct (frame_vad_active f && is_recording c);
    [destruct (_ <=? _)|].
  - eexists; eexists. destruct c. reflexivity.
  - exists (recording_buffer c), (recording_size c).
    symmetry. apply voice_context_eta_recording.
  - exists (recording_buffer c), (recording_size c).
    symmetry. apply voice_context_eta_recording.
Qed.

(** The timeout check stops the recording or does nothing. *)
Lemma record_timeout_cases (c : voice_context) (f : voice_frame_t) :
  record_timeout c f
  = if max_recording_duration c
         <? to_u32 (timestamp_ms f - recording_start_time c)
    then set_state VOICE_STATE_PROCESSING (set_is_recording false c)
    else c.
Proof. reflexivity. Qed.

(** The switch of the task, as a transition function on the state. *)
Lemma state_machine_transition (w : world) (f : voice_frame_t) :
  0 <= max_recording_duration (ctx w) ->
  state (ctx (state_machine w f))
  = match state (ctx w) with
    | VOICE_STATE_IDLE | VOICE_STATE_LISTENING =>
        if detection_fires w f then VOICE_STATE_WAKE_DETECTED
        else state (ctx w)
    | VOICE_STATE_WAKE_DETECTED => VOICE_STATE_RECORDING
    | VOICE_STATE_RECORDING =>
        if max_recording_duration (ctx w)
             <? to_u32 (timestamp_ms f - recording_start_time (ctx w))
        then VOICE_STATE_PROCESSING else VOICE_STATE_RECORDING
    | s => s
    end.
Proof.
  intros Hmax. unfold state_machine.
  pose proof (process_wake_word_detection_spec w f) as [_ H].
  destruct (state (ctx w)) eqn:Es.
  1,2: destruct (detection_fires w f);
       [ now destruct H as (_ & -> & _) | destruct H as (-> & _); exact Es ].
  - cbn [ctx set_ctx]. rewrite record_frame_halves, record_timeout_cases.
    match goal with |- context [record_append ?c f] =>
      destruct (record_append_shape c f) as (b & s & ->) end.
    destruct (ctx w). cbn in *. rewrite Z.sub_diag. change (to_u32 0) with 0.
    assert (E : (max_recording_duration0 <? 0) = false) by (apply Z.ltb_ge; lia).
    now rewrite E.
  - cbn [ctx set_ctx]. rewrite record_frame_halves, record_timeout_cases.
    destruct (record_append_shape (ctx w) f) as (b & s & ->).
    destruct (ctx w). cbn in *. subst.
    now destruct (_ <? _).
  - exact Es.
  - exact Es.
Qed.

(** X1. One iteration of the task moves the session state as the switch
    says: from IDLE or LISTENING to WAKE_DETECTED when the trigger fires on
    the frame; from WAKE_DETECTED always to RECORDING; from RECORDING to
    PROCESSING when the frame's time exceeds the start time by more than
    the maximum duration; PROCESSING and ERROR stay as they are. *)
Theorem voice_processing_step_transition (w : world) (f : voice_frame_t)
  (m : bool) (Hmax : 0 <= max_recording_duration (ctx w)) :
  let r := voice_processing_step w f m in
  state (ctx (fst r))
  = match state (ctx w) with
    | VOICE_STATE_IDLE | VOICE_STATE_LISTENING =>
        if detection_fires w (snd r) then VOICE_STATE_WAKE_DETECTED
        else state (ctx w)
    | VOICE_STATE_WAKE_DETECTED => VOICE_STATE_RECORDING
    | VOICE_STATE_RECORDING =>
        if max_recording_duration (ctx w)
             <? to_u32 (timestamp_ms f - recording_start_time (ctx w))
        then VOICE_STATE_PROCESSING else VOICE_STATE_RECORDING
    | s => s
    end.
Proof.
  destruct (voice_processing_step_stages w f m)
    as (cA & fA & Hstep & _ & _ & Hses & _ & _ & _ & _ & Hts).
  cbv zeta. rewrite Hstep. cbn [fst snd].
  pose proof (finish_step_keeps (state_machine (set_ctx cA w) fA) fA m)
    as [_ (-> & _)].
  destruct Hses as (Hst & _ & _ & _ & _ & Hstart & Hdur & _).
  rewrite state_machine_transition by (cbn [ctx set_ctx]; lia).
  cbn [ctx set_ctx]. rewrite Hst, Hstart, Hdur, Hts. reflexivity.
Qed.

(** X2. While the session is in PROCESSING or in ERROR the task leaves it
    alone: an iteration changes neither the state nor the recording, its
    size, [is_recording], the configuration or the detection counter, and
    it emits no event but the audio callback's. *)
Theorem voice_processing_step_waits (w : world) (f : voice_frame_t) (m : bool)
  (Hst : state (ctx w) = VOICE_STATE_PROCESSING
         \/ state (ctx w) = VOICE_STATE_ERROR) :
  let w' := fst (voice_processing_step w f m) in
  session_fields_kept (ctx w) (ctx w')
  /\ simulation_counter w' = simulation_counter w
  /\ wake_callback_count (trace w') = wake_callback_count (trace w)
  /\ detection_count (trace w') = detection_count (trace w).
Proof.
  destruct (voice_processing_step_stages w f m)
    as (cA & fA & Hstep & _ & _ & Hses & _).
  cbv zeta. rewrite Hstep. cbn [fst].
  assert (Hsm : state_machine (set_ctx cA w) fA = set_ctx cA w).
  { unfold state_machine. cbn [ctx set_ctx].
    destruct Hses as (-> & _). now destruct Hst as [-> | ->]. }
  rewrite Hsm.
  pose proof (finish_step_keeps (set_ctx cA w) fA m) as [_ K].
  split; [eapply session_fields_kept_trans; [exact Hses | exact K]|].
  rewrite finish_step_trace, wake_callback_count_app, detection_count_app.
  cbn [trace set_ctx ctx].
  split; [unfold finish_step; now destruct m, (audio_callback _)|].
  destruct (audio_callback cA); cbn; split; lia.
Qed.

End TransitionProofs.

Lemma voice_processing_step_transition_witness :
  state (ctx (fst (Example.step Example.world_499 (Example.loud 90))))
  = VOICE_STATE_WAKE_DETECTED.
Proof.
  assert (H : 0 <= max_recording_duration (ctx Example.world_499))
    by (vm_compute; discriminate).
  pose proof
    (voice_processing_step_transition (libm := ref_libm)
       (hdr := typical_header) Example.world_499 (Example.loud 90) true H) as K.
  cbv zeta in K. unfold Example.step. rewrite K. vm_compute. reflexivity.
Defined.

Lemma voice_processing_step_waits_witness :
  session_fields_kept Example.ctx_stopped
    (ctx (fst (Example.step (mk_world Example.ctx_stopped 0 [])
                 (Example.loud 0)))).
Proof.
  assert (H : state (ctx (mk_world Example.ctx_stopped 0 []))
              = VOICE_STATE_PROCESSING
              \/ state (ctx (mk_world Example.ctx_stopped 0 []))
                 = VOICE_STATE_ERROR)
    by (left; vm_compute; reflexivity).
  exact (proj1
           (voice_processing_step_waits (libm := ref_libm)
              (hdr := typical_header) (mk_world Example.ctx_stopped 0 [])
              (Example.loud 0) true H)).
Defined.

(** ** Statistics and frame annotation *)

Section StatsProofs.
Context {libm : Libm} {hdr : VoiceHeader}.

Lemma state_machine_stats (w : world) (f : voice_frame_t) :
  stats (ctx (state_machine w f))
  = if listening (ctx w) && detection_fires w f
    then
      set_wake_detections (to_u32 (wake_detections (stats (ctx w)) + 1))
        (stats (ctx w))
    else stats (ctx w).
Proof.
  unfold state_machine, listening.
  destruct (state (ctx w)) eqn:Es; cbn [andb].
  1,2: unfold process_wake_word_detection, detection_fires; cbv zeta;
       cbn [ctx simulation_counter trace];
       destruct (frame_vad_active f && _); [|reflexivity];
       destruct w as [c n tr]; destruct c; cbn;
       now destruct (first_callback _ _).
  - cbn [ctx set_ctx]. rewrite record_frame_halves, record_timeout_cases.
    match goal with |- context [record_append ?c f] =>
      destruct (record_append_shape c f) as (b & s & ->) end.
    destruct (ctx w). cbn. now destruct (_ <? _).
  - cbn [ctx set_ctx]. rewrite record_frame_halves, record_timeout_cases.
    destruct (record_append_shape (ctx w) f) as (b & s & ->).
    destruct (ctx w). cbn. now destruct (_ <? _).
  - reflexivity.
  - reflexivity.
Qed.

Lemma finish_step_stats (w : world) (f : voice_frame_t) (m : bool) :
  stats (ctx (finish_step w f m)) = stats (ctx w).
Proof.
  unfold finish_step. now destruct m, (audio_callback (ctx w)).
Qed.

(** The channel loop writes [energy_db] channel by channel. *)
Lemma vad_loop_frame (c : voice_context) (f : voice_frame_t) (l : list Z) :
  forall (t : float32) (a : Z) (e : list float32),
    snd (fold_left (vad_channel c) l (t, a, set_energy_db e f))
    = set_energy_db
        (fold_left (fun e ch => zupd e ch (channel_energy f ch)) l e) f.
Proof.
  induction l as [|ch l IH]; intros t a e; [reflexivity|].
  cbn [fold_left]. unfold vad_channel at 2.
  change (calculate_energy_db (Some (channel_samples (set_energy_db e f) ch))
            (to_size VOICE_FRAME_SIZE)) with (channel_energy f ch).
  change (set_energy_db
            (zupd (energy_db (set_energy_db e f)) ch (channel_energy f ch))
            (set_energy_db e f))
    with (set_energy_db (zupd e ch (channel_energy f ch)) f).
  apply IH.
Qed.

Lemma detect_voice_activity_frame (c : voice_context) (f : voice_frame_t) :
  snd (detect_voice_activity c f)
  = set_energy_db
      (fold_left (fun e ch => zupd e ch (channel_energy f ch))
         (range VOICE_CHANNELS) (energy_db f)) f.
Proof.
  unfold detect_voice_activity.
  pose proof (vad_loop_frame c f (range VOICE_CHANNELS) F32.zero 0
                (energy_db f)) as H.
  rewrite set_energy_db_eta in H.
  destruct (fold_left (vad_channel c) (range VOICE_CHANNELS) (F32.zero, 0, f))
    as [[t a] f']. cbn [snd] in *. exact H.
Qed.

(** The stages of an iteration once more, with the statistics block and
    the annotated frame in full. *)
Lemma voice_processing_step_stages_full (w : world) (f : voice_frame_t)
  (m : bool) :
  exists (cA : voice_context) (fA : voice_frame_t),
    voice_processing_step w f m
    = (finish_step (state_machine (set_ctx cA w) fA) fA m, fA)
    /\ fA
       = set_frame_vad_active (vad_active cA)
           (set_energy_db
              (fold_left (fun e ch => zupd e ch (channel_energy f ch))
                 (range VOICE_CHANNELS) (energy_db f)) f)
    /\ session_fields_kept (ctx w) cA
    /\ vad_decided (ctx w) f cA
    /\ stats cA
       = (let s1 :=
            set_avg_energy_db (frame_avg_energy f)
              (set_frames_processed
                 (to_u32 (frames_processed (stats (ctx w)) + 1))
                 (stats (ctx w))) in
          let s2 :=
            if vad_active (ctx w) then s1
            else set_noise_floor_db (noise_floor cA) s1 in
          if vad_active cA
          then
            set_vad_activations
              (to_u32 (vad_activations (stats (ctx w)) + 1)) s2
          else s2)
    /\ circular_buffer cA = circular_buffer (ctx w)
    /\ buffer_write_idx cA = buffer_write_idx (ctx w).
Proof.
  unfold voice_processing_step. fold (vad_input (ctx w)).
  pose proof (detect_voice_activity_frame (vad_input (ctx w)) f) as Hf.
  destruct (detect_voice_activity_spec (vad_input (ctx w)) f) as [e' Hd].
  cbv zeta in Hd. rewrite Hd in *. cbn [snd] in Hf. rewrite Hf. clear Hf Hd e'.
  destruct (vad_input_shape (ctx w)) as [W [D Hin]]. rewrite Hin. clear Hin.
  set (avg := frame_avg_energy f).
  set (act := active_channel_count _ f).
  destruct (ctx w) eqn:Ec. cbn in act |- *. subst act.
  set (act := active_channel_count noise_floor0 f).
  unfold vad_decided, session_fields_kept, noise_floor_ema, update_noise_floor.
  destruct vad_active0; cbn;
    match goal with
    | |- context [to_u32 VAD_FRAME_THRESHOLD <=? ?n] =>
        destruct (to_u32 VAD_FRAME_THRESHOLD <=? n) eqn:Eb
    end;
    (eexists; eexists; split; [reflexivity|]); cbn; rewrite ?Eb;
    repeat split; reflexivity.
Qed.

Lemma upd_nat_length {A : Type} (l : list A) (n : nat) (v : A) :
  length (upd_nat l n v) = length l.
Proof.
  revert n; induction l as [|h l IH]; intros [|n]; cbn; auto.
Qed.

Lemma nth_upd_nat_same {A : Type} (l : list A) (n : nat) (v d : A) :
  (n < length l)%nat -> nth n (upd_nat l n v) d = v.
Proof.
  revert n; induction l as [|h l IH]; intros [|n] H; cbn in *;
    [lia | lia | reflexivity | apply IH; lia].
Qed.

Lemma nth_upd_nat_other {A : Type} (l : list A) (n k : nat) (v d : A) :
  n <> k -> nth k (upd_nat l n v) d = nth k l d.
Proof.
  revert n k; induction l as [|h l IH]; intros [|n] [|k] H; cbn;
    try reflexivity; try contradiction. apply IH; congruence.
Qed.

Lemma zupd_length {A : Type} (l : list A) (i : Z) (v : A) :
  length (zupd l i v) = length l.
Proof.
  unfold zupd. destruct (i <? 0); [reflexivity | apply upd_nat_length].
Qed.

Lemma znth_zupd_same {A : Type} (l : list A) (i : Z) (v d : A) :
  0 <= i < Z.of_nat (length l) -> znth (zupd l i v) i d = v.
Proof.
  intros H. unfold znth, zupd.
  destruct (i <? 0) eqn:E; [apply Z.ltb_lt in E; lia|].
  apply nth_upd_nat_same. lia.
Qed.

Lemma znth_zupd_other {A : Type} (l : list A) (i j : Z) (v d : A) :
  i <> j -> znth (zupd l i v) j d = znth l j d.
Proof.
  intros H. unfold znth, zupd.
  destruct (j <? 0) eqn:Ej; [reflexivity|].
  destruct (i <? 0) eqn:Ei; [reflexivity|].
  apply Z.ltb_ge in Ei, Ej. apply nth_upd_nat_other. lia.
Qed.

(** The array the channel loop leaves: every index of the loop that lies in
    the array holds its channel's value, every other cell is untouched. *)
Lemma energy_fold_spec (g : Z -> float32) (l : list Z) :
  forall (e : list float32) (d : float32),
    let e' := fold_left (fun e ch => zupd e ch (g ch)) l e in
    length e' = length e
    /\ (forall ch, In ch l -> 0 <= ch < Z.of_nat (length e) ->
                   znth e' ch d = g ch)
    /\ (forall ch, ~ In ch l -> znth e' ch d = znth e ch d).
Proof.
  induction l as [|c0 l IH]; intros e d; cbn [fold_left].
  - split; [reflexivity|]. split; [intros ch [] | reflexivity].
  - destruct (IH (zupd e c0 (g c0)) d) as (Hlen & Hin & Hout).
    rewrite zupd_length in Hlen, Hin.
    split; [exact Hlen|]. split.
    + intros ch [<- | Hch] Hr.
      * destruct (in_dec Z.eq_dec c0 l) as [Hi | Hn]; [now apply Hin|].
        rewrite Hout by exact Hn. now apply znth_zupd_same.
      * now apply Hin.
    + intros ch Hn. cbn [In] in Hn.
      rewrite Hout by tauto. apply znth_zupd_other. tauto.
Qed.

(** X3. The frame that an iteration hands on (to the state machine, the
    audio callback and the circular buffer) has the samples and the time
    stamp of the frame received; its [energy_db] holds for each channel of
    the array that channel's energy, and the cells of [energy_db] beyond
    the channels are untouched. *)
Theorem voice_processing_step_annotates (w : world) (f : voice_frame_t)
  (m : bool) :
  let f' := snd (voice_processing_step w f m) in
  samples f' = samples f
  /\ timestamp_ms f' = timestamp_ms f
  /\ length (energy_db f') = length (energy_db f)
  /\ (forall ch,
        0 <= ch < VOICE_CHANNELS -> ch < Z.of_nat (length (energy_db f)) ->
        znth (energy_db f') ch F32.zero = channel_energy f ch)
  /\ (forall ch,
        VOICE_CHANNELS <= ch ->
        znth (energy_db f') ch F32.zero = znth (energy_db f) ch F32.zero).
Proof.
  destruct (voice_processing_step_stages_full w f m)
    as (cA & fA & Hstep & HfA & _).
  cbv zeta. rewrite Hstep. cbn [snd]. rewrite HfA. cbn.
  destruct (energy_fold_spec (channel_energy f) (range VOICE_CHANNELS)
              (energy_db f) F32.zero) as (Hlen & Hin & Hout).
  repeat split.
  - exact Hlen.
  - intros ch Hch Hlt. apply Hin; [apply range_In; lia | lia].
  - intros ch Hch. apply Hout. rewrite range_In. lia.
Qed.

Lemma step_stats_closed_form (w : world) (f : voice_frame_t) (m : bool) :
  let c := ctx w in
  let r := voice_processing_step w f m in
  let c' := ctx (fst r) in
  let s1 :=
    set_avg_energy_db (frame_avg_energy f)
      (set_frames_processed (to_u32 (frames_processed (stats c) + 1))
         (stats c)) in
  let s2 :=
    if vad_active c then s1 else set_noise_floor_db (noise_floor c') s1 in
  let s3 :=
    if vad_active c'
    then set_vad_activations (to_u32 (vad_activations (stats c) + 1)) s2
    else s2 in
  stats c'
  = if listening c && detection_fires w (snd r)
    then set_wake_detections (to_u32 (wake_detections (stats c) + 1)) s3
    else s3.
Proof.
  destruct (voice_processing_step_stages_full w f m)
    as (cA & fA & Hstep & _ & Hses & _ & Hstats & _).
  cbv zeta in *. rewrite Hstep. cbn [fst snd].
  pose proof (state_machine_keeps (set_ctx cA w) fA) as K1.
  pose proof (finish_step_keeps (state_machine (set_ctx cA w) fA) fA m)
    as [K2 _].
  pose proof (vad_fields_kept_trans _ _ _ K1 K2) as (Knf & _ & Kva & _).
  cbn [ctx set_ctx] in Knf, Kva.
  rewrite finish_step_stats, state_machine_stats. cbn [ctx set_ctx].
  change (detection_fires (set_ctx cA w) fA) with (detection_fires w fA).
  assert (Hl : listening cA = listening (ctx w))
    by (unfold listening; now destruct Hses as (-> & _)).
  rewrite Hl, Knf, Kva, Hstats.
  destruct (vad_active (ctx w)), (vad_active cA),
    (listening (ctx w) && detection_fires w fA); reflexivity.
Qed.

(** X4. The statistics block after one iteration, as the task writes it:
    the frame is counted, [avg_energy_db] is the frame's average energy,
    [noise_floor_db] takes the new noise floor when the frame arrived with
    the VAD inactive, an active decision and a wake detection are counted;
    [buffer_overruns] and [cpu_usage_percent] are never written. *)
Theorem voice_processing_step_stats (w : world) (f : voice_frame_t) (m : bool) :
  let c := ctx w in
  let r := voice_processing_step w f m in
  let c' := ctx (fst r) in
  let s1 :=
    set_avg_energy_db (frame_avg_energy f)
      (set_frames_processed (to_u32 (frames_processed (stats c) + 1))
         (stats c)) in
  let s2 :=
    if vad_active c then s1 else set_noise_floor_db (noise_floor c') s1 in
  let s3 :=
    if vad_active c'
    then set_vad_activations (to_u32 (vad_activations (stats c) + 1)) s2
    else s2 in
  stats c'
  = if listening c && detection_fires w (snd r)
    then set_wake_detections (to_u32 (wake_detections (stats c) + 1)) s3
    else s3.
Proof. exact (step_stats_closed_form w f m). Qed.

(** X5. [stats.noise_floor_db] mirrors the noise floor after every frame
    that arrives with the VAD inactive, and stays in step with it across a
    frame that arrives with the VAD active once it was. *)
Theorem noise_floor_db_in_step (w : world) (f : voice_frame_t) (m : bool)
  (H : vad_active (ctx w) = false
       \/ noise_floor_db (stats (ctx w)) = noise_floor (ctx w)) :
  let c' := ctx (fst (voice_processing_step w f m)) in
  noise_floor_db (stats c') = noise_floor c'.
Proof.
  pose proof (step_stats_closed_form w f m) as Hs.
  destruct (voice_processing_step_vad w f m) as ((Hn & _) & _).
  cbv zeta in *. rewrite Hs.
  destruct (vad_active (ctx w)) eqn:Ea.
  - destruct H as [H | H]; [discriminate|].
    rewrite Hn.
    destruct (listening _ && _), (vad_active (ctx (fst _))); cbn; exact H.
  - destruct (listening _ && _), (vad_active (ctx (fst _))); reflexivity.
Qed.

End StatsProofs.

Lemma noise_floor_db_in_step_witness :
  let c' := ctx (fst (Example.step Example.world0 (Example.silent 0))) in
  noise_floor_db (stats c') = noise_floor c'.
Proof.
  assert (H : vad_active (ctx Example.world0) = false
              \/ noise_floor_db (stats (ctx Example.world0))
                 = noise_floor (ctx Example.world0))
    by (left; vm_compute; reflexivity).
  exact (noise_floor_db_in_step (libm := ref_libm) (hdr := typical_header)
           Example.world0 (Example.silent 0) true H).
Defined.

(** ** Hysteresis of the VAD *)

Section HysteresisProofs.
Context {libm : Libm} {hdr : VoiceHeader}.

Lemma vad_frame_count_step (w : world) (f : voice_frame_t) (m : bool) :
  0 <= vad_frame_count (ctx w) ->
  let c' := ctx (fst (voice_processing_step w f m)) in
  0 <= vad_frame_count c' <= vad_frame_count (ctx w) + 1.
Proof.
  intros H. cbv zeta.
  destruct (voice_processing_step_vad w f m) as ((_ & Hc & _) & _).
  cbv zeta in Hc. rewrite Hc. destruct (_ && _); [|lia].
  unfold to_u32.
  pose proof (Z.mod_pos_bound (vad_frame_count (ctx w) + 1) (2 ^ 32)).
  pose proof (Z.mod_le (vad_frame_count (ctx w) + 1) (2 ^ 32)). lia.
Qed.

(** X6. The VAD needs [VAD_FRAME_THRESHOLD] frames in a row: starting from
    a frame count of [k], as after a reset ([k = 0]), fewer than
    [VAD_FRAME_THRESHOLD - k] frames, whatever they contain, leave
    [vad_active] false and count no activation. *)
Theorem vad_needs_consecutive_frames (frames : list (voice_frame_t * bool)) :
  forall (w : world)
    (HT : 0 <= VAD_FRAME_THRESHOLD < 2 ^ 32)
    (Hk : 0 <= vad_frame_count (ctx w))
    (Hn : vad_frame_count (ctx w) + Z.of_nat (length frames)
          < VAD_FRAME_THRESHOLD)
    (Hne : frames <> []),
    let w' := voice_processing_run w frames in
    vad_active (ctx w') = false
    /\ vad_activations (stats (ctx w')) = vad_activations (stats (ctx w)).
Proof.
  induction frames as [|[f m] rest IH]; intros w HT Hk Hn Hne;
    [contradiction|].
  cbn [voice_processing_run].
  change (length ((f, m) :: rest)) with (S (length rest)) in Hn.
  rewrite Nat2Z.inj_succ in Hn.
  pose proof (vad_frame_count_step w f m Hk) as Hc. cbv zeta in Hc.
  destruct (voice_processing_step_vad w f m) as ((_ & _ & Ha) & _ & Hv & _).
  cbv zeta in Ha, Hv.
  set (w1 := fst (voice_processing_step w f m)) in *.
  assert (Ha1 : vad_active (ctx w1) = false).
  { rewrite Ha. apply Z.leb_gt. rewrite to_u32_small by lia. lia. }
  rewrite Ha1 in Hv.
  destruct rest as [|fm rest].
  - cbn [voice_processing_run]. auto.
  - assert (Hne' : fm :: rest <> []) by discriminate.
    assert (Hn' : vad_frame_count (ctx w1) + Z.of_nat (length (fm :: rest))
                  < VAD_FRAME_THRESHOLD) by lia.
    destruct (IH w1 HT (proj1 Hc) Hn' Hne') as [I1 I2].
    split; [exact I1 | congruence].
Qed.

(** X7. A frame on which the VAD is active has passed both tests: its
    average energy exceeds the noise floor by more than 10 dB and at least
    [CHANNELS/2] channels are active. *)
Theorem vad_active_passed_both_tests (w : world) (f : voice_frame_t) (m : bool)
  (HT : 0 < VAD_FRAME_THRESHOLD < 2 ^ 32)
  (Hactive : vad_active (ctx (fst (voice_processing_step w f m))) = true) :
  let c' := ctx (fst (voice_processing_step w f m)) in
  F32.gtb (frame_avg_energy f) (F32.add (noise_floor c') (F32.of_Z 10)) = true
  /\ Z.quot VOICE_CHANNELS 2 <= active_channel_count (noise_floor (ctx w)) f.
Proof.
  destruct (voice_processing_step_vad w f m) as ((_ & Hc & Ha) & _).
  cbv zeta in *. rewrite Ha in Hactive. apply Z.leb_le in Hactive.
  rewrite to_u32_small in Hactive by lia.
  destruct (F32.gtb _ _ && _) eqn:E; [|lia].
  apply andb_true_iff in E. destruct E as [E1 E2].
  split; [exact E1 | now apply Z.leb_le].
Qed.

(** X8. [stats.frames_processed] counts the frames of a run, modulo
    2^32. *)
Theorem frames_processed_counts_frames (frames : list (voice_frame_t * bool)) :
  forall (w : world)
    (H : 0 <= frames_processed (stats (ctx w)) < 2 ^ 32),
    frames_processed (stats (ctx (voice_processing_run w frames)))
    = to_u32 (frames_processed (stats (ctx w)) + Z.of_nat (length frames)).
Proof.
  induction frames as [|[f m] rest IH]; intros w H.
  - cbn. rewrite Z.add_0_r. symmetry. now apply to_u32_small.
  - cbn [voice_processing_run length].
    destruct (voice_processing_step_vad w f m) as (_ & _ & _ & Hfp).
    cbv zeta in Hfp.
    rewrite IH by (rewrite Hfp; apply to_u32_range).
    rewrite Hfp. unfold to_u32. rewrite Zplus_mod_idemp_l. f_equal. lia.
Qed.

End HysteresisProofs.

Lemma vad_needs_consecutive_frames_witness :
  vad_active
    (ctx (Example.run Example.world0 [Example.loud 0; Example.loud 30]))
  = false.
Proof.
  assert (HT : 0 <= VAD_FRAME_THRESHOLD (VoiceHeader := typical_header) < 2 ^ 32)
    by (vm_compute; split; [discriminate | reflexivity]).
  assert (Hk : 0 <= vad_frame_count (ctx Example.world0))
    by (vm_compute; discriminate).
  assert (Hn : vad_frame_count (ctx Example.world0)
               + Z.of_nat
                   (length
                      (map (fun f => (f, true))
                         [Example.loud 0; Example.loud 30]))
               < VAD_FRAME_THRESHOLD (VoiceHeader := typical_header))
    by (vm_compute; reflexivity).
  assert (Hne : map (fun f => (f, true)) [Example.loud 0; Example.loud 30]
                <> [])
    by discriminate.
  exact (proj1
           (vad_needs_consecutive_frames (libm := ref_libm)
              (hdr := typical_header) _ Example.world0 HT Hk Hn Hne)).
Defined.

Lemma vad_active_passed_both_tests_witness :
  let w := mk_world Example.ctx_active 3 [] in
  Z.quot (VOICE_CHANNELS (VoiceHeader := typical_header)) 2
  <= active_channel_count (libm := ref_libm) (hdr := typical_header)
       (noise_floor (ctx w)) (Example.loud 90).
Proof.
  assert (HT : 0 < VAD_FRAME_THRESHOLD (VoiceHeader := typical_header) < 2 ^ 32)
    by (vm_compute; split; reflexivity).
  assert (Ha : vad_active
                 (ctx
                    (fst
                       (voice_processing_step (libm := ref_libm)
                          (hdr := typical_header)
                          (mk_world Example.ctx_active 3 []) (Example.loud 90)
                          true))) = true)
    by (vm_compute; reflexivity).
  exact (proj2
           (vad_active_passed_both_tests (libm := ref_libm)
              (hdr := typical_header) (mk_world Example.ctx_active 3 [])
              (Example.loud 90) true HT Ha)).
Defined.

Lemma frames_processed_counts_frames_witness :
  frames_processed
    (stats (ctx (Example.run Example.world0 [Example.loud 0; Example.loud 30])))
  = to_u32 (frames_processed (stats (ctx Example.world0)) + 2).
Proof.
  assert (H : 0 <= frames_processed (stats (ctx Example.world0)) < 2 ^ 32)
    by (vm_compute; split; [discriminate | reflexivity]).
  exact (frames_processed_counts_frames (libm := ref_libm)
           (hdr := typical_header)
           (map (fun f => (f, true)) [Example.loud 0; Example.loud 30])
           Example.world0 H).
Defined.

(** ** Bounds of the recording sink *)

Section SinkProofs.
Context {libm : Libm} {hdr : VoiceHeader}.

Lemma memcpy_at_prefix {A : Type} (dst src : list A) (off len : Z) :
  0 <= off -> (Z.to_nat off <= length dst)%nat ->
  firstn (Z.to_nat off) (memcpy_at dst off src len)
  = firstn (Z.to_nat off) dst.
Proof.
  intros Hoff Hfit. unfold memcpy_at.
  rewrite firstn_app, length_firstn.
  replace (Z.to_nat off - Nat.min (Z.to_nat off) (length dst))%nat
    with 0%nat by lia.
  rewrite firstn_O, app_nil_r, firstn_firstn. f_equal. lia.
Qed.

(** The append keeps the recording within its buffer and what was recorded
    before in place; a voiced frame that does not fit is dropped. *)
Lemma record_append_bounds (c : voice_context) (f : voice_frame_t) :
  0 <= VOICE_FRAME_SIZE ->
  recording_capacity c + VOICE_FRAME_SIZE * 2 < 2 ^ 32 ->
  recording_well_formed c ->
  let c' := record_append c f in
  recording_well_formed c'
  /\ recording_capacity c' = recording_capacity c
  /\ recording_size c <= recording_size c'
  /\ firstn (Z.to_nat (recording_size c)) (recording_buffer c')
     = firstn (Z.to_nat (recording_size c)) (recording_buffer c)
  /\ (recording_capacity c < recording_size c + VOICE_FRAME_SIZE * 2 ->
      c' = c).
Proof.
  intros Hfs Hcap ((Hs0 & Hs1) & Hlen). cbv zeta.
  unfold record_append, recording_well_formed.
  destruct (frame_vad_active f && is_recording c); [|repeat split; tauto || lia].
  cbv zeta.
  assert (Hfb : to_size (VOICE_FRAME_SIZE * 2) = VOICE_FRAME_SIZE * 2)
    by (apply to_size_small; lia).
  rewrite Hfb.
  assert (Hsum : to_size (recording_size c + VOICE_FRAME_SIZE * 2)
                 = recording_size c + VOICE_FRAME_SIZE * 2)
    by (apply to_size_small; lia).
  replace (recording_size
             (set_recording_buffer
                (memcpy_at (recording_buffer c) (recording_size c)
                   (bytes_of_int16s (mono_frame c f)) (VOICE_FRAME_SIZE * 2))
                c)) with (recording_size c) by (now destruct c).
  rewrite Hsum.
  destruct (recording_size c + VOICE_FRAME_SIZE * 2 <=? recording_capacity c)
    eqn:E; [|repeat split; tauto || lia].
  apply Z.leb_le in E.
  pose proof (bytes_of_int16s_length (mono_frame c f)) as Hmf.
  rewrite mono_frame_length in Hmf.
  set (buf' := memcpy_at (recording_buffer c) (recording_size c)
                 (bytes_of_int16s (mono_frame c f)) (VOICE_FRAME_SIZE * 2)).
  assert (Hb1 : length buf' = length (recording_buffer c))
    by (unfold buf'; apply memcpy_at_length; lia).
  assert (Hb2 : firstn (Z.to_nat (recording_size c)) buf'
                = firstn (Z.to_nat (recording_size c)) (recording_buffer c))
    by (unfold buf'; apply memcpy_at_prefix; lia).
  destruct c. cbn in *. rewrite ?Hsum.
  repeat split; try lia; try assumption.
Qed.

Lemma process_wake_word_detection_recording (w : world) (f : voice_frame_t) :
  let c' := ctx (process_wake_word_detection w f) in
  recording_buffer c' = recording_buffer (ctx w)
  /\ recording_size c' = recording_size (ctx w)
  /\ recording_capacity c' = recording_capacity (ctx w)
  /\ is_recording c' = is_recording (ctx w).
Proof.
  unfold process_wake_word_detection. cbv zeta.
  cbn [ctx simulation_counter trace].
  destruct (frame_vad_active f && _); [|repeat split; reflexivity].
  destruct w as [c n tr]. destruct c. cbn.
  destruct (first_callback _ _); repeat split; reflexivity.
Qed.

(** The switch keeps the recording within its buffer. *)
Lemma state_machine_bounds (w : world) (f : voice_frame_t) :
  0 <= VOICE_FRAME_SIZE ->
  recording_capacity (ctx w) + VOICE_FRAME_SIZE * 2 < 2 ^ 32 ->
  recording_well_formed (ctx w) ->
  let c := ctx w in
  let c' := ctx (state_machine w f) in
  recording_well_formed c'
  /\ recording_capacity c' = recording_capacity c
  /\ (state c <> VOICE_STATE_WAKE_DETECTED ->
      recording_size c <= recording_size c'
      /\ firstn (Z.to_nat (recording_size c)) (recording_buffer c')
         = firstn (Z.to_nat (recording_size c)) (recording_buffer c))
  /\ (state c = VOICE_STATE_RECORDING ->
      recording_capacity c < recording_size c + VOICE_FRAME_SIZE * 2 ->
      recording_size c' = recording_size c
      /\ recording_buffer c' = recording_buffer c).
Proof.
  intros Hfs Hcap Hwf. cbv zeta. unfold state_machine.
  destruct (state (ctx w)) eqn:Es.
  1,2: destruct (process_wake_word_detection_recording w f)
         as (H1 & H2 & H3 & _); cbv zeta in H1, H2, H3;
       unfold recording_well_formed in *; rewrite H1, H2, H3;
       repeat split; try tauto; try discriminate; try reflexivity; lia.
  - (* WAKE_DETECTED *)
    cbn [ctx set_ctx]. rewrite record_frame_halves, record_timeout_cases.
    set (c1 := set_is_recording true _).
    assert (Hwf1 : recording_well_formed c1).
    { destruct Hwf as ((H0 & H1) & H2). unfold recording_well_formed.
      destruct (ctx w). cbn in *. lia. }
    assert (Hcap1 : recording_capacity c1 = recording_capacity (ctx w))
      by (now destruct (ctx w)).
    destruct (record_append_bounds c1 f Hfs) as (B1 & B2 & _);
      [rewrite Hcap1; exact Hcap | exact Hwf1 |].
    cbv zeta in B1, B2. unfold recording_well_formed in *.
    destruct (record_append c1 f). cbn in *.
    destruct (_ <? _); cbn; repeat split; try tauto; try lia; congruence.
  - (* RECORDING *)
    cbn [ctx set_ctx]. rewrite record_frame_halves, record_timeout_cases.
    destruct (record_append_bounds (ctx w) f Hfs Hcap Hwf)
      as (B1 & B2 & B3 & B4 & B5).
    cbv zeta in B1, B2, B3, B4, B5. unfold recording_well_formed in *.
    destruct (_ <? _); cbn.
    + destruct (record_append (ctx w) f) eqn:Ea. cbn in *.
      split; [tauto|]. split; [assumption|].
      split; [intros _; split; [lia | assumption]|].
      intros _ Hfull. specialize (B5 Hfull). rewrite <- B5. cbn.
      split; reflexivity.
    + split; [exact B1|]. split; [exact B2|].
      split; [intros _; split; [exact B3 | exact B4]|].
      intros _ Hfull. rewrite (B5 Hfull). split; reflexivity.
  - split; [exact Hwf|].
    repeat split; try discriminate; try reflexivity; lia.
  - split; [exact Hwf|].
    repeat split; try discriminate; try reflexivity; lia.
Qed.

Lemma recording_well_formed_kept (c c' : voice_context) :
  session_fields_kept c c' -> recording_well_formed c ->
  recording_well_formed c'.
Proof.
  unfold session_fields_kept, recording_well_formed.
  intros (_ & H2 & H3 & H4 & _). now rewrite H2, H3, H4.
Qed.

Lemma voice_processing_step_bounds (w : world) (f : voice_frame_t) (m : bool) :
  0 <= VOICE_FRAME_SIZE ->
  recording_capacity (ctx w) + VOICE_FRAME_SIZE * 2 < 2 ^ 32 ->
  recording_well_formed (ctx w) ->
  let c := ctx w in
  let c' := ctx (fst (voice_processing_step w f m)) in
  recording_well_formed c'
  /\ recording_capacity c' = recording_capacity c
  /\ (state c <> VOICE_STATE_WAKE_DETECTED ->
      recording_size c <= recording_size c'
      /\ firstn (Z.to_nat (recording_size c)) (recording_buffer c')
         = firstn (Z.to_nat (recording_size c)) (recording_buffer c))
  /\ (state c = VOICE_STATE_RECORDING ->
      recording_capacity c < recording_size c + VOICE_FRAME_SIZE * 2 ->
      recording_size c' = recording_size c
      /\ recording_buffer c' = recording_buffer c).
Proof.
  intros Hfs Hcap Hwf.
  destruct (voice_processing_step_stages w f m)
    as (cA & fA & Hstep & _ & _ & Hses & _).
  cbv zeta. rewrite Hstep. cbn [fst].
  pose proof (recording_well_formed_kept _ _ Hses Hwf) as HwfA.
  destruct Hses as (Hst & Hbuf & Hsz & Hc & _).
  destruct (state_machine_bounds (set_ctx cA w) fA Hfs) as (B1 & B2 & B3 & B4);
    [cbn [ctx set_ctx]; now rewrite Hc | exact HwfA |].
  cbv zeta in B1, B2, B3, B4. cbn [ctx set_ctx] in B2, B3, B4.
  pose proof (finish_step_keeps (state_machine (set_ctx cA w) fA) fA m)
    as [_ K].
  pose proof (recording_well_formed_kept _ _ K B1) as Hwf'.
  destruct K as (_ & Kbuf & Ksz & Kc & _).
  split; [exact Hwf'|].
  rewrite Kbuf, Ksz, Kc. rewrite Hst, Hbuf, Hsz, Hc in *.
  repeat split; try tauto; try congruence.
Qed.

(** X9. The recording never leaves its buffer: over any run of the task,
    [recording_size] stays between 0 and [recording_capacity], the buffer
    keeps its length and the capacity its value. *)
Theorem recording_stays_in_bounds (frames : list (voice_frame_t * bool)) :
  forall (w : world)
    (Hfs : 0 <= VOICE_FRAME_SIZE)
    (Hcap : recording_capacity (ctx w) + VOICE_FRAME_SIZE * 2 < 2 ^ 32)
    (Hwf : recording_well_formed (ctx w)),
    let c' := ctx (voice_processing_run w frames) in
    recording_well_formed c'
    /\ recording_capacity c' = recording_capacity (ctx w).
Proof.
  induction frames as [|[f m] rest IH]; intros w Hfs Hcap Hwf.
  - cbn. auto.
  - cbn [voice_processing_run].
    destruct (voice_processing_step_bounds w f m Hfs Hcap Hwf) as (B1 & B2 & _).
    cbv zeta in B1, B2.
    destruct (IH (fst (voice_processing_step w f m)) Hfs) as [I1 I2];
      [now rewrite B2 | exact B1 |].
    cbv zeta in I1, I2. split; [exact I1 | congruence].
Qed.

(** X10. The recording is append-only: an iteration that does not start a
    new session (the state is not WAKE_DETECTED) never shrinks the
    recording and leaves every byte recorded so far in place. *)
Theorem recording_is_append_only (w : world) (f : voice_frame_t) (m : bool)
  (Hfs : 0 <= VOICE_FRAME_SIZE)
  (Hcap : recording_capacity (ctx w) + VOICE_FRAME_SIZE * 2 < 2 ^ 32)
  (Hwf : recording_well_formed (ctx w))
  (Hst : state (ctx w) <> VOICE_STATE_WAKE_DETECTED) :
  let c := ctx w in
  let c' := ctx (fst (voice_processing_step w f m)) in
  recording_size c <= recording_size c'
  /\ firstn (Z.to_nat (recording_size c)) (recording_buffer c')
     = firstn (Z.to_nat (recording_size c)) (recording_buffer c).
Proof.
  destruct (voice_processing_step_bounds w f m Hfs Hcap Hwf) as (_ & _ & B & _).
  exact (B Hst).
Qed.

(** X11. When the recording buffer has no room for another frame, a frame
    processed in RECORDING is dropped: the recording and its size are
    unchanged. *)
Theorem recording_full_drops_frame (w : world) (f : voice_frame_t) (m : bool)
  (Hfs : 0 <= VOICE_FRAME_SIZE)
  (Hcap : recording_capacity (ctx w) + VOICE_FRAME_SIZE * 2 < 2 ^ 32)
  (Hwf : recording_well_formed (ctx w))
  (Hst : state (ctx w) = VOICE_STATE_RECORDING)
  (Hfull : recording_capacity (ctx w)
           < recording_size (ctx w) + VOICE_FRAME_SIZE * 2) :
  let c' := ctx (fst (voice_processing_step w f m)) in
  recording_size c' = recording_size (ctx w)
  /\ recording_buffer c' = recording_buffer (ctx w).
Proof.
  destruct (voice_processing_step_bounds w f m Hfs Hcap Hwf) as (_ & _ & _ & B).
  exact (B Hst Hfull).
Qed.

End SinkProofs.

Lemma typical_frame_size_nonneg :
  0 <= VOICE_FRAME_SIZE (VoiceHeader := typical_header).
Proof. vm_compute. discriminate. Qed.

Lemma recording_stays_in_bounds_witness :
  recording_well_formed
    (ctx
       (voice_processing_run (libm := ref_libm) (hdr := typical_header)
          Example.session_world Example.session_input)).
Proof.
  assert (Hcap : recording_capacity (ctx Example.session_world)
                 + VOICE_FRAME_SIZE (VoiceHeader := typical_header) * 2
                 < 2 ^ 32)
    by (vm_compute; reflexivity).
  assert (Hwf : recording_well_formed (ctx Example.session_world))
    by (vm_compute; repeat split; try discriminate; reflexivity).
  exact (proj1
           (recording_stays_in_bounds (libm := ref_libm)
              (hdr := typical_header) Example.session_input
              Example.session_world typical_frame_size_nonneg Hcap Hwf)).
Defined.

Lemma recording_is_append_only_witness :
  let w := Example.world_recorded in
  let r := Example.step w (Example.loud 90) in
  (recording_size (ctx w) = 960
   /\ frame_vad_active (snd r) = true
   /\ recording_size (ctx (fst r)) = 1920)
  /\ firstn (Z.to_nat (recording_size (ctx w))) (recording_buffer (ctx (fst r)))
     = firstn (Z.to_nat (recording_size (ctx w))) (recording_buffer (ctx w)).
Proof.
  assert (Hcap : recording_capacity (ctx Example.world_recorded)
                 + VOICE_FRAME_SIZE (VoiceHeader := typical_header) * 2
                 < 2 ^ 32)
    by (vm_compute; reflexivity).
  assert (Hwf : recording_well_formed (ctx Example.world_recorded))
    by (vm_compute; repeat split; try discriminate; reflexivity).
  assert (Hst : state (ctx Example.world_recorded)
                <> VOICE_STATE_WAKE_DETECTED)
    by (vm_compute; discriminate).
  split; [vm_compute; repeat split; reflexivity|].
  exact (proj2
           (recording_is_append_only (libm := ref_libm)
              (hdr := typical_header) Example.world_recorded (Example.loud 90)
              true typical_frame_size_nonneg Hcap Hwf Hst)).
Defined.

Lemma recording_full_drops_frame_witness :
  let w := Example.world_full in
  let r := Example.step w (Example.loud 90) in
  (is_recording (ctx w) = true
   /\ frame_vad_active (snd r) = true
   /\ recording_size (ctx w) = 319500)
  /\ recording_size (ctx (fst r)) = recording_size (ctx w)
  /\ recording_buffer (ctx (fst r)) = recording_buffer (ctx w).
Proof.
  assert (Hcap : recording_capacity (ctx Example.world_full)
                 + VOICE_FRAME_SIZE (VoiceHeader := typical_header) * 2
                 < 2 ^ 32)
    by (vm_compute; reflexivity).
  assert (Hwf : recording_well_formed (ctx Example.world_full))
    by (vm_compute; repeat split; try discriminate; reflexivity).
  assert (Hst : state (ctx Example.world_full) = VOICE_STATE_RECORDING)
    by (vm_compute; reflexivity).
  assert (Hfull : recording_capacity (ctx Example.world_full)
                  < recording_size (ctx Example.world_full)
                    + VOICE_FRAME_SIZE (VoiceHeader := typical_header) * 2)
    by (vm_compute; reflexivity).
  split; [vm_compute; repeat split; reflexivity|].
  exact (recording_full_drops_frame (libm := ref_libm)
           (hdr := typical_header) Example.world_full (Example.loud 90)
           true typical_frame_size_nonneg Hcap Hwf Hst Hfull).
Defined.

(** ** Retrieval of the recording *)

Section RetrievalProofs.

Lemma get_recording_nonempty (c : voice_context) (buf : list Z) (n bw : Z) :
  recording_size c <> 0 ->
  voice_get_recording (Some c) (Some buf) n (Some bw)
  = mk_get_recording_result VOICE_OK
      (Some (set_state VOICE_STATE_IDLE (set_recording_size 0 c)))
      (Some (memcpy_at buf 0 (recording_buffer c) (Z.min (recording_size c) n)))
      (Some (Z.min (recording_size c) n)).
Proof.
  intros H. unfold voice_get_recording.
  destruct (recording_size c =? 0) eqn:E; [apply Z.eqb_eq in E; contradiction|].
  assert (Hm : (if recording_size c <? n then recording_size c else n)
               = Z.min (recording_size c) n).
  { destruct (recording_size c <? n) eqn:E2;
      [apply Z.ltb_lt in E2 | apply Z.ltb_ge in E2]; lia. }
  now rewrite Hm.
Qed.

(** X12. [voice_get_recording] on a pending recording of [size] bytes, with
    a buffer of [n] bytes: it reports [k = min(size, n)] bytes, the first
    [k] bytes of the caller's buffer are the first [k] bytes recorded and
    the rest of the buffer is untouched; the recording is then empty (also
    when it was truncated, [n < size]) and the state IDLE, while
    [is_recording] is left as it was; a second call reports 0 bytes and
    changes nothing. *)
Theorem voice_get_recording_copies (c : voice_context) (buf : list Z)
  (n bw : Z)
  (Hne : 0 < recording_size c)
  (Hn : 0 <= n)
  (Hrec : recording_size c <= Z.of_nat (length (recording_buffer c))) :
  let k := Z.min (recording_size c) n in
  let r := voice_get_recording (Some c) (Some buf) n (Some bw) in
  gr_error r = VOICE_OK
  /\ gr_bytes_written r = Some k
  /\ exists c' buf',
       gr_ctx r = Some c' /\ gr_buffer r = Some buf'
       /\ firstn (Z.to_nat k) buf' = firstn (Z.to_nat k) (recording_buffer c)
       /\ skipn (Z.to_nat k) buf' = skipn (Z.to_nat k) buf
       /\ recording_size c' = 0
       /\ state c' = VOICE_STATE_IDLE
       /\ is_recording c' = is_recording c
       /\ recording_buffer c' = recording_buffer c
       /\ voice_get_recording (Some c') (Some buf') n (Some k)
          = mk_get_recording_result VOICE_OK (Some c') (Some buf') (Some 0).
Proof.
  intros k r. unfold r. rewrite get_recording_nonempty by lia. fold k.
  cbn [gr_error gr_bytes_written gr_ctx gr_buffer].
  split; [reflexivity|]. split; [reflexivity|].
  eexists. eexists. split; [reflexivity|]. split; [reflexivity|].
  assert (Hk : 0 <= k <= Z.of_nat (length (recording_buffer c)))
    by (unfold k; lia).
  assert (Hlen : length (firstn (Z.to_nat k) (recording_buffer c)) = Z.to_nat k)
    by (rewrite length_firstn; lia).
  unfold memcpy_at. cbn [Z.to_nat firstn app]. rewrite Z.add_0_l.
  split; [|split].
  - rewrite firstn_app, Hlen, Nat.sub_diag, firstn_O, app_nil_r.
    apply firstn_all2. lia.
  - rewrite skipn_app, Hlen, Nat.sub_diag. cbn [skipn].
    rewrite skipn_all2 by lia. reflexivity.
  - destruct c; cbn. repeat split; reflexivity.
Qed.

(** X13. [voice_get_recording] with a null context, buffer or
    [bytes_written] pointer returns [VOICE_ERR_INVALID_PARAM] and changes
    neither the context nor what the caller's pointers point to. *)
Theorem voice_get_recording_null (p : option voice_context)
  (buffer : option (list Z)) (n : Z) (bytes_written : option Z)
  (H : p = None \/ buffer = None \/ bytes_written = None) :
  voice_get_recording p buffer n bytes_written
  = mk_get_recording_result VOICE_ERR_INVALID_PARAM p buffer bytes_written.
Proof.
  destruct H as [-> | [-> | ->]]; unfold voice_get_recording;
    [ reflexivity
    | destruct p; reflexivity
    | destruct p, buffer; reflexivity ].
Qed.

(** X14. A session closes and reopens: after [voice_stop_recording] on a
    context with a pending recording, [voice_get_recording] hands the
    recording over and leaves IDLE with [is_recording] false, and
    [voice_start_recording] then succeeds. *)
Theorem session_cycle (c : voice_context) (buf : list Z)
  (n max_duration_ms now : Z)
  (Hne : 0 < recording_size c) :
  let c1 := after_call c (voice_stop_recording (Some c)) in
  let r := voice_get_recording (Some c1) (Some buf) n (Some 0) in
  state c1 = VOICE_STATE_PROCESSING
  /\ exists c2,
       gr_ctx r = Some c2
       /\ gr_bytes_written r = Some (Z.min (recording_size c) n)
       /\ state c2 = VOICE_STATE_IDLE
       /\ is_recording c2 = false
       /\ recording_size c2 = 0
       /\ fst (voice_start_recording (Some c2) max_duration_ms now) = VOICE_OK.
Proof.
  cbv zeta. unfold after_call, voice_stop_recording. cbn [fst snd].
  split; [reflexivity|].
  rewrite get_recording_nonempty by (destruct c; cbn in *; lia).
  eexists. cbn [gr_ctx gr_bytes_written].
  split; [reflexivity|]. destruct c; cbn. repeat split; reflexivity.
Qed.

(** X15. [voice_reset] recovers the session from every state: right after
    it, [voice_start_recording] succeeds and the session is RECORDING with
    an empty recording. *)
Theorem reset_then_start_recording (c : voice_context)
  (max_duration_ms now : Z) :
  let c1 := after_call c (voice_reset (Some c)) in
  exists c2,
    voice_start_recording (Some c1) max_duration_ms now = (VOICE_OK, Some c2)
    /\ state c2 = VOICE_STATE_RECORDING
    /\ recording_size c2 = 0
    /\ is_recording c2 = true
    /\ recording_buffer c2 = recording_buffer c
    /\ noise_floor c2 = noise_floor c.
Proof.
  destruct c. unfold after_call, voice_reset, voice_start_recording.
  cbn -[to_u32]. eexists. split; [reflexivity|]. cbn -[to_u32].
  repeat split; reflexivity.
Qed.

End RetrievalProofs.

Lemma voice_get_recording_copies_witness :
  gr_bytes_written
    (voice_get_recording (Some (set_recording_size 960 Example.ctx_recording))
       (Some (repeat 7 100%nat)) 100 (Some 0))
  = Some (Z.min (recording_size (set_recording_size 960 Example.ctx_recording))
            100).
Proof.
  assert (H1 : 0 < recording_size (set_recording_size 960 Example.ctx_recording))
    by (vm_compute; reflexivity).
  assert (H2 : 0 <= 100) by discriminate.
  assert (H3 : recording_size (set_recording_size 960 Example.ctx_recording)
               <= Z.of_nat
                    (length
                       (recording_buffer
                          (set_recording_size 960 Example.ctx_recording))))
    by (vm_compute; discriminate).
  pose proof
    (voice_get_recording_copies (set_recording_size 960 Example.ctx_recording)
       (repeat 7 100%nat) 100 0 H1 H2 H3) as K.
  cbv zeta in K. exact (proj1 (proj2 K)).
Defined.

Lemma voice_get_recording_null_witness :
  voice_get_recording (Some Example.ctx0) None 16 (Some 3)
  = mk_get_recording_result VOICE_ERR_INVALID_PARAM (Some Example.ctx0) None
      (Some 3).
Proof.
  exact (voice_get_recording_null (Some Example.ctx0) None 16 (Some 3)
           (or_intror (or_introl eq_refl))).
Defined.

Lemma session_cycle_witness :
  state
    (after_call (set_recording_size 960 Example.ctx_recording)
       (voice_stop_recording
          (Some (set_recording_size 960 Example.ctx_recording))))
  = VOICE_STATE_PROCESSING.
Proof.
  assert (H1 : 0 < recording_size (set_recording_size 960 Example.ctx_recording))
    by (vm_compute; reflexivity).
  pose proof
    (session_cycle (set_recording_size 960 Example.ctx_recording)
       (repeat 0 2048%nat) 2048 5000 0 H1) as K.
  cbv zeta in K. exact (proj1 K).
Defined.

(** ** The wake-word registry *)

Section RegistryProofs.
Context {hdr : VoiceHeader}.

Lemma range_from_app (a b : nat) (s : Z) :
  range_from s (a + b) = range_from s a ++ range_from (s + Z.of_nat a) b.
Proof.
  revert s. induction a as [|a IH]; intros s.
  - cbn [Nat.add range_from app]. now rewrite Z.add_0_r.
  - cbn [Nat.add range_from app]. rewrite IH. do 3 f_equal. lia.
Qed.

Lemma range_succ (n : Z) : 0 <= n -> range (n + 1) = range n ++ [n].
Proof.
  intros H. unfold range.
  replace (Z.to_nat (n + 1)) with (Z.to_nat n + 1)%nat by lia.
  rewrite range_from_app. cbn [range_from]. do 2 f_equal. lia.
Qed.

Lemma first_callback_app (ws : list wake_word_model_t) (l1 l2 : list Z) :
  first_callback ws (l1 ++ l2)
  = match first_callback ws l1 with
    | Some k => Some k
    | None => first_callback ws l2
    end.
Proof.
  induction l1 as [|i l1 IH]; cbn [app first_callback]; [reflexivity|].
  now destruct (ww_callback (znth ws i no_wake_word)).
Qed.

Lemma first_callback_ext (ws ws' : list wake_word_model_t) (idx : list Z) :
  (forall i, In i idx -> znth ws' i no_wake_word = znth ws i no_wake_word) ->
  first_callback ws' idx = first_callback ws idx.
Proof.
  induction idx as [|i idx IH]; intros H; cbn [first_callback]; [reflexivity|].
  rewrite H by (left; reflexivity).
  rewrite IH by (intros j Hj; apply H; now right). reflexivity.
Qed.

(** X16. On a registry array of [MAX_WAKE_WORDS] entries,
    [voice_register_wake_word] refuses a full registry and leaves the
    context alone; otherwise it stores the model at the first free index,
    keeps every other entry, and counts it. A new entry never pre-empts an
    earlier one: the callback the trigger invokes is still that of the
    first earlier entry that has one, and the new entry's only if there is
    none. *)
Theorem voice_register_wake_word_appends (c : voice_context)
  (m : wake_word_model_t)
  (Hn : 0 <= num_wake_words (config c))
  (Hlen : Z.of_nat (length (wake_words (config c))) = MAX_WAKE_WORDS) :
  let n := num_wake_words (config c) in
  let ws := wake_words (config c) in
  if MAX_WAKE_WORDS <=? n
  then
    voice_register_wake_word (Some c) (Some m)
    = (VOICE_ERR_INVALID_PARAM, Some c)
  else
    exists c',
      voice_register_wake_word (Some c) (Some m) = (VOICE_OK, Some c')
      /\ num_wake_words (config c') = n + 1
      /\ znth (wake_words (config c')) n no_wake_word = m
      /\ (forall j, j <> n ->
            znth (wake_words (config c')) j no_wake_word
            = znth ws j no_wake_word)
      /\ length (wake_words (config c')) = length ws
      /\ first_callback (wake_words (config c')) (range (n + 1))
         = match first_callback ws (range n) with
           | Some k => Some k
           | None => ww_callback m
           end.
Proof.
  intros n ws. unfold voice_register_wake_word. fold n ws.
  destruct (MAX_WAKE_WORDS <=? n) eqn:E; [reflexivity|].
  apply Z.leb_gt in E.
  assert (Hidx : 0 <= n < Z.of_nat (length ws)) by (unfold n, ws in *; lia).
  eexists. split; [reflexivity|].
  assert (Hcfg : forall g, config (set_config g c) = g) by (now destruct c).
  rewrite Hcfg. cbn [num_wake_words wake_words].
  split; [reflexivity|].
  split; [apply znth_zupd_same; exact Hidx|].
  split; [intros j Hj; apply znth_zupd_other; congruence|].
  split; [apply zupd_length|].
  rewrite range_succ by (unfold n; lia).
  rewrite first_callback_app.
  rewrite (first_callback_ext ws (zupd ws n m)).
  - destruct (first_callback ws (range n)); [reflexivity|].
    cbn [first_callback]. rewrite znth_zupd_same by exact Hidx.
    now destruct (ww_callback m).
  - intros i Hi. apply range_In in Hi. apply znth_zupd_other. lia.
Qed.

End RegistryProofs.

Lemma voice_register_wake_word_appends_witness :
  (* a full registry *)
  (num_wake_words (config Example.ctx_full_registry) = 4
   /\ voice_register_wake_word (hdr := typical_header)
        (Some Example.ctx_full_registry)
        (Some (Example.wake_word (Some 7%nat)))
      = (VOICE_ERR_INVALID_PARAM, Some Example.ctx_full_registry))
  /\ (* a registry whose only entry has callback 3 *)
  (first_callback (wake_words (config Example.ctx_one_word))
     (range (num_wake_words (config Example.ctx_one_word))) = Some 3%nat
   /\ exists c',
        voice_register_wake_word (hdr := typical_header)
          (Some Example.ctx_one_word)
          (Some (Example.wake_word (Some 7%nat))) = (VOICE_OK, Some c')
        /\ num_wake_words (config c') = 2
        /\ first_callback (wake_words (config c'))
             (range (num_wake_words (config c'))) = Some 3%nat).
Proof.
  assert (Hn4 : 0 <= num_wake_words (config Example.ctx_full_registry))
    by (vm_compute; discriminate).
  assert (Hl4 : Z.of_nat (length (wake_words (config Example.ctx_full_registry)))
                = MAX_WAKE_WORDS (VoiceHeader := typical_header))
    by (vm_compute; reflexivity).
  assert (Hn1 : 0 <= num_wake_words (config Example.ctx_one_word))
    by (vm_compute; discriminate).
  assert (Hl1 : Z.of_nat (length (wake_words (config Example.ctx_one_word)))
                = MAX_WAKE_WORDS (VoiceHeader := typical_header))
    by (vm_compute; reflexivity).
  pose proof
    (voice_register_wake_word_appends (hdr := typical_header)
       Example.ctx_full_registry (Example.wake_word (Some 7%nat)) Hn4 Hl4)
    as K4.
  pose proof
    (voice_register_wake_word_appends (hdr := typical_header)
       Example.ctx_one_word (Example.wake_word (Some 7%nat)) Hn1 Hl1)
    as K1.
  cbv zeta in K4, K1.
  assert (E4 : (MAX_WAKE_WORDS (VoiceHeader := typical_header)
                <=? num_wake_words (config Example.ctx_full_registry)) = true)
    by (vm_compute; reflexivity).
  assert (E1 : (MAX_WAKE_WORDS (VoiceHeader := typical_header)
                <=? num_wake_words (config Example.ctx_one_word)) = false)
    by (vm_compute; reflexivity).
  assert (N1 : num_wake_words (config Example.ctx_one_word) = 1)
    by (vm_compute; reflexivity).
  assert (F1 : first_callback (wake_words (config Example.ctx_one_word))
                 (range (num_wake_words (config Example.ctx_one_word)))
               = Some 3%nat)
    by (vm_compute; reflexivity).
  rewrite E4 in K4. rewrite E1 in K1.
  destruct K1 as (c' & K11 & K12 & _ & _ & _ & K16).
  split; [split; [vm_compute; reflexivity | exact K4]|].
  split; [exact F1|].
  exists c'. split; [exact K11|].
  split; [rewrite K12, N1; reflexivity|].
  rewrite K12, K16, F1. reflexivity.
Defined.

(** ** Events of an iteration and the circular buffer *)

Section RingProofs.
Context {libm : Libm} {hdr : VoiceHeader}.

Lemma state_machine_ring (w : world) (f : voice_frame_t) :
  circular_buffer (ctx (state_machine w f)) = circular_buffer (ctx w)
  /\ buffer_write_idx (ctx (state_machine w f)) = buffer_write_idx (ctx w).
Proof.
  unfold state_machine.
  destruct (state (ctx w)) eqn:Es.
  1,2: unfold process_wake_word_detection; cbv zeta;
       cbn [ctx simulation_counter trace];
       destruct (frame_vad_active f && _); [|split; reflexivity];
       destruct w as [c n tr]; destruct c; cbn;
       destruct (first_callback _ _); split; reflexivity.
  - cbn [ctx set_ctx]. rewrite record_frame_halves, record_timeout_cases.
    match goal with |- context [record_append ?c f] =>
      destruct (record_append_shape c f) as (b & s & ->) end.
    destruct (ctx w). cbn. destruct (_ <? _); split; reflexivity.
  - cbn [ctx set_ctx]. rewrite record_frame_halves, record_timeout_cases.
    destruct (record_append_shape (ctx w) f) as (b & s & ->).
    destruct (ctx w). cbn. destruct (_ <? _); split; reflexivity.
  - split; reflexivity.
  - split; reflexivity.
Qed.

Lemma vad_stage_ring (c : voice_context) (f : voice_frame_t) :
  let c' := snd (fst (detect_voice_activity (vad_input c) f)) in
  circular_buffer c' = circular_buffer c
  /\ buffer_write_idx c' = buffer_write_idx c.
Proof.
  destruct (detect_voice_activity_spec (vad_input c) f) as [e' Hd].
  cbv zeta in *. rewrite Hd. cbn [fst snd].
  destruct (vad_input_shape c) as [W [D ->]].
  unfold update_noise_floor. destruct c. cbn.
  destruct vad_active0; cbn; split; reflexivity.
Qed.

Lemma step_trace_closed_form (w : world) (f : voice_frame_t) (m : bool) :
  let r := voice_processing_step w f m in
  trace (fst r)
  = trace w
      ++ (if listening (ctx w) && detection_fires w (snd r)
          then detection_events (ctx w) else [])
      ++ match audio_callback (ctx w) with
         | Some k => [EvAudioCallback k (audio_callback_data (ctx w))]
         | None => []
         end.
Proof.
  destruct (voice_processing_step_stages_full w f m)
    as (cA & fA & Hstep & _ & Hses & _).
  cbv zeta. rewrite Hstep. cbn [fst snd].
  rewrite finish_step_trace.
  pose proof (state_machine_events (set_ctx cA w) fA) as [Htr _].
  pose proof (state_machine_keeps (set_ctx cA w) fA)
    as (_ & _ & _ & _ & _ & _ & _ & _ & Ka & Kd).
  cbn [ctx set_ctx trace] in Htr, Ka, Kd.
  destruct Hses as (Hst & _ & _ & _ & _ & _ & _ & Hcfg & Ha & Hd & _).
  rewrite Htr, Ka, Kd, Ha, Hd, <- app_assoc.
  replace (listening cA) with (listening (ctx w))
    by (unfold listening; now rewrite Hst).
  replace (detection_events cA) with (detection_events (ctx w))
    by (unfold detection_events; now rewrite Hcfg).
  reflexivity.
Qed.

(** X17. The events of one iteration, in order: when a wake word is
    detected, the re-arming of the wake timer and then at most one
    wake-word callback; then the audio callback, exactly once when one is
    registered and with the registered user data, and not at all
    otherwise. *)
Theorem voice_processing_step_trace (w : world) (f : voice_frame_t) (m : bool) :
  let r := voice_processing_step w f m in
  trace (fst r)
  = trace w
      ++ (if listening (ctx w) && detection_fires w (snd r)
          then detection_events (ctx w) else [])
      ++ match audio_callback (ctx w) with
         | Some k => [EvAudioCallback k (audio_callback_data (ctx w))]
         | None => []
         end.
Proof. exact (step_trace_closed_form w f m). Qed.

Lemma step_ring_closed_form (w : world) (f : voice_frame_t) :
  let r1 := voice_processing_step w f true in
  let r0 := voice_processing_step w f false in
  snd r1 = snd r0
  /\ trace (fst r1) = trace (fst r0)
  /\ simulation_counter (fst r1) = simulation_counter (fst r0)
  /\ ctx (fst r1) = update_circular_buffer (ctx (fst r0)) (snd r0)
  /\ circular_buffer (ctx (fst r0)) = circular_buffer (ctx w)
  /\ buffer_write_idx (ctx (fst r0)) = buffer_write_idx (ctx w).
Proof.
  cbv zeta. unfold voice_processing_step. fold (vad_input (ctx w)).
  pose proof (vad_stage_ring (ctx w) f) as [V1 V2]. cbv zeta in V1, V2.
  destruct (detect_voice_activity (vad_input (ctx w)) f) as [[b cD] fD].
  cbn [fst snd] in *.
  set (cA := if b then _ else cD).
  assert (HA : circular_buffer cA = circular_buffer (ctx w)
               /\ buffer_write_idx cA = buffer_write_idx (ctx w)).
  { unfold cA. destruct b; [destruct cD; cbn in *|]; split; assumption. }
  pose proof (state_machine_ring (set_ctx cA w) (set_frame_vad_active b fD))
    as [S1 S2].
  cbn [ctx set_ctx] in S1, S2.
  set (w1 := state_machine (set_ctx cA w) (set_frame_vad_active b fD)) in *.
  destruct HA as [A1 A2].
  destruct (audio_callback (ctx w1)); cbn;
    repeat split; congruence.
Qed.

(** X18. Failing to take the buffer mutex costs the copy into the circular
    buffer and nothing else: the rest of the context, the events and the
    frame handed on are those of the iteration that takes it, and the
    circular buffer and its write index are as before the iteration. *)
Theorem mutex_timeout_skips_ring_only (w : world) (f : voice_frame_t) :
  let r1 := voice_processing_step w f true in
  let r0 := voice_processing_step w f false in
  snd r1 = snd r0
  /\ trace (fst r1) = trace (fst r0)
  /\ simulation_counter (fst r1) = simulation_counter (fst r0)
  /\ ctx (fst r1) = update_circular_buffer (ctx (fst r0)) (snd r0)
  /\ circular_buffer (ctx (fst r0)) = circular_buffer (ctx w)
  /\ buffer_write_idx (ctx (fst r0)) = buffer_write_idx (ctx w).
Proof. exact (step_ring_closed_form w f). Qed.

Lemma step_ring_facts (w : world) (f : voice_frame_t) :
  ctx (fst (voice_processing_step w f true))
  = update_circular_buffer (ctx (fst (voice_processing_step w f false)))
      (snd (voice_processing_step w f false))
  /\ samples (snd (voice_processing_step w f false)) = samples f
  /\ circular_buffer (ctx (fst (voice_processing_step w f false)))
     = circular_buffer (ctx w)
  /\ buffer_write_idx (ctx (fst (voice_processing_step w f false)))
     = buffer_write_idx (ctx w).
Proof.
  destruct (step_ring_closed_form w f) as (_ & _ & _ & H1 & H2 & H3).
  cbv zeta in *.
  destruct (voice_processing_step_stages w f false)
    as (cA & fA & Hstep & _ & _ & _ & _ & _ & _ & Hsam & _).
  repeat split; try assumption. now rewrite Hstep.
Qed.

Lemma update_circular_buffer_spec (c : voice_context) (f : voice_frame_t) :
  let stride := VOICE_FRAME_SIZE * VOICE_CHANNELS in
  let total := VOICE_BUFFER_SIZE * VOICE_CHANNELS in
  let idx := buffer_write_idx c in
  0 < stride -> 0 < total < 2 ^ 32 -> (stride | total) ->
  0 <= idx < total -> (stride | idx) ->
  Z.of_nat (length (circular_buffer c)) = total ->
  stride <= Z.of_nat (length (samples f)) ->
  let c' := update_circular_buffer c f in
  idx + stride <= total
  /\ buffer_write_idx c' = (if idx + stride =? total then 0 else idx + stride)
  /\ 0 <= buffer_write_idx c' < total
  /\ (stride | buffer_write_idx c')
  /\ length (circular_buffer c') = length (circular_buffer c)
  /\ firstn (Z.to_nat stride) (skipn (Z.to_nat idx) (circular_buffer c'))
     = firstn (Z.to_nat stride) (samples f)
  /\ firstn (Z.to_nat idx) (circular_buffer c')
     = firstn (Z.to_nat idx) (circular_buffer c)
  /\ skipn (Z.to_nat (idx + stride)) (circular_buffer c')
     = skipn (Z.to_nat (idx + stride)) (circular_buffer c).
Proof.
  intros stride total idx Hs Ht [k Hk] Hi [a Ha] Hlen Hsam c'.
  assert (Hak : a < k)
    by (apply Z.mul_lt_mono_pos_r with (p := stride); lia).
  assert (Hfit : idx + stride <= total).
  { rewrite Ha, Hk. replace (a * stride + stride) with ((a + 1) * stride) by ring.
    apply Z.mul_le_mono_nonneg_r; lia. }
  assert (Hws : to_size stride = stride) by (apply to_size_small; lia).
  assert (Hts : to_size total = total) by (apply to_size_small; lia).
  assert (Hsum : to_size (idx + stride) = idx + stride)
    by (apply to_size_small; lia).
  unfold c', update_circular_buffer. cbv zeta.
  fold stride total. rewrite Hws, Hts.
  set (ring := circular_buffer c) in *.
  set (ring' := memcpy_at ring (buffer_write_idx c) (samples f) stride).
  replace (buffer_write_idx (set_circular_buffer ring' c)) with idx
    by (now destruct c).
  rewrite Hsum.
  replace (buffer_write_idx
             (set_buffer_write_idx (Z.rem (idx + stride) total)
                (set_circular_buffer ring' c)))
    with (Z.rem (idx + stride) total) by (now destruct c).
  replace (circular_buffer
             (set_buffer_write_idx (Z.rem (idx + stride) total)
                (set_circular_buffer ring' c)))
    with ring' by (now destruct c).
  assert (Hrem : Z.rem (idx + stride) total
                 = if idx + stride =? total then 0 else idx + stride).
  { rewrite Z.rem_mod_nonneg by lia.
    destruct (idx + stride =? total) eqn:E.
    - apply Z.eqb_eq in E. rewrite E. apply Z_mod_same_full.
    - apply Z.eqb_neq in E. apply Z.mod_small. lia. }
  rewrite Hrem.
  split; [exact Hfit|]. split; [reflexivity|].
  split.
  { destruct (idx + stride =? total) eqn:E; [lia|].
    apply Z.eqb_neq in E. lia. }
  split.
  { destruct (idx + stride =? total);
      [apply Z.divide_0_r | exists (a + 1); lia]. }
  fold idx in ring'.
  assert (Hsrc : length (firstn (Z.to_nat stride) (samples f))
                 = Z.to_nat stride)
    by (rewrite length_firstn; lia).
  unfold ring', memcpy_at.
  split; [|split; [|split]].
  - rewrite !length_app, Hsrc, length_firstn, length_skipn. lia.
  - rewrite skipn_app, length_firstn.
    replace (Z.to_nat idx - Nat.min (Z.to_nat idx) (length ring))%nat
      with 0%nat by lia.
    rewrite skipn_all2 by (rewrite length_firstn; lia).
    cbn [skipn app]. rewrite firstn_app, Hsrc, Nat.sub_diag, firstn_O, app_nil_r.
    apply firstn_all2. lia.
  - rewrite firstn_app, length_firstn.
    replace (Z.to_nat idx - Nat.min (Z.to_nat idx) (length ring))%nat
      with 0%nat by lia.
    rewrite firstn_O, app_nil_r, firstn_firstn. f_equal. lia.
  - rewrite app_assoc, skipn_app.
    rewrite skipn_all2 by (rewrite length_app, Hsrc, length_firstn; lia).
    rewrite length_app, Hsrc, length_firstn.
    replace (Z.to_nat (idx + stride)
             - (Nat.min (Z.to_nat idx) (length ring) + Z.to_nat stride))%nat
      with 0%nat by lia.
    reflexivity.
Qed.

(** X19. When [VOICE_BUFFER_SIZE] is a multiple of [VOICE_FRAME_SIZE], the
    copy into the circular buffer stays inside it: with the write index a
    multiple of the frame stride and below the buffer's length, an
    iteration that takes the mutex stores the frame's samples at the write
    index, leaves the cells before and after them alone, keeps the
    buffer's length, and advances the index by one stride, wrapping to 0 at
    the end; the index is again a multiple of the stride and in range. *)
Theorem circular_buffer_write_in_bounds (w : world) (f : voice_frame_t)
  (Hs : 0 < VOICE_FRAME_SIZE * VOICE_CHANNELS)
  (Ht : 0 < VOICE_BUFFER_SIZE * VOICE_CHANNELS < 2 ^ 32)
  (Hdiv : (VOICE_FRAME_SIZE * VOICE_CHANNELS
           | VOICE_BUFFER_SIZE * VOICE_CHANNELS))
  (Hi : 0 <= buffer_write_idx (ctx w) < VOICE_BUFFER_SIZE * VOICE_CHANNELS)
  (Ha : (VOICE_FRAME_SIZE * VOICE_CHANNELS | buffer_write_idx (ctx w)))
  (Hlen : Z.of_nat (length (circular_buffer (ctx w)))
          = VOICE_BUFFER_SIZE * VOICE_CHANNELS)
  (Hsam : VOICE_FRAME_SIZE * VOICE_CHANNELS
          <= Z.of_nat (length (samples f))) :
  let stride := VOICE_FRAME_SIZE * VOICE_CHANNELS in
  let total := VOICE_BUFFER_SIZE * VOICE_CHANNELS in
  let idx := buffer_write_idx (ctx w) in
  let c' := ctx (fst (voice_processing_step w f true)) in
  idx + stride <= total
  /\ buffer_write_idx c' = (if idx + stride =? total then 0 else idx + stride)
  /\ 0 <= buffer_write_idx c' < total
  /\ (stride | buffer_write_idx c')
  /\ length (circular_buffer c') = length (circular_buffer (ctx w))
  /\ firstn (Z.to_nat stride) (skipn (Z.to_nat idx) (circular_buffer c'))
     = firstn (Z.to_nat stride) (samples f)
  /\ firstn (Z.to_nat idx) (circular_buffer c')
     = firstn (Z.to_nat idx) (circular_buffer (ctx w))
  /\ skipn (Z.to_nat (idx + stride)) (circular_buffer c')
     = skipn (Z.to_nat (idx + stride)) (circular_buffer (ctx w)).
Proof.
  destruct (step_ring_facts w f) as (Hc & Hsam' & R1 & R2).
  cbv zeta. rewrite Hc.
  pose proof (update_circular_buffer_spec
                (ctx (fst (voice_processing_step w f false)))
                (snd (voice_processing_step w f false))) as U.
  cbv zeta in U. rewrite R1, R2, Hsam' in U.
  exact (U Hs Ht Hdiv Hi Ha Hlen Hsam).
Qed.

End RingProofs.

Lemma stats_after_detection_example :
  stats (ctx (fst (Example.step Example.world_499 (Example.loud 90))))
  = mk_voice_stats 4 0 2 1
      (avg_energy_db
         (stats (ctx (fst (Example.step Example.world_499 (Example.loud 90))))))
      (noise_floor Example.ctx_active) F32.zero.
Proof. vm_compute. reflexivity. Qed.

Lemma circular_buffer_write_in_bounds_witness :
  buffer_write_idx (ctx Example.world0_aligned)
  + VOICE_FRAME_SIZE (VoiceHeader := aligned_header)
    * VOICE_CHANNELS (VoiceHeader := aligned_header)
  <= VOICE_BUFFER_SIZE (VoiceHeader := aligned_header)
     * VOICE_CHANNELS (VoiceHeader := aligned_header).
Proof.
  assert (Hs : 0 < VOICE_FRAME_SIZE (VoiceHeader := aligned_header)
                   * VOICE_CHANNELS (VoiceHeader := aligned_header))
    by (vm_compute; reflexivity).
  assert (Ht : 0 < VOICE_BUFFER_SIZE (VoiceHeader := aligned_header)
                   * VOICE_CHANNELS (VoiceHeader := aligned_header) < 2 ^ 32)
    by (vm_compute; split; reflexivity).
  assert (Hdiv : (VOICE_FRAME_SIZE (VoiceHeader := aligned_header)
                  * VOICE_CHANNELS (VoiceHeader := aligned_header)
                  | VOICE_BUFFER_SIZE (VoiceHeader := aligned_header)
                    * VOICE_CHANNELS (VoiceHeader := aligned_header)))
    by (exists 32; vm_compute; reflexivity).
  assert (Hi : 0 <= buffer_write_idx (ctx Example.world0_aligned)
               < VOICE_BUFFER_SIZE (VoiceHeader := aligned_header)
                 * VOICE_CHANNELS (VoiceHeader := aligned_header))
    by (vm_compute; split; [discriminate | reflexivity]).
  assert (Ha : (VOICE_FRAME_SIZE (VoiceHeader := aligned_header)
                * VOICE_CHANNELS (VoiceHeader := aligned_header)
                | buffer_write_idx (ctx Example.world0_aligned)))
    by (exists 0; vm_compute; reflexivity).
  assert (Hlen : Z.of_nat (length (circular_buffer (ctx Example.world0_aligned)))
                 = VOICE_BUFFER_SIZE (VoiceHeader := aligned_header)
                   * VOICE_CHANNELS (VoiceHeader := aligned_header))
    by (vm_compute; reflexivity).
  assert (Hsam : VOICE_FRAME_SIZE (VoiceHeader := aligned_header)
                 * VOICE_CHANNELS (VoiceHeader := aligned_header)
                 <= Z.of_nat (length (samples (Example.loud 0))))
    by (vm_compute; discriminate).
  pose proof
    (circular_buffer_write_in_bounds (libm := ref_libm)
       (hdr := aligned_header) Example.world0_aligned (Example.loud 0)
       Hs Ht Hdiv Hi Ha Hlen Hsam) as K.
  cbv zeta in K. exact (proj1 K).
Defined.

(** ** The ERROR state *)

Section ErrorStateProofs.
Context {libm : Libm} {hdr : VoiceHeader}.








End ErrorStateProofs.


(** ** The frame queue *)

Section QueueProofs.
Context {libm : Libm} {hdr : VoiceHeader}.

Lemma world_eta (w : world) : set_ctx (ctx w) w = w.
Proof. now destruct w. Qed.

Lemma exec_process_frame (s : system) (f : voice_frame_t) :
  exec s (CallProcessFrame f)
  = if Z.of_nat (length (sys_queue s)) <? FRAME_QUEUE_LENGTH
    then mk_system (sys_world s) (sys_queue s ++ [f])
    else
      mk_system
        (set_ctx
           (set_stats
              (set_buffer_overruns
                 (to_u32 (buffer_overruns (stats (ctx (sys_world s))) + 1))
                 (stats (ctx (sys_world s))))
              (ctx (sys_world s)))
           (sys_world s))
        (sys_queue s).
Proof.
  unfold exec, voice_process_frame.
  destruct (_ <? _); [now rewrite world_eta | reflexivity].
Qed.

Lemma submit_burst (fs : list voice_frame_t) :
  forall s : system,
    let room :=
      Z.to_nat (FRAME_QUEUE_LENGTH - Z.of_nat (length (sys_queue s))) in
    let s' := exec_all s (map CallProcessFrame fs) in
    sys_queue s' = sys_queue s ++ firstn room fs
    /\ to_u32 (buffer_overruns (stats (ctx (sys_world s'))))
       = to_u32 (buffer_overruns (stats (ctx (sys_world s)))
                 + Z.of_nat (length (skipn room fs)))
    /\ forget_overruns (ctx (sys_world s'))
       = forget_overruns (ctx (sys_world s))
    /\ simulation_counter (sys_world s') = simulation_counter (sys_world s)
    /\ trace (sys_world s') = trace (sys_world s).
Proof.
  unfold exec_all.
  induction fs as [|f fs IH]; intros s; cbv zeta.
  - cbn [map fold_left]. rewrite firstn_nil, skipn_nil, app_nil_r.
    cbn [length Z.of_nat]. rewrite Z.add_0_r. repeat split; reflexivity.
  - cbn [map fold_left]. specialize (IH (exec s (CallProcessFrame f))).
    cbv zeta in IH. rewrite exec_process_frame in IH |- *.
    unfold FRAME_QUEUE_LENGTH in *.
    destruct (Z.of_nat (length (sys_queue s)) <? 10) eqn:E.
    + apply Z.ltb_lt in E. cbn [sys_queue sys_world] in IH.
      rewrite length_app in IH. cbn [length] in IH.
      assert (Hroom : Z.to_nat (10 - Z.of_nat (length (sys_queue s)))
                      = S (Z.to_nat
                             (10 - Z.of_nat (length (sys_queue s) + 1))))
        by lia.
      rewrite Hroom. cbn [firstn skipn].
      rewrite <- app_assoc in IH. exact IH.
    + apply Z.ltb_ge in E. cbn [sys_queue sys_world ctx set_ctx] in IH.
      assert (Hroom : Z.to_nat (10 - Z.of_nat (length (sys_queue s))) = 0%nat)
        by lia.
      rewrite Hroom in *. cbn [firstn skipn] in *.
      destruct IH as (I1 & I2 & I3 & I4 & I5).
      rewrite I1, I2, I3, I4, I5, app_nil_r.
      repeat split.
      all: destruct (sys_world s) as [c n tr]; destruct c; cbn -[to_u32];
        try reflexivity.
      unfold to_u32. rewrite Zplus_mod_idemp_l. f_equal.
      change (length (f :: fs)) with (S (length fs)). lia.
Qed.

(** X21. A burst of frames handed to [voice_process_frame]: the frames
    that find room in the queue are queued in order behind those already
    there, the others are dropped, and [buffer_overruns] counts the dropped
    ones; nothing else changes in the context, and no event is emitted. *)
Theorem frame_burst_fills_then_drops (s : system) (fs : list voice_frame_t) :
  let room :=
    Z.to_nat (FRAME_QUEUE_LENGTH - Z.of_nat (length (sys_queue s))) in
  let s' := exec_all s (map CallProcessFrame fs) in
  sys_queue s' = sys_queue s ++ firstn room fs
  /\ to_u32 (buffer_overruns (stats (ctx (sys_world s'))))
     = to_u32 (buffer_overruns (stats (ctx (sys_world s)))
               + Z.of_nat (length (skipn room fs)))
  /\ forget_overruns (ctx (sys_world s'))
     = forget_overruns (ctx (sys_world s))
  /\ simulation_counter (sys_world s') = simulation_counter (sys_world s)
  /\ trace (sys_world s') = trace (sys_world s).
Proof. exact (submit_burst fs s). Qed.

End QueueProofs.

(** ** The rate of the demo trigger *)

Section RateProofs.
Context {libm : Libm} {hdr : VoiceHeader}.

Lemma state_machine_counter (w : world) (f : voice_frame_t) :
  simulation_counter (state_machine w f)
  = if listening (ctx w) then simulation_counter w + 1
    else simulation_counter w.
Proof.
  unfold state_machine, listening.
  pose proof (process_wake_word_detection_spec w f) as [H _].
  destruct (state (ctx w)); try exact H; now destruct w.
Qed.

Lemma finish_step_counter (w : world) (f : voice_frame_t) (m : bool) :
  simulation_counter (finish_step w f m) = simulation_counter w.
Proof.
  unfold finish_step. destruct m; destruct (audio_callback (ctx w));
    now destruct w.
Qed.

Lemma step_counter (w : world) (f : voice_frame_t) (m : bool) :
  simulation_counter (fst (voice_processing_step w f m))
  = if listening (ctx w) then simulation_counter w + 1
    else simulation_counter w.
Proof.
  destruct (voice_processing_step_stages w f m)
    as (cA & fA & Hstep & _ & _ & Hses & _).
  rewrite Hstep. cbn [fst].
  rewrite finish_step_counter, state_machine_counter.
  cbn [ctx set_ctx simulation_counter].
  unfold listening. destruct Hses as (-> & _). now destruct w.
Qed.

Lemma step_detection_count (w : world) (f : voice_frame_t) (m : bool) :
  let r := voice_processing_step w f m in
  detection_count (trace (fst r))
  = detection_count (trace w)
    + (if listening (ctx w) && detection_fires w (snd r) then 1 else 0).
Proof.
  cbv zeta. pose proof (step_trace_closed_form w f m) as H.
  cbv zeta in H. rewrite H, !detection_count_app.
  assert (Ha : detection_count
                 match audio_callback (ctx w) with
                 | Some k => [EvAudioCallback k (audio_callback_data (ctx w))]
                 | None => []
                 end = 0)
    by now destruct (audio_callback (ctx w)).
  rewrite Ha, Z.add_0_r. f_equal.
  destruct (listening (ctx w) && _); [|reflexivity].
  unfold detection_events. now destruct (first_callback _ _).
Qed.

Lemma run_detection_rate (frames : list (voice_frame_t * bool)) :
  forall w : world,
    0 <= simulation_counter w ->
    let w' := voice_processing_run w frames in
    simulation_counter w <= simulation_counter w'
      <= simulation_counter w + Z.of_nat (length frames)
    /\ detection_count (trace w') - detection_count (trace w)
       <= simulation_counter w' / 500 - simulation_counter w / 500.
Proof.
  induction frames as [|[f m] frames IH]; intros w H0; cbv zeta.
  - cbn [voice_processing_run length Z.of_nat]. lia.
  - cbn [voice_processing_run].
    pose proof (step_counter w f m) as Hc.
    pose proof (step_detection_count w f m) as Hd. cbv zeta in Hd.
    set (w1 := fst (voice_processing_step w f m)) in *.
    assert (H1 : 0 <= simulation_counter w1)
      by (rewrite Hc; destruct (listening (ctx w)); lia).
    specialize (IH w1 H1). cbv zeta in IH.
    destruct IH as [[I1 I2] I3].
    change (length ((f, m) :: frames)) with (S (length frames)).
    rewrite Nat2Z.inj_succ.
    assert (Hstep : simulation_counter w <= simulation_counter w1
                      <= simulation_counter w + 1
                    /\ detection_count (trace w1) - detection_count (trace w)
                       <= simulation_counter w1 / 500
                          - simulation_counter w / 500).
    { rewrite Hd, Hc. unfold detection_fires.
      destruct (listening (ctx w)); cbn [andb]; [|lia].
      destruct (frame_vad_active _); cbn [andb].
      - destruct (Z.rem (simulation_counter w + 1) 500 =? 0) eqn:E.
        + apply Z.eqb_eq in E. rewrite Z.rem_mod_nonneg in E by lia.
          split; [lia|].
          pose proof (Z.div_mod (simulation_counter w + 1) 500).
          pose proof (Z.div_mod (simulation_counter w) 500).
          pose proof (Z.mod_pos_bound (simulation_counter w) 500).
          lia.
        + split; [lia|].
          pose proof (Z.div_le_mono (simulation_counter w)
                        (simulation_counter w + 1) 500).
          lia.
      - split; [lia|].
        pose proof (Z.div_le_mono (simulation_counter w)
                      (simulation_counter w + 1) 500).
        lia. }
    lia.
Qed.

(** X23. The demo trigger of [process_wake_word_detection] fires at most
    once per 500 frames seen while the state machine looks for a wake word:
    over any run of iterations the static frame counter advances by at most
    one per frame, and the number of detections is at most the number of
    multiples of 500 it passes. As long as the counter, a C [int], does not
    overflow. *)
Theorem wake_detections_at_most_one_per_500 (w : world)
  (frames : list (voice_frame_t * bool))
  (H0 : 0 <= simulation_counter w)
  (Hint : simulation_counter w + Z.of_nat (length frames) < 2 ^ 31) :
  let w' := voice_processing_run w frames in
  simulation_counter w <= simulation_counter w'
    <= simulation_counter w + Z.of_nat (length frames)
  /\ detection_count (trace w') - detection_count (trace w)
     <= simulation_counter w' / 500 - simulation_counter w / 500.
Proof. exact (run_detection_rate frames w H0). Qed.

End RateProofs.

Lemma wake_detections_at_most_one_per_500_witness :
  let w := Example.world_499 in
  let frames := [(Example.loud 0, true); (Example.loud 30, true)] in
  let w' :=
    voice_processing_run (libm := ref_libm) (hdr := typical_header) w frames in
  simulation_counter w <= simulation_counter w'
    <= simulation_counter w + Z.of_nat (length frames)
  /\ detection_count (trace w') - detection_count (trace w)
     <= simulation_counter w' / 500 - simulation_counter w / 500.
Proof.
  assert (H0 : 0 <= simulation_counter Example.world_499)
    by (vm_compute; discriminate).
  assert (Hint : simulation_counter Example.world_499
                 + Z.of_nat
                     (length [(Example.loud 0, true); (Example.loud 30, true)])
                 < 2 ^ 31)
    by (vm_compute; reflexivity).
  exact (wake_detections_at_most_one_per_500 (libm := ref_libm)
           (hdr := typical_header) Example.world_499
           [(Example.loud 0, true); (Example.loud 30, true)] H0 Hint).
Defined.

(** ** The beamformer weights *)

Section UniformProofs.
Context {libm : Libm} {hdr : VoiceHeader}.

Lemma upd_nat_same_value {A : Type} (k : A) (l : list A) :
  Forall (eq k) l -> forall n : nat, upd_nat l n k = l.
Proof.
  induction 1 as [|x l Hx _ IH]; intros [|n]; cbn; try reflexivity.
  - now subst.
  - now rewrite IH.
Qed.

Lemma zupd_same_value {A : Type} (k : A) (l : list A) (i : Z) :
  Forall (eq k) l -> zupd l i k = l.
Proof.
  intros H. unfold zupd. destruct (i <? 0); [reflexivity|].
  now apply upd_nat_same_value.
Qed.

Lemma uniform_weights_all (c : voice_context) :
  uniform_weights c -> Forall (eq uniform_weight) (beamform_weights c).
Proof.
  unfold uniform_weights. intros ->. apply Forall_forall.
  intros x Hx. apply in_map_iff in Hx. destruct Hx as (_ & <- & _).
  reflexivity.
Qed.

Lemma beamform_loop_weights (sr : float32) (l : list Z) :
  forall c : voice_context,
    Forall (eq uniform_weight) (beamform_weights c) ->
    beamform_weights (fold_left (beamform_channel sr) l c)
    = beamform_weights c.
Proof.
  induction l as [|ch l IH]; intros c Hc; [reflexivity|].
  cbn [fold_left].
  assert (Hw : beamform_weights (beamform_channel sr c ch)
               = beamform_weights c).
  { unfold beamform_channel. cbv zeta. destruct c. cbn in *.
    now apply zupd_same_value. }
  rewrite IH; [exact Hw | now rewrite Hw].
Qed.

Lemma vad_input_uniform (c : voice_context) :
  uniform_weights c -> uniform_weights (vad_input c).
Proof.
  intros H. pose proof (uniform_weights_all c H) as Hall.
  unfold uniform_weights in *. unfold vad_input. cbv zeta.
  destruct (_ || _); [| now destruct c].
  unfold apply_beamforming. cbv zeta.
  rewrite beamform_loop_weights; now destruct c.
Qed.

Lemma step_uniform (w : world) (f : voice_frame_t) (m : bool) :
  uniform_weights (ctx w) ->
  uniform_weights (ctx (fst (voice_processing_step w f m))).
Proof.
  intros H.
  destruct (voice_processing_step_stages w f m)
    as (cA & fA & Hstep & _ & _ & _ & Hw & _).
  rewrite Hstep. cbn [fst].
  pose proof (finish_step_keeps (state_machine (set_ctx cA w) fA) fA m)
    as [(_ & _ & _ & _ & _ & _ & K1 & _) _].
  pose proof (state_machine_keeps (set_ctx cA w) fA)
    as (_ & _ & _ & _ & _ & _ & K2 & _).
  cbn [ctx set_ctx] in K2.
  apply vad_input_uniform in H.
  unfold uniform_weights in *. now rewrite K1, K2, Hw.
Qed.

Lemma exec_uniform (s : system) (k : call) :
  uniform_weights (ctx (sys_world s)) ->
  uniform_weights (ctx (sys_world (exec s k))).
Proof.
  intros H. destruct s as [w q].
  destruct k; cbn [exec sys_world sys_queue with_ctx set_ctx ctx] in *.
  - unfold voice_process_frame.
    destruct (_ <? _); cbn [sys_world ctx set_ctx]; [exact H|].
    unfold uniform_weights in *. now destruct (ctx w).
  - unfold after_call, voice_start_recording, uniform_weights in *.
    destruct (ctx w); cbn in *.
    repeat match goal with
           | |- context [if ?b then _ else _] => destruct b
           end; exact H.
  - unfold after_call, voice_stop_recording, uniform_weights in *.
    now destruct (ctx w).
  - unfold voice_get_recording, uniform_weights in *.
    destruct (recording_size (ctx w) =? 0);
      cbn [gr_ctx with_ctx sys_world set_ctx ctx]; [exact H|].
    destruct (ctx w); cbn in *.
    repeat match goal with
           | |- context [if ?b then _ else _] => destruct b
           end; exact H.
  - unfold after_call, voice_set_beam_direction, uniform_weights in *.
    destruct (ctx w); cbn in *.
    repeat match goal with
           | |- context [if ?b then _ else _] => destruct b
           end; exact H.
  - unfold after_call, voice_set_adaptive_beam, uniform_weights in *.
    now destruct (ctx w).
  - unfold after_call, voice_register_wake_word, uniform_weights in *.
    destruct (ctx w); cbn in *.
    repeat match goal with
           | |- context [if ?b then _ else _] => destruct b
           end; exact H.
  - unfold after_call, voice_set_sensitivity, uniform_weights in *.
    destruct (ctx w); cbn in *.
    repeat match goal with
           | |- context [if ?b then _ else _] => destruct b
           end; exact H.
  - unfold after_call, voice_reset, uniform_weights in *.
    now destruct (ctx w).
  - unfold after_call, voice_set_noise_suppression, uniform_weights in *.
    destruct (ctx w); cbn in *.
    repeat match goal with
           | |- context [if ?b then _ else _] => destruct b
           end; exact H.
  - unfold after_call, voice_calibrate_noise, uniform_weights in *.
    destruct (ctx w); cbn in *.
    repeat match goal with
           | |- context [if ?b then _ else _] => destruct b
           end; exact H.
  - unfold after_call, voice_register_audio_callback, uniform_weights in *.
    now destruct (ctx w).
  - unfold task_iteration. cbn [sys_queue sys_world].
    destruct q as [|f q]; cbn [sys_world]; [exact H|].
    now apply step_uniform.
  - unfold voice_timeout_callback, uniform_weights in *.
    destruct (voice_state_eqb _ _); [now destruct (ctx w) | exact H].
Qed.

Lemma fold_left_ext_in {A B : Type} (f g : A -> B -> A) (l : list B) :
  (forall a x, In x l -> f a x = g a x) ->
  forall a, fold_left f l a = fold_left g l a.
Proof.
  induction l as [|x l IH]; intros H a; [reflexivity|].
  cbn [fold_left]. rewrite H by now left.
  apply IH. intros a' y Hy. apply H. now right.
Qed.

Lemma nth_map_const {A B : Type} (k d : B) (l : list A) :
  forall n : nat, (n < length l)%nat -> nth n (map (fun _ => k) l) d = k.
Proof.
  induction l as [|x l IH]; intros [|n] Hn; cbn in *; try lia.
  - reflexivity.
  - apply IH. lia.
Qed.

Lemma mono_sample_uniform (c : voice_context) (f : voice_frame_t) (i : Z) :
  uniform_weights c -> mono_sample c f i = uniform_mix f i.
Proof.
  intros H. unfold mono_sample, uniform_mix. cbv zeta.
  do 3 f_equal. apply fold_left_ext_in. intros a ch Hch.
  do 2 f_equal. rewrite H.
  apply range_In in Hch. unfold znth.
  destruct (ch <? 0) eqn:E; [apply Z.ltb_lt in E; lia|].
  apply nth_map_const. rewrite range_length. lia.
Qed.

Lemma reachable_uniform (g : voice_config_t) (heap : list Z) (now : Z)
  (s : system) (ks : list call) :
  init_system g heap now = Some s ->
  uniform_weights (ctx (sys_world (exec_all s ks))).
Proof.
  intros Hinit.
  assert (H0 : uniform_weights (ctx (sys_world s))).
  { unfold init_system, voice_init in Hinit. injection Hinit as <-.
    reflexivity. }
  clear Hinit. revert s H0. unfold exec_all.
  induction ks as [|k ks IH]; intros s H0; [exact H0|].
  cbn [fold_left]. apply IH. now apply exec_uniform.
Qed.

(** X24. The beam direction and the adaptive mode never reach the
    recording: from [voice_init] on, whatever the calls and iterations, the
    beamformer weights are the uniform ones, so that every recorded sample
    is the plain average of the frame's channels, clamped to 16 bits. *)
Theorem recorded_mix_is_uniform (g : voice_config_t) (heap : list Z)
  (now : Z) (s : system) (ks : list call) (f : voice_frame_t) (i : Z)
  (Hinit : init_system g heap now = Some s) :
  let c := ctx (sys_world (exec_all s ks)) in
  uniform_weights c /\ mono_sample c f i = uniform_mix f i.
Proof.
  cbv zeta.
  pose proof (reachable_uniform g heap now s ks Hinit) as H.
  split; [exact H | now apply mono_sample_uniform].
Qed.

End UniformProofs.

Lemma recorded_mix_is_uniform_witness :
  let c :=
    ctx
      (sys_world
         (exec_all (libm := ref_libm) (hdr := typical_header)
            (mk_system Example.world0 [])
            [CallSetBeamDirection (F32.of_Z 90); CallSetAdaptiveBeam true;
             CallProcessFrame (Example.loud 0); TaskIteration true])) in
  uniform_weights (hdr := typical_header) c
  /\ mono_sample (hdr := typical_header) c (Example.loud 30) 0
     = uniform_mix (hdr := typical_header) (Example.loud 30) 0.
Proof.
  apply (recorded_mix_is_uniform (libm := ref_libm) (hdr := typical_header)
           Example.cfg [] 0).
  reflexivity.
Defined.
